(** * Satellite pass prediction: the sweep and the pass segmenter

    A shallow embedding of the two programs of the repository,

      - [Информация_о_спутнике_1.py]  (module [V1] below),
      - [Информация_о_спутнике_2.py]  (module [V2] below),

    and the properties of their time sweep: how visible instants are
    grouped into passes, how failed steps are skipped, what is rounded
    and where.

    Modelling conventions.
      - A [datetime] is an instant with microsecond resolution: a [Time]
        is a number of microseconds ([Z]).  The ISO strings the programs
        keep in a pass ([isoformat], read back with [fromisoformat]) are
        an injective encoding of the instant; a pass holds the instant.
        The instants given to the programs carry a time zone, as in
        both [__main__] blocks.  The range of [datetime] (years 1 to
        9999) is not modelled: no sum of instants overflows.
      - A Python [float] holds a rational number or NaN.  The numbers
        are modelled by [Q], with exact arithmetic: [round(x, n)] rounds
        the exact value half-to-even to [n] decimals.  The binary
        representation is not modelled: neither the last conversion of
        that decimal to the nearest binary float, nor the way NumPy
        rounds its own floats ([rint(x * 10**n) / 10**n], computed in
        binary), which can differ from the exact rounding by one unit
        of the last decimal when [x] is within a binary rounding error
        of a tie.  Statements that bound a rounded value are therefore
        given with a whole unit of the last decimal to spare.
      - NaN comes from the propagation: a position the propagator could
        not compute is a position of NaNs, which Skyfield returns
        without raising.  Every value derived from it is NaN; a
        [Geometry] says so in its field [is_nan], and its numbers then
        mean nothing and are not read.
      - Skyfield (orbit propagation, topocentric transform) and the
        catalogue are external: they are the fields of a record the
        sweep is given.  A call that raises is a call that returns
        [None]. *)

From Stdlib Require Import ZArith QArith Qround Lia Lqa List Bool String.
From Stdlib Require Import DecimalString FinFun.
Import ListNotations.

Local Open Scope Z_scope.

(** ** Python numerics *)

Module Py.

(** Round half to even, of an exact rational, to an integer. *)
Definition round_half_even (x : Q) : Z :=
  let f := Qfloor x in
  match Qcompare (x - inject_Z f) (1 # 2) with
  | Lt => f
  | Gt => f + 1
  | Eq => if Z.even f then f else f + 1
  end.

(** [round(x, ndigits)] on a float, for [ndigits >= 0]:
    the decimal with [ndigits] digits nearest to [x], ties to even. *)
Definition round (x : Q) (ndigits : nat) : Q :=
  let p := 10 ^ Z.of_nat ndigits in
  Qmake (round_half_even (x * inject_Z p)) (Z.to_pos p).

(** [max(a, b)]: the first argument unless the second is greater. *)
Definition max (a b : Q) : Q :=
  if Qle_bool b a then a else b.

(** [timedelta(seconds = x)] for a float [x], in microseconds:
    the fractional microseconds are rounded half to even. *)
Definition timedelta_seconds (x : Q) : Z :=
  round_half_even (x * inject_Z 1000000).

(** [timedelta.total_seconds()], of a difference in microseconds. *)
Definition total_seconds (us : Z) : Q := Qmake us 1000000.

End Py.

(** ** Instants, the external world, outcomes *)

(** A [datetime]: microseconds since the epoch. *)
Definition Time := Z.

(** [timedelta(seconds = n)] for an [int] number of seconds. *)
Definition seconds (n : Z) : Z := 1000000 * n.

(** What [subpoint()] gives: [latitude.degrees], [longitude.degrees] and
    the height [elevation], which Skyfield shows in metres ([.m]) and in
    kilometres ([.km]). *)
Record Subpoint := {
  latitude_degrees : Q;
  longitude_degrees : Q;
  elevation_m_of : Q;
  elevation_km_of : Q
}.

(** The libraries and services the programs call.  Each field is one
    call of the source; [None] stands for a raised exception. *)
Record World := {
  Satellite : Type;
  SatPos : Type;
  ObsPos : Type;
  (** [EarthSatellite(tle_line1, tle_line2)] *)
  EarthSatellite : string -> string -> option Satellite;
  (** [load.tle_file(url)] for the catalogue number in [url] *)
  tle_file : Z -> option (list Satellite);
  (** [satellite.model.satnum] *)
  satnum : Satellite -> Z;
  (** [satellite.name.strip()] *)
  name_strip : Satellite -> string;
  (** [get_satellite_name(norad_id)]: a catalogue request, or the
      fallback name when the request fails; it never raises. *)
  get_satellite_name : Z -> string;
  (** [datetime.now(timezone.utc)] when the metadata is built *)
  now : Time;
  (** [satellite.at(ts.from_datetime(t))] *)
  satellite_at : Satellite -> Time -> option SatPos;
  (** whether [pos] is a position of NaNs: the propagation failed and
      said so in [pos.message] only *)
  position_is_nan : SatPos -> bool;
  (** [pos.distance().km]: the distance from the centre of the Earth *)
  distance_km_of : SatPos -> Q;
  (** [wgs84.latlon(lat, lon, elev).at(ts.from_datetime(t))] *)
  observer_at : Q -> Q -> Q -> Time -> option ObsPos;
  (** [(pos - observer_pos).altaz()]:
      [alt.degrees], [az.degrees], [distance.km] *)
  altaz : SatPos -> ObsPos -> option (Q * Q * Q);
  (** [pos.subpoint()] *)
  subpoint : SatPos -> option Subpoint
}.

(** What one step of the sweep gets from its [try] block: numbers, or
    NaNs ([is_nan]) when the position was one of NaNs. *)
Record Geometry := {
  is_nan : bool;
  alt_degrees : Q;
  az_degrees : Q;
  distance_km : Q;
  sub : Subpoint
}.

(** [alt.degrees >= min_elevation]: a comparison with NaN is false. *)
Definition at_or_above (min_elevation : Q) (g : Geometry) : bool :=
  negb (is_nan g) && Qle_bool min_elevation (alt_degrees g).
Arguments at_or_above : simpl never.

(** How a call of [calculate_and_save_data] ends. *)
Inductive outcome (A : Type) : Type :=
| Returns (a : A)      (* the function returns; [a] is what it wrote *)
| Raises               (* an exception leaves the function *)
| OutOfFuel.           (* the loop did not finish within the fuel given *)
Arguments Returns {A} a.
Arguments Raises {A}.
Arguments OutOfFuel {A}.

(** The loop of both programs:
    [while current_time <= end_time_utc:
         <body>; current_time += timedelta(seconds = step_seconds)]
    where [body] is one turn without the step of the clock.  [None]:
    the loop has not finished within [fuel] turns. *)
Section While.

Context {St : Type}.
Variable body : St -> Time -> St.
Variable end_time_utc : Time.
Variable step_seconds : Z.

Fixpoint sweep (fuel : nat) (st : St) (current_time : Time) : option St :=
  if current_time <=? end_time_utc then
    match fuel with
    | O => None
    | S fuel' =>
        sweep fuel' (body st current_time)
              (current_time + seconds step_seconds)
    end
  else Some st.

End While.

(** ** The first program *)

Module V1.

Record Pass := {
  pass_id : Z;
  start : Time;
  end_ : Time;
  max_elevation : Q;
  duration_sec : Q
}.

Record Geodesic := { lat : Q; lon : Q; height_m : Q }.
Record Relative := { elevation : Q; azimuth : Q; rel_distance_km : Q }.

Record Entry := {
  entry_pass_id : Z;
  timestamp : Time;
  geodesic : Geodesic;
  relative : Relative
}.

Record Observer := { latitude : Q; longitude : Q; elevation_m : Q }.

Record Parameters := {
  par_start : Time;
  par_end : Time;
  par_step_seconds : Z;
  par_min_elevation_deg : Q
}.

Record Metadata := {
  satellite_name : string;
  norad_id : Z;
  observer : Observer;
  calculation_parameters : Parameters
}.

(** [passes_output]: [total_passes] sits in the metadata. *)
Record PassesOutput := {
  metadata : Metadata;
  total_passes : Z;
  passes : list Pass
}.

Record EphemerisOutput := {
  eph_metadata : Metadata;
  ephemeris : list Entry
}.

(** The two documents written by [json.dump]. *)
Record Output := {
  passes_output : PassesOutput;
  ephemeris_output : EphemerisOutput
}.

(** The variables of the loop. *)
Record State := {
  passes_data : list Pass;
  ephemeris_data : list Entry;
  pass_counter : Z;
  current_pass : option Pass
}.

Section Sweep.

Variable w : World.
Variable satellite : Satellite w.
Variables observer_lat observer_lon : Q.
Variables start_time_utc end_time_utc : Time.
Variable step_seconds : Z.
Variable observer_elev : Q.
Variable min_elevation : Q.

(** The [try] block of the loop body (lines 76-85).  The conversion
    [ts.from_datetime(current_time)] of line 72, before the [try], is
    part of [satellite_at]: it does not fail on an instant that carries
    a time zone.  The distance of a position of NaNs is NaN, and
    [timedelta(seconds = nan)] raises [ValueError] inside the [try]:
    the step fails like one whose call raised. *)
Definition geometry (current_time : Time) : option Geometry :=
  match satellite_at w satellite current_time with
  | None => None
  | Some sat_pos =>
      if position_is_nan w sat_pos then None
      else
      let distance_km := distance_km_of w sat_pos in
      let light_time_sec := (distance_km / 299792.458)%Q in
      let t_obs := current_time - Py.timedelta_seconds light_time_sec in
      match observer_at w observer_lat observer_lon observer_elev t_obs with
      | None => None
      | Some observer_pos =>
          match altaz w sat_pos observer_pos with
          | None => None
          | Some (alt, az, distance) =>
              match subpoint w sat_pos with
              | None => None
              | Some subpoint =>
                  Some {| is_nan := false;
                          alt_degrees := alt; az_degrees := az;
                          distance_km := distance; sub := subpoint |}
              end
          end
      end
  end.

(** [current_pass['duration_sec'] = (end - start).total_seconds();
     passes_data.append(current_pass)] *)
Definition close_pass (p : Pass) : Pass :=
  {| pass_id := pass_id p; start := start p; end_ := end_ p;
     max_elevation := max_elevation p;
     duration_sec := Py.total_seconds (end_ p - start p) |}.

Definition ephemeris_entry (pass_counter : Z) (current_time : Time)
    (g : Geometry) : Entry :=
  {| entry_pass_id := pass_counter;
     timestamp := current_time;
     geodesic :=
       {| lat := Py.round (latitude_degrees (sub g)) 6;
          lon := Py.round (longitude_degrees (sub g)) 6;
          height_m := Py.round (elevation_m_of (sub g)) 2 |};
     relative :=
       {| elevation := Py.round (alt_degrees g) 3;
          azimuth := Py.round (az_degrees g) 3;
          rel_distance_km := Py.round (distance_km g) 3 |} |}.

(** What follows the [try] block, for a step whose geometry [g] was
    computed (lines 92-130). *)
Definition classify (st : State) (current_time : Time) (g : Geometry)
    : State :=
  if at_or_above min_elevation g then
    let '(counter, cur) :=
      match current_pass st with
      | None =>
          (pass_counter st + 1,
           {| pass_id := pass_counter st + 1;
              start := current_time;
              end_ := current_time;
              max_elevation := alt_degrees g;
              duration_sec := 0 |})
      | Some p =>
          (pass_counter st,
           {| pass_id := pass_id p;
              start := start p;
              end_ := current_time;
              max_elevation := Py.max (max_elevation p) (alt_degrees g);
              duration_sec := duration_sec p |})
      end in
    {| passes_data := passes_data st;
       ephemeris_data :=
         ephemeris_data st ++ [ephemeris_entry counter current_time g];
       pass_counter := counter;
       current_pass := Some cur |}
  else
    match current_pass st with
    | Some p =>
        {| passes_data := passes_data st ++ [close_pass p];
           ephemeris_data := ephemeris_data st;
           pass_counter := pass_counter st;
           current_pass := None |}
    | None => st
    end.

(** One turn of the [while] loop (lines 71-132), without the step of
    the clock: a failed [try] prints and goes on to the next instant. *)
Definition body (st : State) (current_time : Time) : State :=
  match geometry current_time with
  | None => st
  | Some g => classify st current_time g
  end.

Definition initial : State :=
  {| passes_data := []; ephemeris_data := [];
     pass_counter := 0; current_pass := None |}.

(** "Фиксация последнего пролета": the pass still open after the loop. *)
Definition finish (st : State) : State :=
  match current_pass st with
  | Some p =>
      {| passes_data := passes_data st ++ [close_pass p];
         ephemeris_data := ephemeris_data st;
         pass_counter := pass_counter st;
         current_pass := Some (close_pass p) |}
  | None => st
  end.

Definition common_metadata : Metadata :=
  {| satellite_name := get_satellite_name w (satnum w satellite);
     norad_id := satnum w satellite;
     observer :=
       {| latitude := observer_lat; longitude := observer_lon;
          elevation_m := observer_elev |};
     calculation_parameters :=
       {| par_start := start_time_utc; par_end := end_time_utc;
          par_step_seconds := step_seconds;
          par_min_elevation_deg := min_elevation |} |}.

Definition outputs (st : State) : Output :=
  {| passes_output :=
       {| metadata := common_metadata;
          total_passes := pass_counter st;
          passes := passes_data st |};
     ephemeris_output :=
       {| eph_metadata := common_metadata;
          ephemeris := ephemeris_data st |} |}.

(** The function after its set-up. *)
Definition run (fuel : nat) : outcome Output :=
  match sweep body end_time_utc step_seconds fuel initial start_time_utc with
  | None => OutOfFuel
  | Some st => Returns (outputs (finish st))
  end.

End Sweep.

(** [calculate_and_save_data(tle_line1, tle_line2, observer_lat, ...)]:
    the two file names are left out, the result is what is written. *)
Definition calculate_and_save_data (w : World) (fuel : nat)
    (tle_line1 tle_line2 : string) (observer_lat observer_lon : Q)
    (start_time_utc end_time_utc : Time) (step_seconds : Z)
    (observer_elev min_elevation : Q) : outcome Output :=
  match EarthSatellite w tle_line1 tle_line2 with
  | None => Raises
  | Some satellite =>
      run w satellite observer_lat observer_lon start_time_utc
          end_time_utc step_seconds observer_elev min_elevation fuel
  end.

End V1.

(** ** The second program *)

Module V2.

Record Geodetic := { latitude : Q; longitude : Q; altitude_km : Q }.
Record Topocentric := { elevation : Q; azimuth : Q; topo_distance_km : Q }.

Record Entry := {
  entry_pass_id : Z;
  timestamp : Time;
  geodetic : Geodetic;
  topocentric : Topocentric
}.

(** The key [duration_sec] is absent until the pass is closed. *)
Record Pass := {
  pass_id : Z;
  start : Time;
  end_ : Time;
  max_elevation : Q;
  events : list Entry;
  duration_sec : option Q
}.

Record SatelliteInfo := {
  name : string;
  norad_id : Z;
  tle_source : string
}.

Record Observer := {
  obs_latitude : Q;
  obs_longitude : Q;
  elevation_m : Q
}.

Record Calculation := {
  calc_start : Time;
  calc_end : Time;
  calc_step_seconds : Z;
  min_elevation_deg : Q;
  utc_calculated : Time
}.

Record Metadata := {
  satellite : SatelliteInfo;
  observer : Observer;
  calculation : Calculation
}.

Record Statistics := {
  total_passes : Z;
  visible_time_total : Q
}.

Record PassesOutput := {
  metadata : Metadata;
  statistics : Statistics;
  passes : list Pass
}.

Record EphemerisOutput := {
  eph_metadata : Metadata;
  ephemeris : list Entry
}.

Record Output := {
  passes_output : PassesOutput;
  ephemeris_output : EphemerisOutput
}.

(** The variables of the loop; [passes_data] and [ephemeris_data] are
    the lists the source calls [passes] and [ephemeris]. *)
Record State := {
  passes_data : list Pass;
  ephemeris_data : list Entry;
  current_pass : option Pass;
  pass_number : Z
}.

(** The f-string of the catalogue address. *)
Definition url (norad_id : Z) : string :=
  ("https://celestrak.org/NORAD/elements/gp.php?CATNR="
     ++ NilEmpty.string_of_int (Z.to_int norad_id))%string.

(** [get_tle(norad_id)]: every failure becomes a [RuntimeError]. *)
Definition get_tle (w : World) (norad_id : Z) : option (Satellite w) :=
  match tle_file w norad_id with
  | Some (s :: _) => Some s
  | Some [] => None
  | None => None
  end.

(** [sum(p["duration_sec"] for p in passes)]; a pass without the key
    would raise. *)
Fixpoint sum_durations (acc : Q) (l : list Pass) : option Q :=
  match l with
  | [] => Some acc
  | p :: l' =>
      match duration_sec p with
      | Some d => sum_durations (acc + d)%Q l'
      | None => None
      end
  end.

Section Sweep.

Variable w : World.
Variable sat : Satellite w.
Variable norad_id_arg : Z.
Variables observer_lat observer_lon : Q.
Variables start_time_utc end_time_utc : Time.
Variable step_seconds : Z.
Variable observer_elev : Q.
Variable min_elevation : Q.

(** The calls at the head of the [try] block (lines 64-67): the
    observer is taken at the instant of the step itself.  Nothing here
    raises on a position of NaNs: the elevation, the azimuth, the
    distance and the subpoint are NaN. *)
Definition geometry (current_time : Time) : option Geometry :=
  match satellite_at w sat current_time with
  | None => None
  | Some pos =>
      match subpoint w pos with
      | None => None
      | Some subpoint =>
          match observer_at w observer_lat observer_lon observer_elev
                  current_time with
          | None => None
          | Some observer_pos =>
              match altaz w pos observer_pos with
              | None => None
              | Some (alt, az, dist) =>
                  Some {| is_nan := position_is_nan w pos;
                          alt_degrees := alt; az_degrees := az;
                          distance_km := dist; sub := subpoint |}
              end
          end
      end
  end.

(** [current_pass["duration_sec"] = round((end - start).total_seconds(), 1);
     passes.append(current_pass)] *)
Definition close_pass (p : Pass) : Pass :=
  {| pass_id := pass_id p; start := start p; end_ := end_ p;
     max_elevation := max_elevation p; events := events p;
     duration_sec :=
       Some (Py.round (Py.total_seconds (end_ p - start p)) 1) |}.

Definition ephemeris_entry (pass_number : Z) (current_time : Time)
    (g : Geometry) : Entry :=
  {| entry_pass_id := pass_number;
     timestamp := current_time;
     geodetic :=
       {| latitude := Py.round (latitude_degrees (sub g)) 6;
          longitude := Py.round (longitude_degrees (sub g)) 6;
          altitude_km := Py.round (elevation_km_of (sub g)) 3 |};
     topocentric :=
       {| elevation := Py.round (alt_degrees g) 3;
          azimuth := Py.round (az_degrees g) 3;
          topo_distance_km := Py.round (distance_km g) 3 |} |}.

(** The rest of the [try] block (lines 69-110).  A geometry of NaNs
    is not at or above the threshold: it takes the [elif] branch and
    closes the pass that is open. *)
Definition classify (st : State) (current_time : Time) (g : Geometry)
    : State :=
  if at_or_above min_elevation g then
    let '(number, cur) :=
      match current_pass st with
      | None =>
          (pass_number st + 1,
           {| pass_id := pass_number st + 1;
              start := current_time;
              end_ := current_time;
              max_elevation := Py.round (alt_degrees g) 2;
              events := [];
              duration_sec := None |})
      | Some p =>
          (pass_number st,
           {| pass_id := pass_id p;
              start := start p;
              end_ := current_time;
              max_elevation :=
                Py.max (max_elevation p) (Py.round (alt_degrees g) 2);
              events := events p;
              duration_sec := duration_sec p |})
      end in
    let entry := ephemeris_entry number current_time g in
    {| passes_data := passes_data st;
       ephemeris_data := ephemeris_data st ++ [entry];
       current_pass :=
         Some {| pass_id := pass_id cur; start := start cur;
                 end_ := end_ cur; max_elevation := max_elevation cur;
                 events := events cur ++ [entry];
                 duration_sec := duration_sec cur |};
       pass_number := number |}
  else
    match current_pass st with
    | Some p =>
        {| passes_data := passes_data st ++ [close_pass p];
           ephemeris_data := ephemeris_data st;
           current_pass := None;
           pass_number := pass_number st |}
    | None => st
    end.

(** One turn of the [while] loop (lines 61-115), without the step of
    the clock: the [except] clause prints and the loop goes on. *)
Definition body (st : State) (current_time : Time) : State :=
  match geometry current_time with
  | None => st
  | Some g => classify st current_time g
  end.

Definition initial : State :=
  {| passes_data := []; ephemeris_data := [];
     current_pass := None; pass_number := 0 |}.

(** "Фиксация последнего пролета": the pass still open after the loop. *)
Definition finish (st : State) : State :=
  match current_pass st with
  | Some p =>
      {| passes_data := passes_data st ++ [close_pass p];
         ephemeris_data := ephemeris_data st;
         current_pass := Some (close_pass p);
         pass_number := pass_number st |}
  | None => st
  end.

Definition build_metadata : Metadata :=
  {| satellite :=
       {| name := name_strip w sat;
          norad_id := norad_id_arg;
          tle_source := url norad_id_arg |};
     observer :=
       {| obs_latitude := observer_lat; obs_longitude := observer_lon;
          elevation_m := observer_elev |};
     calculation :=
       {| calc_start := start_time_utc; calc_end := end_time_utc;
          calc_step_seconds := step_seconds;
          min_elevation_deg := min_elevation;
          utc_calculated := now w |} |}.

Definition outputs (st : State) : outcome Output :=
  match sum_durations 0 (passes_data st) with
  | None => Raises
  | Some total =>
      Returns
        {| passes_output :=
             {| metadata := build_metadata;
                statistics :=
                  {| total_passes := pass_number st;
                     visible_time_total := total |};
                passes := passes_data st |};
           ephemeris_output :=
             {| eph_metadata := build_metadata;
                ephemeris := ephemeris_data st |} |}
  end.

Definition run (fuel : nat) : outcome Output :=
  match sweep body end_time_utc step_seconds fuel initial start_time_utc with
  | None => OutOfFuel
  | Some st => outputs (finish st)
  end.

End Sweep.

(** [calculate_and_save_data(norad_id, observer_lat, ...)] *)
Definition calculate_and_save_data (w : World) (fuel : nat)
    (norad_id : Z) (observer_lat observer_lon : Q)
    (start_time_utc end_time_utc : Time) (step_seconds : Z)
    (observer_elev min_elevation : Q) : outcome Output :=
  match get_tle w norad_id with
  | None => Raises
  | Some satellite =>
      run w satellite norad_id observer_lat observer_lon start_time_utc
          end_time_utc step_seconds observer_elev min_elevation fuel
  end.

End V2.

(** ** The pass segmenter as the specification words it

    The two-state machine of the specification, with the collector of
    ephemeris records beside it.  It consumes the stream of the samples
    that were computed; a failed step is not in the stream. *)

Module Spec.

(** A computed sample, as the segmenter sees it: its instant, the
    verdict of the classifier and the elevation handed on. *)
Record Sample := {
  timestamp : Time;
  is_visible : bool;
  elevation_deg : Q
}.

(** The pass being accumulated. *)
Record OpenPass := {
  open_id : Z;
  open_start : Time;
  open_end : Time;
  open_max : Q
}.

Record Pass := {
  pass_id : Z;
  start_time : Time;
  end_time : Time;
  max_elevation_deg : Q;
  duration_sec : Q
}.

Inductive Phase := IDLE | ACTIVE (p : OpenPass).

Record Segmenter := {
  phase : Phase;
  counter : Z;
  emitted : list Pass;
  records : list (Z * Sample)     (* pass_id and sample of each record *)
}.

Definition start_state : Segmenter :=
  {| phase := IDLE; counter := 0; emitted := []; records := [] |}.

(** Closing action: [duration_sec = end_time - start_time]. *)
Definition close (p : OpenPass) : Pass :=
  {| pass_id := open_id p; start_time := open_start p;
     end_time := open_end p; max_elevation_deg := open_max p;
     duration_sec := Py.total_seconds (open_end p - open_start p) |}.

Definition transition (s : Segmenter) (x : Sample) : Segmenter :=
  match phase s, is_visible x with
  | IDLE, true =>
      {| phase := ACTIVE {| open_id := counter s + 1;
                            open_start := timestamp x;
                            open_end := timestamp x;
                            open_max := elevation_deg x |};
         counter := counter s + 1;
         emitted := emitted s;
         records := records s ++ [(counter s + 1, x)] |}
  | ACTIVE p, true =>
      {| phase := ACTIVE {| open_id := open_id p;
                            open_start := open_start p;
                            open_end := timestamp x;
                            open_max :=
                              Py.max (open_max p) (elevation_deg x) |};
         counter := counter s;
         emitted := emitted s;
         records := records s ++ [(open_id p, x)] |}
  | ACTIVE p, false =>
      {| phase := IDLE; counter := counter s;
         emitted := emitted s ++ [close p];
         records := records s |}
  | IDLE, false => s
  end.

(** The implicit last transition. *)
Definition end_of_sweep (s : Segmenter) : Segmenter :=
  match phase s with
  | ACTIVE p =>
      {| phase := IDLE; counter := counter s;
         emitted := emitted s ++ [close p];
         records := records s |}
  | IDLE => s
  end.

Definition segment (stream : list Sample) : Segmenter :=
  end_of_sweep (fold_left transition stream start_state).

End Spec.

(** ** The instants of a sweep and its sample stream *)

(** The number of turns of the loop from [t], for a positive step. *)
Definition turns (t end_time_utc : Time) (step_seconds : Z) : nat :=
  if t <=? end_time_utc
  then Z.to_nat ((end_time_utc - t) / seconds step_seconds + 1)
  else O.

(** [n] instants from [t], one step apart. *)
Fixpoint instants (t : Time) (step_seconds : Z) (n : nat) : list Time :=
  match n with
  | O => []
  | S n' => t :: instants (t + seconds step_seconds) step_seconds n'
  end.

Definition sweep_instants (start_time_utc end_time_utc : Time)
    (step_seconds : Z) : list Time :=
  instants start_time_utc step_seconds
           (turns start_time_utc end_time_utc step_seconds).

(** The sample of an instant whose geometry was computed. *)
Definition sample_at (geometry : Time -> option Geometry) (min_elevation : Q)
    (handed : Q -> Q) (t : Time) : Spec.Sample :=
  match geometry t with
  | Some g =>
      {| Spec.timestamp := t;
         Spec.is_visible := at_or_above min_elevation g;
         Spec.elevation_deg := handed (alt_degrees g) |}
  | None =>
      {| Spec.timestamp := t; Spec.is_visible := false;
         Spec.elevation_deg := 0 |}
  end.

(** The samples of a list of instants: the instants whose geometry was
    computed, classified against the threshold; [handed] is what becomes
    of the elevation on its way to the pass. *)
Fixpoint stream (geometry : Time -> option Geometry) (min_elevation : Q)
    (handed : Q -> Q) (ts : list Time) : list Spec.Sample :=
  match ts with
  | [] => []
  | t :: ts' =>
      match geometry t with
      | None => stream geometry min_elevation handed ts'
      | Some _ =>
          sample_at geometry min_elevation handed t
          :: stream geometry min_elevation handed ts'
      end
  end.

(** The raw elevation at an instant, [alt.degrees]. *)
Definition raw_elevation (geometry : Time -> option Geometry) (t : Time) : Q :=
  match geometry t with
  | Some g => alt_degrees g
  | None => 0
  end.

(** The greatest of a list, taken from the left with [max]. *)
Definition maximum (l : list Q) : option Q :=
  match l with
  | [] => None
  | a :: l' => Some (fold_left Py.max l' a)
  end.

(** The first two decimals: what the second program hands to a pass. *)
Definition round2 (x : Q) : Q := Py.round x 2.

(** Instants in increasing order, none before [b]. *)
Fixpoint increasing_from (b : Time) (ts : list Time) : Prop :=
  match ts with
  | [] => True
  | t :: ts' => b <= t /\ increasing_from (t + 1) ts'
  end.

(** [1; 2; ...; n] *)
Definition ids_upto (n : nat) : list Z := map Z.of_nat (seq 1 n).

(** *** The programs seen as the segmenter *)

(** The pass of the first program as a pass of the specification. *)
Definition spec_of_v1 (p : V1.Pass) : Spec.Pass :=
  {| Spec.pass_id := V1.pass_id p; Spec.start_time := V1.start p;
     Spec.end_time := V1.end_ p;
     Spec.max_elevation_deg := V1.max_elevation p;
     Spec.duration_sec := V1.duration_sec p |}.

(** The second program keeps more in a pass (its events) and rounds the
    duration: a pass matches one of the specification when the shared
    fields agree, the duration as a number. *)
Definition v2_matches (p : V2.Pass) (q : Spec.Pass) : Prop :=
  V2.pass_id p = Spec.pass_id q /\
  V2.start p = Spec.start_time q /\
  V2.end_ p = Spec.end_time q /\
  V2.max_elevation p = Spec.max_elevation_deg q /\
  exists d, V2.duration_sec p = Some d /\ (d == Spec.duration_sec q)%Q.

(** A pass of the second program with its duration computed afresh. *)
Definition spec_of_v2 (p : V2.Pass) : Spec.Pass :=
  {| Spec.pass_id := V2.pass_id p; Spec.start_time := V2.start p;
     Spec.end_time := V2.end_ p;
     Spec.max_elevation_deg := V2.max_elevation p;
     Spec.duration_sec := Py.total_seconds (V2.end_ p - V2.start p) |}.

Definition abs_v1 (geometry : Time -> option Geometry) (min_elevation : Q)
    (st : V1.State) : Spec.Segmenter :=
  {| Spec.phase :=
       match V1.current_pass st with
       | None => Spec.IDLE
       | Some p =>
           Spec.ACTIVE {| Spec.open_id := V1.pass_id p;
                          Spec.open_start := V1.start p;
                          Spec.open_end := V1.end_ p;
                          Spec.open_max := V1.max_elevation p |}
       end;
     Spec.counter := V1.pass_counter st;
     Spec.emitted := map spec_of_v1 (V1.passes_data st);
     Spec.records :=
       map (fun e => (V1.entry_pass_id e,
                      sample_at geometry min_elevation (fun x => x)
                                (V1.timestamp e)))
           (V1.ephemeris_data st) |}.

Definition abs_v2 (geometry : Time -> option Geometry) (min_elevation : Q)
    (st : V2.State) : Spec.Segmenter :=
  {| Spec.phase :=
       match V2.current_pass st with
       | None => Spec.IDLE
       | Some p =>
           Spec.ACTIVE {| Spec.open_id := V2.pass_id p;
                          Spec.open_start := V2.start p;
                          Spec.open_end := V2.end_ p;
                          Spec.open_max := V2.max_elevation p |}
       end;
     Spec.counter := V2.pass_number st;
     Spec.emitted := map spec_of_v2 (V2.passes_data st);
     Spec.records :=
       map (fun e => (V2.entry_pass_id e,
                      sample_at geometry min_elevation round2
                                (V2.timestamp e)))
           (V2.ephemeris_data st) |}.

(** The open pass carries the current value of the counter. *)
Definition v1_tagged (st : V1.State) : Prop :=
  forall p, V1.current_pass st = Some p ->
            V1.pass_id p = V1.pass_counter st.

Definition v2_tagged (st : V2.State) : Prop :=
  forall p, V2.current_pass st = Some p ->
            V2.pass_id p = V2.pass_number st.

(** The passes of the second program lie on the grid of whole seconds
    from [t0], and a closed pass has its rounded duration. *)
Definition v2_timed (t0 : Time) (st : V2.State) : Prop :=
  Forall (fun p =>
            V2.duration_sec p
            = Some (Py.round (Py.total_seconds (V2.end_ p - V2.start p)) 1)
            /\ exists k, V2.end_ p - V2.start p = seconds k)
         (V2.passes_data st) /\
  forall p, V2.current_pass st = Some p ->
    exists k1 k2, V2.start p = t0 + seconds k1 /\
                  V2.end_ p = t0 + seconds k2.

(** *** What holds of the segmenter between two samples *)

Definition open_ids (ph : Spec.Phase) : list Z :=
  match ph with
  | Spec.IDLE => []
  | Spec.ACTIVE o => [Spec.open_id o]
  end.

(** The identifiers of all passes, closed and open, in order. *)
Definition all_ids (s : Spec.Segmenter) : list Z :=
  map Spec.pass_id (Spec.emitted s) ++ open_ids (Spec.phase s).

(** Every earlier pass ends before a later one starts. *)
Definition separated (l : list Spec.Pass) : Prop :=
  forall i j p q, (i < j)%nat ->
    nth_error l i = Some p -> nth_error l j = Some q ->
    Spec.end_time p < Spec.start_time q.

(** The bound under which the closed passes lie: the start of the open
    pass, or the next instant. *)
Definition low (b : Time) (ph : Spec.Phase) : Time :=
  match ph with
  | Spec.IDLE => b
  | Spec.ACTIVE o => Spec.open_start o
  end.

(** The elevations recorded under one pass identifier. *)
Definition elevations_of (id : Z) (rs : list (Z * Spec.Sample)) : list Q :=
  map (fun r => Spec.elevation_deg (snd r))
      (filter (fun r => fst r =? id) rs).

(** The state of the segmenter when every sample still to come is at
    [b] or later. *)
Record Inv (b : Time) (s : Spec.Segmenter) : Prop := {
  inv_ids : exists n,
    Spec.counter s = Z.of_nat n /\ all_ids s = ids_upto n;
  inv_separated : separated (Spec.emitted s);
  inv_emitted :
    Forall (fun p => Spec.start_time p <= Spec.end_time p /\
                     Spec.end_time p < low b (Spec.phase s))
           (Spec.emitted s);
  inv_open : forall o, Spec.phase s = Spec.ACTIVE o ->
    Spec.open_start o <= Spec.open_end o < b;
  inv_records :
    Forall (fun r => In (fst r) (all_ids s)) (Spec.records s);
  inv_max_emitted :
    Forall (fun p => maximum (elevations_of (Spec.pass_id p)
                                            (Spec.records s))
                     = Some (Spec.max_elevation_deg p))
           (Spec.emitted s);
  inv_max_open : forall o, Spec.phase s = Spec.ACTIVE o ->
    maximum (elevations_of (Spec.open_id o) (Spec.records s))
    = Some (Spec.open_max o)
}.

(** ** A small world to run the programs in

    One satellite; instants are whole seconds from 0; the elevation at
    second [k] is the [k]-th entry of a table, [None] where the
    propagation fails.  The observer position is the instant it is asked
    for, so that the instant used can be read back as the azimuth. *)

Definition table_world (table : list (option Q)) : World :=
  {| Satellite := unit;
     SatPos := Q * Time;
     ObsPos := Time;
     EarthSatellite := fun _ _ => Some tt;
     tle_file := fun _ => Some [tt];
     satnum := fun _ => 25544;
     name_strip := fun _ => "ISS"%string;
     get_satellite_name := fun _ => "ISS"%string;
     now := 0;
     satellite_at := fun _ t =>
       match nth (Z.to_nat (t / 1000000)) table None with
       | Some e => Some (e, t)
       | None => None
       end;
     position_is_nan := fun _ => false;
     distance_km_of := fun _ => 6771%Q;
     observer_at := fun _ _ _ t => Some t;
     altaz := fun p o => Some (fst p, inject_Z (snd p - o), 1000%Q);
     subpoint := fun _ =>
       Some {| latitude_degrees := 0; longitude_degrees := 0;
               elevation_m_of := 400000; elevation_km_of := 400 |} |}.

(** *** The same world with one answer changed

    Two runs of a program see the same sky; what can differ between
    them is what the network and the clock answer. *)

(** The catalogue answers the name request with [answer]. *)
Definition with_catalogue (w : World) (answer : Z -> string) : World :=
  {| Satellite := Satellite w; SatPos := SatPos w; ObsPos := ObsPos w;
     EarthSatellite := EarthSatellite w;
     tle_file := tle_file w;
     satnum := satnum w;
     name_strip := name_strip w;
     get_satellite_name := answer;
     now := now w;
     satellite_at := satellite_at w;
     position_is_nan := position_is_nan w;
     distance_km_of := distance_km_of w;
     observer_at := observer_at w;
     altaz := altaz w;
     subpoint := subpoint w |}.

(** The clock reads [t] when the metadata is built. *)
Definition with_clock (w : World) (t : Time) : World :=
  {| Satellite := Satellite w; SatPos := SatPos w; ObsPos := ObsPos w;
     EarthSatellite := EarthSatellite w;
     tle_file := tle_file w;
     satnum := satnum w;
     name_strip := name_strip w;
     get_satellite_name := get_satellite_name w;
     now := t;
     satellite_at := satellite_at w;
     position_is_nan := position_is_nan w;
     distance_km_of := distance_km_of w;
     observer_at := observer_at w;
     altaz := altaz w;
     subpoint := subpoint w |}.

(** The propagation fails, without raising, at the positions [failed]
    holds of. *)
Definition with_nan_positions (w : World) (failed : SatPos w -> bool)
    : World :=
  {| Satellite := Satellite w; SatPos := SatPos w; ObsPos := ObsPos w;
     EarthSatellite := EarthSatellite w;
     tle_file := tle_file w;
     satnum := satnum w;
     name_strip := name_strip w;
     get_satellite_name := get_satellite_name w;
     now := now w;
     satellite_at := satellite_at w;
     position_is_nan := failed;
     distance_km_of := distance_km_of w;
     observer_at := observer_at w;
     altaz := altaz w;
     subpoint := subpoint w |}.

(** Another topocentric transform. *)
Definition with_altaz (w : World)
    (transform : SatPos w -> ObsPos w -> option (Q * Q * Q)) : World :=
  {| Satellite := Satellite w; SatPos := SatPos w; ObsPos := ObsPos w;
     EarthSatellite := EarthSatellite w;
     tle_file := tle_file w;
     satnum := satnum w;
     name_strip := name_strip w;
     get_satellite_name := get_satellite_name w;
     now := now w;
     satellite_at := satellite_at w;
     position_is_nan := position_is_nan w;
     distance_km_of := distance_km_of w;
     observer_at := observer_at w;
     altaz := transform;
     subpoint := subpoint w |}.

(** ** The properties claimed of the reports *)

(** A pass list in the order of its start times, whose passes do not
    overlap and do not end before they start. *)
Definition non_overlapping {A : Type} (start_of end_of : A -> Time)
    (l : list A) : Prop :=
  (forall i j p q, (i < j)%nat ->
     nth_error l i = Some p -> nth_error l j = Some q ->
     start_of p < start_of q) /\
  (forall i p q,
     nth_error l i = Some p -> nth_error l (S i) = Some q ->
     end_of p < start_of q) /\
  (forall p, In p l -> start_of p <= end_of p).

(** The verdict of the classifier at an instant of the sweep. *)
Definition visible_at (geometry : Time -> option Geometry)
    (min_elevation : Q) (t : Time) : bool :=
  match geometry t with
  | Some g => at_or_above min_elevation g
  | None => false
  end.

(** Whether the geometry of an instant was computed. *)
Definition computed_at (geometry : Time -> option Geometry) (t : Time)
    : bool :=
  match geometry t with
  | Some _ => true
  | None => false
  end.

(** The raw elevations of the samples of a pass: those of the instants
    of the ephemeris records that carry its identifier. *)
Definition v1_raw_elevations (geometry : Time -> option Geometry)
    (out : V1.Output) (p : V1.Pass) : list Q :=
  map (fun e => raw_elevation geometry (V1.timestamp e))
      (filter (fun e => V1.entry_pass_id e =? V1.pass_id p)
              (V1.ephemeris (V1.ephemeris_output out))).

Definition v2_raw_elevations (geometry : Time -> option Geometry)
    (out : V2.Output) (p : V2.Pass) : list Q :=
  map (fun e => raw_elevation geometry (V2.timestamp e))
      (filter (fun e => V2.entry_pass_id e =? V2.pass_id p)
              (V2.ephemeris (V2.ephemeris_output out))).

(** The light-time correction as the specification words it: whenever
    the geometry of an instant [t] is computed, the satellite is taken
    at [t] and the observer at [t_obs = t - range_km / c], the delay
    being a [timedelta], hence a whole number of microseconds. *)
Definition light_time_corrected (w : World) (sat : Satellite w)
    (lat lon elev : Q) (geometry : Time -> option Geometry) : Prop :=
  forall t g, geometry t = Some g ->
  exists pos observer_pos,
    satellite_at w sat t = Some pos /\
    observer_at w lat lon elev
      (t - Py.timedelta_seconds (distance_km_of w pos / 299792.458))
    = Some observer_pos /\
    altaz w pos observer_pos
    = Some (alt_degrees g, az_degrees g, distance_km g).

(** No correction: satellite and observer both at [t]. *)
Definition uncorrected (w : World) (sat : Satellite w)
    (lat lon elev : Q) (geometry : Time -> option Geometry) : Prop :=
  forall t g, geometry t = Some g ->
  exists pos observer_pos,
    satellite_at w sat t = Some pos /\
    observer_at w lat lon elev t = Some observer_pos /\
    altaz w pos observer_pos
    = Some (alt_degrees g, az_degrees g, distance_km g).

(** The lower bound kept by the elevations a pass is given. *)
Definition bounded_below (L : Q) (s : Spec.Segmenter) : Prop :=
  Forall (fun p => (L <= Spec.max_elevation_deg p)%Q) (Spec.emitted s) /\
  forall o, Spec.phase s = Spec.ACTIVE o -> (L <= Spec.open_max o)%Q.

(** A sweep of seven seconds: below the threshold of 10 degrees, a pass
    with a failed step inside it, a dip, a pass cut by the end. *)
Definition demo_table : list (option Q) :=
  [Some 5.5; Some 10.004; None; Some 12.126; Some 3; Some 10; Some 11]%Q.

Definition demo_world : World := table_world demo_table.

(** One visible window with three failed steps inside it. *)
Definition gap_table : list (option Q) :=
  [Some 10.5; None; None; None; Some 12; Some 11]%Q.

Definition gap_world : World := table_world gap_table.

(** One visible window of five seconds; the propagation fails at
    second 2 without raising: the position there is one of NaNs. *)
Definition nan_world : World :=
  with_nan_positions
    (table_world [Some 10.5; Some 11; Some 12; Some 12; Some 11]%Q)
    (fun pos => snd pos =? seconds 2).

(** The sky of [demo_world] seen through a transform in which the
    elevation depends on the instant of the observer: a millionth of a
    degree for each millisecond of light time. *)
Definition drift_world : World :=
  with_altaz demo_world
    (fun pos observer_pos =>
       Some ((fst pos + inject_Z (snd pos - observer_pos) / 1000000000)%Q,
             inject_Z (snd pos - observer_pos), 1000%Q)).

From Stdlib Require Import Ascii NArith DecimalZ.

(** ** The catalogue name of the first program

    [get_satellite_name] of [Информация_о_спутнике_1.py] (lines 7-26),
    as a function of what the catalogue request gives: the text of the
    response, or nothing when [requests.get] or [raise_for_status]
    raises.  A Python [str] is the list of its code points. *)

Module Celestrak.

Local Open Scope N_scope.

Definition str := list N.

(** A literal of the source. *)
Definition of_string (s : string) : str :=
  map N_of_ascii (list_ascii_of_string s).

(** The characters [str.strip()] removes: those for which
    [str.isspace] holds. *)
Definition isspace (c : N) : bool :=
  ((9 <=? c) && (c <=? 13)) || ((28 <=? c) && (c <=? 32)) ||
  (c =? 133) || (c =? 160) || (c =? 5760) ||
  ((8192 <=? c) && (c <=? 8202)) || (c =? 8232) || (c =? 8233) ||
  (c =? 8239) || (c =? 8287) || (c =? 12288).

Fixpoint lstrip (s : str) : str :=
  match s with
  | [] => []
  | c :: s' => if isspace c then lstrip s' else s
  end.

Definition rstrip (s : str) : str := rev (lstrip (rev s)).

(** [s.strip()] *)
Definition strip (s : str) : str := rstrip (lstrip s).

(** [s.split(sep)] for a separator of one character: every occurrence
    of the separator ends a piece, empty pieces are kept. *)
Fixpoint split (sep : N) (s : str) : list str :=
  match s with
  | [] => [[]]
  | c :: s' =>
      if c =? sep then [] :: split sep s'
      else match split sep s' with
           | piece :: pieces => (c :: piece) :: pieces
           | [] => [[c]]
           end
  end.

Fixpoint startswith (prefix s : str) : bool :=
  match prefix, s with
  | [], _ => true
  | _ :: _, [] => false
  | a :: prefix', b :: s' => (a =? b) && startswith prefix' s'
  end.

(** [needle in s] *)
Fixpoint contains (needle s : str) : bool :=
  startswith needle s ||
  match s with
  | [] => false
  | _ :: s' => contains needle s'
  end.

(** [f"SAT-{norad_id}"] *)
Definition fallback (norad_id : Z) : str :=
  of_string ("SAT-" ++ NilEmpty.string_of_int (Z.to_int norad_id)).

(** The function.  An [IndexError] of [lines[0]] or of [...[0]] would be
    caught by [except Exception] like a failed request, and the last
    [return] reached. *)
Definition get_satellite_name (response : option str) (norad_id : Z)
    : str :=
  match response with
  | None => fallback norad_id
  | Some raw_data =>
      if contains (of_string "404 Not Found") raw_data
      then fallback norad_id
      else
        let lines := split 10 raw_data in
        if (1 <=? List.length lines)%nat then
          match nth_error lines 0 with
          | None => fallback norad_id
          | Some line =>
              match nth_error (split 32 (strip line)) 0 with
              | None => fallback norad_id
              | Some word => word
              end
          end
        else fallback norad_id
  end.

End Celestrak.

(** The part of a text before the first occurrence of a character. *)
Fixpoint take_until (sep : N) (s : Celestrak.str) : Celestrak.str :=
  match s with
  | [] => []
  | c :: s' => if (c =? sep)%N then [] else c :: take_until sep s'
  end.

(** ** Orders on the lists of a report *)

(** Every earlier element of a list stands in [R] to every later one. *)
Definition in_order {A : Type} (R : A -> A -> Prop) (l : list A) : Prop :=
  forall i j a b, (i < j)%nat ->
    nth_error l i = Some a -> nth_error l j = Some b -> R a b.

(** The sum of the lengths of the passes of the second program, in
    microseconds. *)
Definition v2_visible_microseconds (l : list V2.Pass) : Z :=
  fold_right (fun p acc => (V2.end_ p - V2.start p) + acc) 0 l.

(** The events of a pass of the second program: not empty, all with the
    identifier of the pass, the first at its start and the last at its
    end. *)
Definition v2_events_ok (p : V2.Pass) : Prop :=
  exists e0 rest,
    V2.events p = e0 :: rest /\
    V2.timestamp e0 = V2.start p /\
    V2.timestamp (last rest e0) = V2.end_ p /\
    Forall (fun e => V2.entry_pass_id e = V2.pass_id p) (V2.events p).

(** The events of the pass that is open, if one is. *)
Definition v2_open_events (st : V2.State) : list V2.Entry :=
  match V2.current_pass st with
  | Some p => V2.events p
  | None => []
  end.

(** What the loop of the second program keeps true of the events. *)
Definition v2_events_inv (st : V2.State) : Prop :=
  V2.ephemeris_data st
  = List.concat (map V2.events (V2.passes_data st)) ++ v2_open_events st /\
  Forall v2_events_ok (V2.passes_data st) /\
  forall p, V2.current_pass st = Some p ->
            v2_events_ok p /\ V2.pass_id p = V2.pass_number st.

(** ** The segmenter with the elevations left out

    What is left of a run of the segmenter when the elevations are not
    looked at: the verdicts, the instants and the identifiers. *)

Definition forget_sample (x : Spec.Sample) : Spec.Sample :=
  {| Spec.timestamp := Spec.timestamp x;
     Spec.is_visible := Spec.is_visible x;
     Spec.elevation_deg := 0 |}.

Definition forget_open (o : Spec.OpenPass) : Spec.OpenPass :=
  {| Spec.open_id := Spec.open_id o;
     Spec.open_start := Spec.open_start o;
     Spec.open_end := Spec.open_end o;
     Spec.open_max := 0 |}.

Definition forget_pass (p : Spec.Pass) : Spec.Pass :=
  {| Spec.pass_id := Spec.pass_id p;
     Spec.start_time := Spec.start_time p;
     Spec.end_time := Spec.end_time p;
     Spec.max_elevation_deg := 0;
     Spec.duration_sec := Spec.duration_sec p |}.

Definition forget_segmenter (s : Spec.Segmenter) : Spec.Segmenter :=
  {| Spec.phase :=
       match Spec.phase s with
       | Spec.IDLE => Spec.IDLE
       | Spec.ACTIVE o => Spec.ACTIVE (forget_open o)
       end;
     Spec.counter := Spec.counter s;
     Spec.emitted := map forget_pass (Spec.emitted s);
     Spec.records :=
       map (fun r => (fst r, forget_sample (snd r))) (Spec.records s) |}.

(** * Properties *)

(** ** Rounding *)

Section Rounding.

Local Open Scope Q_scope.

Lemma round_half_even_cases (x : Q) :
  (Py.round_half_even x = Qfloor x /\ x - inject_Z (Qfloor x) <= 1 # 2) \/
  (Py.round_half_even x = (Qfloor x + 1)%Z /\
   1 # 2 <= x - inject_Z (Qfloor x)).
Proof.
  unfold Py.round_half_even.
  destruct (Qcompare_spec (x - inject_Z (Qfloor x)) (1 # 2)) as [E | L | G].
  - destruct (Z.even (Qfloor x)); [left | right]; split; trivial;
      rewrite E; apply Qle_refl.
  - left; split; trivial. apply Qlt_le_weak, L.
  - right; split; trivial. apply Qlt_le_weak, G.
Qed.

Lemma inject_Z_succ (z : Z) : inject_Z (z + 1) == inject_Z z + 1.
Proof. rewrite inject_Z_plus. reflexivity. Qed.

(** The rounded value is within a half of the exact one. *)
Lemma round_half_even_near (x : Q) :
  x - (1 # 2) <= inject_Z (Py.round_half_even x) <= x + (1 # 2).
Proof.
  pose proof (Qfloor_le x) as Hlo.
  pose proof (Qlt_floor x) as Hhi.
  rewrite inject_Z_succ in Hhi.
  destruct (round_half_even_cases x) as [[-> H] | [-> H]];
    rewrite ?inject_Z_succ; split; lra.
Qed.

Lemma round_half_even_mono (x y : Q) :
  x <= y -> (Py.round_half_even x <= Py.round_half_even y)%Z.
Proof.
  intros Hxy.
  pose proof (Qfloor_resp_le _ _ Hxy) as Hf.
  destruct (Z.eq_dec (Qfloor x) (Qfloor y)) as [E | N].
  - unfold Py.round_half_even. rewrite E.
    assert (Hr : x - inject_Z (Qfloor y) <= y - inject_Z (Qfloor y)) by lra.
    destruct (Qcompare_spec (x - inject_Z (Qfloor y)) (1 # 2)) as [Ex | Lx | Gx];
      destruct (Qcompare_spec (y - inject_Z (Qfloor y)) (1 # 2)) as [Ey | Ly | Gy];
      try (destruct (Z.even (Qfloor y))); try lia; exfalso; lra.
  - destruct (round_half_even_cases x) as [[-> _] | [-> _]];
      destruct (round_half_even_cases y) as [[-> _] | [-> _]]; lia.
Qed.

Lemma round_half_even_eq (x y : Q) :
  x == y -> Py.round_half_even x = Py.round_half_even y.
Proof.
  intros E. apply Z.le_antisymm; apply round_half_even_mono;
    rewrite E; apply Qle_refl.
Qed.

Lemma round_half_even_Z (k : Z) : Py.round_half_even (inject_Z k) = k.
Proof.
  unfold Py.round_half_even. rewrite Qfloor_Z.
  destruct (Qcompare_spec (inject_Z k - inject_Z k) (1 # 2)) as [E | L | G];
    trivial; exfalso; lra.
Qed.

Lemma pow10_pos (n : nat) : (0 < 10 ^ Z.of_nat n)%Z.
Proof. apply Z.pow_pos_nonneg; lia. Qed.

Lemma round_mono (x y : Q) (n : nat) :
  x <= y -> Py.round x n <= Py.round y n.
Proof.
  intros Hxy. unfold Py.round.
  assert (Hp := pow10_pos n).
  assert (H : x * inject_Z (10 ^ Z.of_nat n) <= y * inject_Z (10 ^ Z.of_nat n)).
  { apply Qmult_le_compat_r; trivial. unfold Qle; simpl; lia. }
  apply round_half_even_mono in H.
  unfold Qle; simpl. nia.
Qed.

(** Two roundings to the same precision that are equal as numbers are
    the same fraction. *)
Lemma round_eq_leibniz (x y : Q) (n : nat) :
  Py.round x n == Py.round y n -> Py.round x n = Py.round y n.
Proof.
  unfold Py.round, Qeq; simpl. intros H. f_equal.
  assert (Hp := pow10_pos n). nia.
Qed.

(** Rounding each of two numbers and keeping the greater is rounding
    the greater. *)
Lemma max_round (a b : Q) (n : nat) :
  Py.max (Py.round a n) (Py.round b n) = Py.round (Py.max a b) n.
Proof.
  unfold Py.max.
  destruct (Qle_bool b a) eqn:Hba.
  - apply Qle_bool_iff in Hba. apply (round_mono _ _ n) in Hba.
    apply Qle_bool_iff in Hba. rewrite Hba. reflexivity.
  - destruct (Qle_bool (Py.round b n) (Py.round a n)) eqn:Hr; trivial.
    apply Qle_bool_iff in Hr.
    assert (Hab : a <= b).
    { destruct (Qlt_le_dec b a) as [L | L]; trivial.
      apply Qlt_le_weak, Qle_bool_iff in L. congruence. }
    apply (round_mono _ _ n) in Hab.
    apply round_eq_leibniz. apply Qle_antisym; trivial.
Qed.

Lemma max_ge_l (a b : Q) : a <= Py.max a b.
Proof.
  unfold Py.max. destruct (Qle_bool b a) eqn:H; [apply Qle_refl |].
  destruct (Qlt_le_dec b a) as [L | L]; trivial.
  apply Qlt_le_weak, Qle_bool_iff in L. congruence.
Qed.

Lemma max_ge_r (a b : Q) : b <= Py.max a b.
Proof.
  unfold Py.max. destruct (Qle_bool b a) eqn:H; [| apply Qle_refl].
  apply Qle_bool_iff, H.
Qed.

(** A whole number of seconds is its own rounding to a tenth. *)
Lemma round_whole_seconds (k : Z) :
  Py.round (Py.total_seconds (seconds k)) 1 == Py.total_seconds (seconds k).
Proof.
  unfold Py.round, Py.total_seconds, seconds.
  change (10 ^ Z.of_nat 1)%Z with 10%Z.
  assert (E : (1000000 * k # 1000000) * inject_Z 10 == inject_Z (10 * k)).
  { unfold Qeq, Qmult, inject_Z. cbn [Qnum Qden]. lia. }
  rewrite (round_half_even_eq _ _ E), round_half_even_Z.
  unfold Qeq. cbn [Qnum Qden Z.to_pos]. lia.
Qed.

Lemma scale_near (x zq Pq u : Q) :
  0 < u -> Pq * u == 1 ->
  x * Pq - (1 # 2) <= zq <= x * Pq + (1 # 2) ->
  x - u < zq * u /\ zq * u < x + u.
Proof.
  intros Hu HP [H1 H2].
  assert (A : (x * Pq - (1 # 2)) * u <= zq * u)
    by (apply Qmult_le_compat_r; [exact H1 | apply Qlt_le_weak, Hu]).
  assert (B : zq * u <= (x * Pq + (1 # 2)) * u)
    by (apply Qmult_le_compat_r; [exact H2 | apply Qlt_le_weak, Hu]).
  assert (E1 : (x * Pq - (1 # 2)) * u == x * (Pq * u) - (1 # 2) * u) by ring.
  assert (E2 : (x * Pq + (1 # 2)) * u == x * (Pq * u) + (1 # 2) * u) by ring.
  rewrite E1, HP in A. rewrite E2, HP in B.
  split; lra.
Qed.

(** A rounded value is less than one unit of its last decimal away
    from the exact one. *)
Lemma round_near (x : Q) (n : nat) :
  let u := 1 # Z.to_pos (10 ^ Z.of_nat n) in
  x - u < Py.round x n /\ Py.round x n < x + u.
Proof.
  intros u. assert (Hp := pow10_pos n).
  set (P := (10 ^ Z.of_nat n)%Z) in *.
  set (z := Py.round_half_even (x * inject_Z P)).
  assert (Er : Py.round x n == inject_Z z * u).
  { unfold Py.round, u. fold P. fold z.
    unfold Qeq, Qmult, inject_Z. cbn [Qnum Qden]. lia. }
  assert (Eu : inject_Z P * u == 1).
  { unfold u, Qeq, Qmult, inject_Z. cbn [Qnum Qden].
    rewrite Pos.mul_1_l, Z2Pos.id by exact Hp. lia. }
  rewrite Er. apply (scale_near x (inject_Z z) (inject_Z P) u).
  - reflexivity.
  - exact Eu.
  - apply round_half_even_near.
Qed.

Lemma round2_near (x : Q) :
  x - (1 # 100) < Py.round x 2 /\ Py.round x 2 < x + (1 # 100).
Proof. exact (round_near x 2). Qed.

Lemma round3_near (x : Q) :
  x - (1 # 1000) < Py.round x 3 /\ Py.round x 3 < x + (1 # 1000).
Proof. exact (round_near x 3). Qed.

End Rounding.

(** The comparison with the threshold holds of numbers only. *)
Lemma at_or_above_iff (min_elevation : Q) (g : Geometry) :
  at_or_above min_elevation g = true <->
  is_nan g = false /\ (min_elevation <= alt_degrees g)%Q.
Proof.
  unfold at_or_above. rewrite andb_true_iff, negb_true_iff, Qle_bool_iff.
  reflexivity.
Qed.

Lemma at_or_above_le (min_elevation : Q) (g : Geometry) :
  at_or_above min_elevation g = true ->
  (min_elevation <= alt_degrees g)%Q.
Proof. intros H. apply at_or_above_iff in H. apply H. Qed.

Lemma at_or_above_number (min_elevation : Q) (g : Geometry) :
  is_nan g = false -> (min_elevation <= alt_degrees g)%Q ->
  at_or_above min_elevation g = true.
Proof. intros Hn Hle. apply at_or_above_iff. auto. Qed.

Lemma at_or_above_below (min_elevation : Q) (g : Geometry) :
  ~ (min_elevation <= alt_degrees g)%Q ->
  at_or_above min_elevation g = false.
Proof.
  intros H. destruct (at_or_above min_elevation g) eqn:E; trivial.
  apply at_or_above_le in E. contradiction.
Qed.

Lemma at_or_above_nan (min_elevation : Q) (g : Geometry) :
  is_nan g = true -> at_or_above min_elevation g = false.
Proof. unfold at_or_above. intros ->. reflexivity. Qed.

(** ** The loop *)

Section WhileFacts.

Context {St : Type}.
Variable body : St -> Time -> St.
Variable end_time_utc : Time.
Variable step_seconds : Z.

Local Abbreviation loop := (sweep body end_time_utc step_seconds).

Lemma sweep_past (fuel : nat) (st : St) (t : Time) :
  end_time_utc < t -> loop fuel st t = Some st.
Proof.
  intros H. destruct fuel; simpl;
    destruct (Z.leb_spec t end_time_utc); trivial; lia.
Qed.

Lemma sweep_turn (fuel : nat) (st : St) (t : Time) :
  t <= end_time_utc ->
  loop (S fuel) st t = loop fuel (body st t) (t + seconds step_seconds).
Proof.
  intros H. simpl. destruct (Z.leb_spec t end_time_utc); trivial; lia.
Qed.

(** More fuel does not change a result. *)
Lemma sweep_more_fuel (fuel : nat) :
  forall st t r, loop fuel st t = Some r ->
  forall fuel', (fuel <= fuel')%nat -> loop fuel' st t = Some r.
Proof.
  induction fuel as [| fuel IH]; intros st t r H fuel' Hle.
  - simpl in H. destruct (Z.leb_spec t end_time_utc); [discriminate |].
    rewrite sweep_past; trivial.
  - destruct (Z.leb_spec t end_time_utc) as [Hin | Hout].
    + rewrite sweep_turn in H by trivial.
      destruct fuel' as [| fuel']; [lia |].
      rewrite sweep_turn by trivial. apply (IH _ _ _ H). lia.
    + rewrite sweep_past in H |- * by trivial. exact H.
Qed.

Lemma sweep_deterministic (f1 f2 : nat) (st : St) (t : Time) (r1 r2 : St) :
  loop f1 st t = Some r1 -> loop f2 st t = Some r2 -> r1 = r2.
Proof.
  intros H1 H2.
  pose proof (sweep_more_fuel _ _ _ _ H1 (Nat.max f1 f2) ltac:(lia)) as H1'.
  pose proof (sweep_more_fuel _ _ _ _ H2 (Nat.max f1 f2) ltac:(lia)) as H2'.
  congruence.
Qed.

(** With a step that is not positive the loop never ends. *)
Lemma sweep_stuck (fuel : nat) :
  step_seconds <= 0 ->
  forall st t, t <= end_time_utc -> loop fuel st t = None.
Proof.
  intros Hstep. induction fuel as [| fuel IH]; intros st t Ht.
  - simpl. destruct (Z.leb_spec t end_time_utc); trivial; lia.
  - rewrite sweep_turn by trivial. apply IH. unfold seconds. lia.
Qed.

Lemma turns_past (t : Time) :
  end_time_utc < t -> turns t end_time_utc step_seconds = O.
Proof.
  intros H. unfold turns. destruct (Z.leb_spec t end_time_utc); trivial; lia.
Qed.

Lemma turns_next (t : Time) :
  0 < step_seconds -> t <= end_time_utc ->
  turns t end_time_utc step_seconds
  = S (turns (t + seconds step_seconds) end_time_utc step_seconds).
Proof.
  intros Hstep Ht. unfold turns.
  assert (Hs : 0 < seconds step_seconds) by (unfold seconds; lia).
  set (s := seconds step_seconds) in *.
  destruct (Z.leb_spec t end_time_utc); [| lia].
  pose proof (Z.div_mod (end_time_utc - t) s ltac:(lia)) as D.
  pose proof (Z.mod_pos_bound (end_time_utc - t) s Hs) as B.
  destruct (Z.leb_spec (t + s) end_time_utc) as [Hin | Hout].
  - pose proof (Z.div_mod (end_time_utc - (t + s)) s ltac:(lia)) as D'.
    pose proof (Z.mod_pos_bound (end_time_utc - (t + s)) s Hs) as B'.
    assert (E : (end_time_utc - t) / s = (end_time_utc - (t + s)) / s + 1)
      by nia.
    assert (0 <= (end_time_utc - (t + s)) / s) by (apply Z.div_pos; lia).
    rewrite E. lia.
  - rewrite Z.div_small by lia. reflexivity.
Qed.

(** With a positive step the loop takes [turns] turns and folds the
    body over the instants of the sweep. *)
Lemma sweep_unroll :
  0 < step_seconds ->
  forall n st t, turns t end_time_utc step_seconds = n ->
  forall fuel, (n <= fuel)%nat ->
  loop fuel st t = Some (fold_left body (instants t step_seconds n) st).
Proof.
  intros Hstep. induction n as [| n IH]; intros st t Hn fuel Hf.
  - destruct (Z.leb_spec t end_time_utc) as [Hin | Hout].
    + rewrite turns_next in Hn by trivial. discriminate.
    + rewrite sweep_past by trivial. reflexivity.
  - destruct (Z.leb_spec t end_time_utc) as [Hin | Hout].
    + rewrite turns_next in Hn by trivial. injection Hn as Hn.
      destruct fuel as [| fuel]; [lia |].
      rewrite sweep_turn by trivial. simpl. apply IH; trivial. lia.
    + rewrite turns_past in Hn by trivial. discriminate.
Qed.

(** Whatever the loop returns is the fold of the body over the
    instants of the sweep, and these are in increasing order. *)
Lemma sweep_result (fuel : nat) (st : St) (t : Time) (r : St) :
  loop fuel st t = Some r ->
  r = fold_left body (sweep_instants t end_time_utc step_seconds) st /\
  (t <= end_time_utc -> 0 < step_seconds).
Proof.
  intros H. unfold sweep_instants.
  destruct (Z.leb_spec t end_time_utc) as [Hin | Hout].
  - destruct (Z.ltb_spec 0 step_seconds) as [Hpos | Hneg].
    + split; trivial.
      pose proof (sweep_unroll Hpos _ st t eq_refl
                    (Nat.max fuel (turns t end_time_utc step_seconds))
                    ltac:(lia)) as U.
      pose proof (sweep_more_fuel _ _ _ _ H
                    (Nat.max fuel (turns t end_time_utc step_seconds))
                    ltac:(lia)) as H'.
      congruence.
    + rewrite sweep_stuck in H by trivial. discriminate.
  - rewrite sweep_past in H by trivial. rewrite turns_past by trivial.
    split; [simpl; congruence | lia].
Qed.

End WhileFacts.

Lemma increasing_from_weaken (ts : list Time) (b b' : Time) :
  b' <= b -> increasing_from b ts -> increasing_from b' ts.
Proof. destruct ts; simpl; trivial. intros ? [? ?]. split; trivial; lia. Qed.

Lemma instants_increasing (step_seconds : Z) (n : nat) :
  0 < step_seconds ->
  forall t, increasing_from t (instants t step_seconds n).
Proof.
  intros Hstep. induction n as [| n IH]; intros t; simpl; trivial.
  split; [lia |].
  apply (increasing_from_weaken _ (t + seconds step_seconds)); trivial.
  unfold seconds. lia.
Qed.

Lemma sweep_instants_increasing (t end_time_utc : Time) (step_seconds : Z) :
  (t <= end_time_utc -> 0 < step_seconds) ->
  increasing_from t (sweep_instants t end_time_utc step_seconds).
Proof.
  intros H. unfold sweep_instants.
  destruct (Z.leb_spec t end_time_utc) as [Hin | Hout].
  - apply instants_increasing; auto.
  - rewrite turns_past by trivial. exact I.
Qed.

(** The instants of a sweep are whole seconds apart from its start. *)
Lemma instants_on_grid (step_seconds : Z) (n : nat) :
  forall t t', In t' (instants t step_seconds n) ->
  exists k, t' = t + seconds k.
Proof.
  induction n as [| n IH]; intros t t' H; simpl in H; [contradiction |].
  destruct H as [<- | H].
  - exists 0. unfold seconds. lia.
  - apply IH in H as [k ->]. exists (step_seconds + k). unfold seconds. lia.
Qed.

(** A property kept by every turn is kept by the fold. *)
Lemma fold_left_invariant {St : Type} (body : St -> Time -> St)
    (P : St -> Prop) (ts : list Time) :
  (forall st t, In t ts -> P st -> P (body st t)) ->
  forall st, P st -> P (fold_left body ts st).
Proof.
  induction ts as [| t ts IH]; intros Hstep st Hst; simpl; trivial.
  apply IH.
  - intros st' t' Hin. apply Hstep. right; trivial.
  - apply Hstep; [left |]; trivial.
Qed.

(** ** The segmenter of the specification *)

Lemma ids_upto_S (n : nat) :
  ids_upto (S n) = ids_upto n ++ [Z.of_nat (S n)].
Proof. unfold ids_upto. rewrite seq_S, map_app. reflexivity. Qed.

Lemma ids_upto_In (n : nat) (x : Z) :
  In x (ids_upto n) -> 1 <= x <= Z.of_nat n.
Proof.
  unfold ids_upto. rewrite in_map_iff. intros [k [<- H]].
  apply in_seq in H. lia.
Qed.

Lemma ids_upto_NoDup (n : nat) : NoDup (ids_upto n).
Proof.
  unfold ids_upto. apply Injective_map_NoDup.
  - intros a b. apply Nat2Z.inj.
  - apply seq_NoDup.
Qed.

Lemma ids_upto_length (n : nat) : List.length (ids_upto n) = n.
Proof. unfold ids_upto. rewrite length_map, length_seq. reflexivity. Qed.

Lemma maximum_snoc (l : list Q) (e : Q) :
  maximum (l ++ [e])
  = Some (match maximum l with Some m => Py.max m e | None => e end).
Proof.
  destruct l as [| a l]; simpl; trivial.
  rewrite fold_left_app. reflexivity.
Qed.

Lemma elevations_of_snoc (id k : Z) (x : Spec.Sample)
    (rs : list (Z * Spec.Sample)) :
  elevations_of id (rs ++ [(k, x)])
  = elevations_of id rs ++ (if k =? id then [Spec.elevation_deg x] else []).
Proof.
  unfold elevations_of. rewrite filter_app, map_app. simpl.
  destruct (k =? id); reflexivity.
Qed.

Lemma elevations_of_other (id k : Z) (x : Spec.Sample)
    (rs : list (Z * Spec.Sample)) :
  k <> id -> elevations_of id (rs ++ [(k, x)]) = elevations_of id rs.
Proof.
  intros H. rewrite elevations_of_snoc.
  destruct (Z.eqb_spec k id); [contradiction | apply app_nil_r].
Qed.

Lemma elevations_of_none (id : Z) (rs : list (Z * Spec.Sample)) :
  Forall (fun r => fst r <> id) rs -> elevations_of id rs = [].
Proof.
  unfold elevations_of. induction 1 as [| r rs Hr _ IH]; simpl; trivial.
  destruct (Z.eqb_spec (fst r) id); [contradiction | exact IH].
Qed.

Lemma separated_snoc (l : list Spec.Pass) (q : Spec.Pass) :
  separated l ->
  Forall (fun p => Spec.end_time p < Spec.start_time q) l ->
  separated (l ++ [q]).
Proof.
  intros Hsep Hall i j p q' Hij Hi Hj.
  assert (Hjl : (j < List.length (l ++ [q]))%nat)
    by (apply nth_error_Some; congruence).
  rewrite length_app in Hjl; simpl in Hjl.
  rewrite nth_error_app1 in Hi by lia.
  destruct (Nat.eq_dec j (List.length l)) as [-> | Hne].
  - rewrite nth_error_app2, Nat.sub_diag in Hj by lia.
    injection Hj as <-.
    rewrite Forall_forall in Hall. apply Hall.
    eapply nth_error_In, Hi.
  - rewrite nth_error_app1 in Hj by lia. exact (Hsep i j p q' Hij Hi Hj).
Qed.

Lemma inv_start (b : Time) : Inv b Spec.start_state.
Proof.
  split; simpl; try constructor; try discriminate.
  - exists O. split; reflexivity.
  - intros i j p q _ H. destruct i; discriminate.
Qed.

(** Nothing changes when the bound moves on and no pass is open. *)
Lemma inv_idle (b b' : Time) (s : Spec.Segmenter) :
  Inv b s -> Spec.phase s = Spec.IDLE -> b <= b' -> Inv b' s.
Proof.
  intros [Hids Hsep Hem Hop Hrec Hme Hmo] Hph Hb.
  split; trivial.
  - rewrite Hph in *. simpl in *.
    eapply Forall_impl; [| exact Hem]. simpl. intros p [? ?]. lia.
  - intros o Ho. congruence.
Qed.

(** The closing action keeps the invariant. *)
Lemma inv_close (b b' : Time) (s : Spec.Segmenter) (o : Spec.OpenPass) :
  Inv b s -> Spec.phase s = Spec.ACTIVE o -> b <= b' ->
  Inv b' {| Spec.phase := Spec.IDLE; Spec.counter := Spec.counter s;
            Spec.emitted := Spec.emitted s ++ [Spec.close o];
            Spec.records := Spec.records s |}.
Proof.
  intros [Hids Hsep Hem Hop Hrec Hme Hmo] Hph Hb.
  specialize (Hop o Hph). specialize (Hmo o Hph).
  unfold all_ids in *. rewrite Hph in *. simpl in *.
  assert (Eids : map Spec.pass_id (Spec.emitted s ++ [Spec.close o]) ++ []
                 = map Spec.pass_id (Spec.emitted s) ++ [Spec.open_id o]).
  { rewrite map_app, app_nil_r. reflexivity. }
  split; simpl; unfold all_ids; simpl; try discriminate.
  - rewrite Eids. exact Hids.
  - apply separated_snoc; trivial.
    eapply Forall_impl; [| exact Hem]. simpl. intros p [? ?]. trivial.
  - apply Forall_app. split.
    + eapply Forall_impl; [| exact Hem]. simpl. intros p [? ?]. lia.
    + constructor; [simpl; lia | constructor].
  - rewrite Eids. exact Hrec.
  - apply Forall_app. split; trivial.
    constructor; [exact Hmo | constructor].
Qed.

Lemma inv_end_of_sweep (b : Time) (s : Spec.Segmenter) :
  Inv b s -> Inv b (Spec.end_of_sweep s).
Proof.
  intros H. unfold Spec.end_of_sweep.
  destruct (Spec.phase s) as [| o] eqn:Hph; trivial.
  apply (inv_close b); trivial. lia.
Qed.

Lemma end_of_sweep_idle (s : Spec.Segmenter) :
  Spec.phase (Spec.end_of_sweep s) = Spec.IDLE.
Proof.
  unfold Spec.end_of_sweep.
  destruct (Spec.phase s) eqn:H; simpl; trivial.
Qed.

(** A transition on a sample at [b] or later keeps the invariant. *)
Lemma inv_transition (b : Time) (s : Spec.Segmenter) (x : Spec.Sample) :
  Inv b s -> b <= Spec.timestamp x ->
  Inv (Spec.timestamp x + 1) (Spec.transition s x).
Proof.
  intros HI Hb. unfold Spec.transition.
  destruct (Spec.phase s) as [| o] eqn:Hph;
    destruct (Spec.is_visible x) eqn:Hvis.
  - (* IDLE, visible *)
    destruct HI as [[n [Hc Hids]] Hsep Hem Hop Hrec Hme Hmo].
    unfold all_ids in *. rewrite Hph in *. simpl in *.
    rewrite app_nil_r in *.
    assert (Hfresh : forall k, In k (map Spec.pass_id (Spec.emitted s)) ->
                               Spec.counter s + 1 <> k).
    { intros k Hk. rewrite Hids in Hk. apply ids_upto_In in Hk. lia. }
    split; simpl; unfold all_ids; simpl; trivial.
    + exists (S n). rewrite ids_upto_S, Hids. split; [lia |].
      do 2 f_equal. lia.
    + eapply Forall_impl; [| exact Hem]. simpl. intros p [? ?]. lia.
    + intros o [= <-]. simpl. lia.
    + apply Forall_app. split.
      * eapply Forall_impl; [| exact Hrec]. simpl. intros r Hr.
        apply in_or_app. left; trivial.
      * constructor; [| constructor]. simpl. apply in_or_app.
        right; left; trivial.
    + rewrite Forall_forall in Hme |- *. intros p Hp.
      rewrite elevations_of_other; [apply Hme; trivial |].
      apply Hfresh, in_map, Hp.
    + intros o [= <-]. simpl.
      rewrite elevations_of_snoc, Z.eqb_refl, elevations_of_none; trivial.
      eapply Forall_impl; [| exact Hrec]. simpl. intros r Hr E.
      apply (Hfresh (fst r)); congruence.
  - (* IDLE, not visible *)
    apply (inv_idle b); trivial. lia.
  - (* ACTIVE, visible *)
    destruct HI as [[n [Hc Hids]] Hsep Hem Hop Hrec Hme Hmo].
    specialize (Hop o Hph). specialize (Hmo o Hph).
    unfold all_ids in *. rewrite Hph in *. simpl in *.
    assert (Hold : forall k, In k (map Spec.pass_id (Spec.emitted s)) ->
                             Spec.open_id o <> k).
    { intros k Hk E. pose proof (ids_upto_NoDup n) as ND.
      rewrite <- Hids in ND. apply NoDup_remove_2 in ND.
      rewrite app_nil_r in ND. congruence. }
    split; simpl; unfold all_ids; simpl; trivial.
    + exists n. split; trivial.
    + intros o' [= <-]. simpl. lia.
    + apply Forall_app. split; trivial.
      constructor; [| constructor]. simpl. apply in_or_app.
      right; left; trivial.
    + rewrite Forall_forall in Hme |- *. intros p Hp.
      rewrite elevations_of_other; [apply Hme; trivial |].
      apply Hold, in_map, Hp.
    + intros o' [= <-]. simpl.
      rewrite elevations_of_snoc, Z.eqb_refl, maximum_snoc, Hmo.
      reflexivity.
  - (* ACTIVE, not visible *)
    apply (inv_close b); trivial. lia.
Qed.

Lemma inv_fold (xs : list Spec.Sample) :
  forall b s, Inv b s ->
  increasing_from b (map Spec.timestamp xs) ->
  exists b', Inv b' (fold_left Spec.transition xs s).
Proof.
  induction xs as [| x xs IH]; intros b s HI Hinc; simpl.
  - exists b; trivial.
  - destruct Hinc as [Hb Hinc].
    apply (IH (Spec.timestamp x + 1)); trivial.
    apply inv_transition with (b := b); trivial.
Qed.

Lemma sample_at_timestamp (geometry : Time -> option Geometry)
    (min_elevation : Q) (handed : Q -> Q) (t : Time) :
  Spec.timestamp (sample_at geometry min_elevation handed t) = t.
Proof. unfold sample_at. destruct (geometry t); reflexivity. Qed.

Lemma stream_increasing (geometry : Time -> option Geometry)
    (min_elevation : Q) (handed : Q -> Q) (ts : list Time) :
  forall b, increasing_from b ts ->
  increasing_from b
    (map Spec.timestamp (stream geometry min_elevation handed ts)).
Proof.
  induction ts as [| t ts IH]; intros b H; simpl; trivial.
  destruct H as [Hb H].
  destruct (geometry t) eqn:Hg; simpl.
  - rewrite sample_at_timestamp. split; trivial. apply IH, H.
  - apply IH. apply (increasing_from_weaken _ (t + 1)); trivial. lia.
Qed.

(** The segmenter run over the samples of increasing instants ends in a
    state that satisfies the invariant, with no pass open. *)
Lemma inv_segment (geometry : Time -> option Geometry) (min_elevation : Q)
    (handed : Q -> Q) (ts : list Time) (b : Time) :
  increasing_from b ts ->
  exists b', Inv b' (Spec.segment (stream geometry min_elevation handed ts)).
Proof.
  intros H. unfold Spec.segment.
  destruct (inv_fold (stream geometry min_elevation handed ts) b
              Spec.start_state (inv_start b)) as [b' HI].
  - apply stream_increasing, H.
  - exists b'. apply inv_end_of_sweep, HI.
Qed.

(** ** The first program is the segmenter *)

Local Arguments sample_at : simpl never.

Section V1Simulation.

Variable w : World.
Variable satellite : Satellite w.
Variables observer_lat observer_lon observer_elev min_elevation : Q.

Local Abbreviation geom :=
  (V1.geometry w satellite observer_lat observer_lon observer_elev).
Local Abbreviation body :=
  (V1.body w satellite observer_lat observer_lon observer_elev min_elevation).
Local Abbreviation abs := (abs_v1 geom min_elevation).
Local Abbreviation samples := (stream geom min_elevation (fun x => x)).

Lemma v1_body_sim (st : V1.State) (t : Time) :
  v1_tagged st ->
  abs (body st t) = fold_left Spec.transition (samples [t]) (abs st) /\
  v1_tagged (body st t).
Proof.
  intros Htag. unfold V1.body. cbn [stream].
  destruct (geom t) as [g |] eqn:Hg; cbn [fold_left]; [| auto].
  assert (Es : sample_at geom min_elevation (fun x => x) t
               = {| Spec.timestamp := t;
                    Spec.is_visible :=
                      at_or_above min_elevation g;
                    Spec.elevation_deg := alt_degrees g |})
    by (unfold sample_at; rewrite Hg; reflexivity).
  unfold V1.classify, Spec.transition, abs_v1, v1_tagged in *.
  rewrite Es. cbn [Spec.is_visible Spec.phase].
  destruct (at_or_above min_elevation g) eqn:Hvis;
    destruct (V1.current_pass st) as [p |] eqn:Hcur; simpl;
    rewrite ?map_app; simpl; rewrite ?Es, ?Hvis.
  - rewrite (Htag p eq_refl). split; trivial.
    intros q [= <-]. simpl. rewrite ?(Htag p eq_refl). reflexivity.
  - split; trivial. intros q [= <-]. reflexivity.
  - split; trivial. discriminate.
  - rewrite Hcur. split; trivial.
Qed.

Lemma samples_cons (t : Time) (ts : list Time) :
  samples (t :: ts) = samples [t] ++ samples ts.
Proof. simpl. destruct (geom t); reflexivity. Qed.

Lemma v1_fold_sim (ts : list Time) :
  forall st, v1_tagged st ->
  abs (fold_left body ts st)
  = fold_left Spec.transition (samples ts) (abs st) /\
  v1_tagged (fold_left body ts st).
Proof.
  induction ts as [| t ts IH]; intros st Htag; [simpl; auto |].
  destruct (v1_body_sim st t Htag) as [E Htag'].
  rewrite samples_cons, fold_left_app, <- E.
  apply IH, Htag'.
Qed.

Lemma v1_finish_sim (st : V1.State) :
  let s := Spec.end_of_sweep (abs st) in
  let st' := V1.finish st in
  map spec_of_v1 (V1.passes_data st') = Spec.emitted s /\
  V1.pass_counter st' = Spec.counter s /\
  Spec.records (abs st') = Spec.records s.
Proof.
  unfold V1.finish, Spec.end_of_sweep, abs_v1; simpl.
  destruct (V1.current_pass st); simpl; auto.
  rewrite map_app. auto.
Qed.

End V1Simulation.

Section V1Run.

Variable w : World.
Variable satellite : Satellite w.
Variables observer_lat observer_lon : Q.
Variables start_time_utc end_time_utc : Time.
Variable step_seconds : Z.
Variables observer_elev min_elevation : Q.

Local Abbreviation geom :=
  (V1.geometry w satellite observer_lat observer_lon observer_elev).
Local Abbreviation body :=
  (V1.body w satellite observer_lat observer_lon observer_elev min_elevation).
Local Abbreviation run :=
  (V1.run w satellite observer_lat observer_lon start_time_utc end_time_utc
          step_seconds observer_elev min_elevation).
Local Abbreviation outputs :=
  (V1.outputs w satellite observer_lat observer_lon start_time_utc
              end_time_utc step_seconds observer_elev min_elevation).
Local Abbreviation the_instants :=
  (sweep_instants start_time_utc end_time_utc step_seconds).
Local Abbreviation the_stream :=
  (stream geom min_elevation (fun x => x) the_instants).

Lemma v1_run_inversion (fuel : nat) (out : V1.Output) :
  run fuel = Returns out ->
  (start_time_utc <= end_time_utc -> 0 < step_seconds) /\
  out = outputs (V1.finish (fold_left body the_instants V1.initial)).
Proof.
  unfold V1.run. intros H.
  destruct (sweep _ _ _ fuel V1.initial start_time_utc) as [st |] eqn:Hs;
    [| discriminate].
  apply sweep_result in Hs as [-> Hstep]. injection H as <-. auto.
Qed.

(** With a positive step the program returns. *)
Lemma v1_run_total (fuel : nat) :
  0 < step_seconds ->
  (turns start_time_utc end_time_utc step_seconds <= fuel)%nat ->
  run fuel = Returns (outputs (V1.finish (fold_left body the_instants
                                                    V1.initial))).
Proof.
  intros Hstep Hfuel. unfold V1.run.
  rewrite (sweep_unroll _ _ _ Hstep _ V1.initial _ eq_refl fuel Hfuel).
  reflexivity.
Qed.

Lemma v1_initial_tagged : v1_tagged V1.initial.
Proof. intros p. discriminate. Qed.

(** What the first program writes is what the segmenter produces from
    the samples of the sweep. *)
Lemma v1_run_spec (fuel : nat) (out : V1.Output) :
  run fuel = Returns out ->
  map spec_of_v1 (V1.passes (V1.passes_output out))
  = Spec.emitted (Spec.segment the_stream) /\
  V1.total_passes (V1.passes_output out)
  = Spec.counter (Spec.segment the_stream) /\
  map (fun e => (V1.entry_pass_id e,
                 sample_at geom min_elevation (fun x => x) (V1.timestamp e)))
      (V1.ephemeris (V1.ephemeris_output out))
  = Spec.records (Spec.segment the_stream).
Proof.
  intros H. apply v1_run_inversion in H as [_ ->].
  destruct (v1_fold_sim w satellite observer_lat observer_lon observer_elev
              min_elevation the_instants V1.initial v1_initial_tagged)
    as [E _].
  pose proof (v1_finish_sim w satellite observer_lat observer_lon
                observer_elev min_elevation
                (fold_left body the_instants V1.initial)) as F.
  cbv zeta in F. rewrite E in F. exact F.
Qed.

(** Every record of the ephemeris is made once, from the geometry of
    an instant whose elevation reached the threshold. *)
Lemma v1_run_entries (fuel : nat) (out : V1.Output) :
  run fuel = Returns out ->
  Forall (fun e => exists g,
            geom (V1.timestamp e) = Some g /\
            at_or_above min_elevation g = true /\
            e = V1.ephemeris_entry (V1.entry_pass_id e) (V1.timestamp e) g)
         (V1.ephemeris (V1.ephemeris_output out)).
Proof.
  intros H. apply v1_run_inversion in H as [_ ->].
  set (P := fun st : V1.State =>
    Forall (fun e => exists g,
              geom (V1.timestamp e) = Some g /\
              at_or_above min_elevation g = true /\
              e = V1.ephemeris_entry (V1.entry_pass_id e) (V1.timestamp e) g)
           (V1.ephemeris_data st)).
  assert (HP : P (fold_left body the_instants V1.initial)).
  { apply fold_left_invariant; [| constructor].
    intros st t _ Hst. unfold P, V1.body in *.
    destruct (geom t) as [g |] eqn:Hg; trivial.
    unfold V1.classify.
    destruct (at_or_above min_elevation g) eqn:Hvis.
    - destruct (V1.current_pass st); simpl;
        (apply Forall_app; split; trivial;
         constructor; [| constructor]; exists g; simpl; auto).
    - destruct (V1.current_pass st); trivial. }
  unfold P in HP. simpl.
  unfold V1.finish. destruct (V1.current_pass _); exact HP.
Qed.

End V1Run.

(** ** The second program is the segmenter, fed rounded elevations *)

Section V2Simulation.

Variable w : World.
Variable sat : Satellite w.
Variables observer_lat observer_lon observer_elev min_elevation : Q.

Local Abbreviation geom :=
  (V2.geometry w sat observer_lat observer_lon observer_elev).
Local Abbreviation body :=
  (V2.body w sat observer_lat observer_lon observer_elev min_elevation).
Local Abbreviation abs := (abs_v2 geom min_elevation).
Local Abbreviation samples := (stream geom min_elevation round2).

Lemma v2_body_sim (st : V2.State) (t : Time) :
  v2_tagged st ->
  abs (body st t) = fold_left Spec.transition (samples [t]) (abs st) /\
  v2_tagged (body st t).
Proof.
  intros Htag. unfold V2.body. cbn [stream].
  destruct (geom t) as [g |] eqn:Hg; cbn [fold_left]; [| auto].
  assert (Es : sample_at geom min_elevation round2 t
               = {| Spec.timestamp := t;
                    Spec.is_visible :=
                      at_or_above min_elevation g;
                    Spec.elevation_deg := round2 (alt_degrees g) |})
    by (unfold sample_at; rewrite Hg; reflexivity).
  unfold V2.classify, Spec.transition, abs_v2, v2_tagged in *.
  rewrite Es. cbn [Spec.is_visible Spec.phase].
  destruct (at_or_above min_elevation g) eqn:Hvis;
    destruct (V2.current_pass st) as [p |] eqn:Hcur; simpl;
    rewrite ?map_app; simpl; rewrite ?Es, ?Hvis.
  - rewrite (Htag p eq_refl). split; trivial.
    intros q [= <-]. simpl. rewrite ?(Htag p eq_refl). reflexivity.
  - split; trivial. intros q [= <-]. reflexivity.
  - split; trivial. discriminate.
  - rewrite Hcur. split; trivial.
Qed.

Lemma v2_samples_cons (t : Time) (ts : list Time) :
  samples (t :: ts) = samples [t] ++ samples ts.
Proof. simpl. destruct (geom t); reflexivity. Qed.

Lemma v2_fold_sim (ts : list Time) :
  forall st, v2_tagged st ->
  abs (fold_left body ts st)
  = fold_left Spec.transition (samples ts) (abs st) /\
  v2_tagged (fold_left body ts st).
Proof.
  induction ts as [| t ts IH]; intros st Htag; [simpl; auto |].
  destruct (v2_body_sim st t Htag) as [E Htag'].
  rewrite v2_samples_cons, fold_left_app, <- E.
  apply IH, Htag'.
Qed.

Lemma v2_finish_sim (st : V2.State) :
  let s := Spec.end_of_sweep (abs st) in
  let st' := V2.finish st in
  map spec_of_v2 (V2.passes_data st') = Spec.emitted s /\
  V2.pass_number st' = Spec.counter s /\
  Spec.records (abs st') = Spec.records s.
Proof.
  unfold V2.finish, Spec.end_of_sweep, abs_v2; simpl.
  destruct (V2.current_pass st); simpl; auto.
  rewrite map_app. auto.
Qed.

(** The passes stay on the grid of whole seconds. *)
Lemma v2_body_timed (t0 : Time) (st : V2.State) (t : Time) :
  (exists k, t = t0 + seconds k) ->
  v2_timed t0 st -> v2_timed t0 (body st t).
Proof.
  intros [k ->] [Hclosed Hopen]. unfold V2.body.
  destruct (geom (t0 + seconds k)) as [g |]; [| split; trivial].
  unfold V2.classify.
  destruct (at_or_above min_elevation g);
    destruct (V2.current_pass st) as [p |] eqn:Hcur.
  - split; simpl; trivial. intros q [= <-]. simpl.
    destruct (Hopen p eq_refl) as [k1 [k2 [E1 E2]]]. eauto.
  - split; simpl; trivial. intros q [= <-]. simpl. eauto.
  - split; simpl; [| discriminate].
    apply Forall_app. split; trivial.
    constructor; [| constructor]. simpl. split; trivial.
    destruct (Hopen p eq_refl) as [k1 [k2 [E1 E2]]].
    exists (k2 - k1). rewrite E1, E2. unfold seconds. lia.
  - split; trivial. rewrite Hcur. discriminate.
Qed.

Lemma v2_finish_timed (t0 : Time) (st : V2.State) :
  v2_timed t0 st ->
  Forall (fun p =>
            V2.duration_sec p
            = Some (Py.round (Py.total_seconds (V2.end_ p - V2.start p)) 1)
            /\ exists k, V2.end_ p - V2.start p = seconds k)
         (V2.passes_data (V2.finish st)).
Proof.
  intros [Hclosed Hopen]. unfold V2.finish.
  destruct (V2.current_pass st) as [p |] eqn:Hcur; trivial.
  simpl. apply Forall_app. split; trivial.
  constructor; [| constructor]. simpl. split; trivial.
  destruct (Hopen p eq_refl) as [k1 [k2 [E1 E2]]].
  exists (k2 - k1). rewrite E1, E2. unfold seconds. lia.
Qed.

End V2Simulation.

Lemma sum_durations_some (l : list V2.Pass) :
  Forall (fun p => exists d, V2.duration_sec p = Some d) l ->
  forall acc, exists total, V2.sum_durations acc l = Some total.
Proof.
  induction 1 as [| p l [d Hd] _ IH]; intros acc; simpl; eauto.
  rewrite Hd. apply IH.
Qed.

Section V2Run.

Variable w : World.
Variable sat : Satellite w.
Variable norad_id : Z.
Variables observer_lat observer_lon : Q.
Variables start_time_utc end_time_utc : Time.
Variable step_seconds : Z.
Variables observer_elev min_elevation : Q.

Local Abbreviation geom :=
  (V2.geometry w sat observer_lat observer_lon observer_elev).
Local Abbreviation body :=
  (V2.body w sat observer_lat observer_lon observer_elev min_elevation).
Local Abbreviation run :=
  (V2.run w sat norad_id observer_lat observer_lon start_time_utc
          end_time_utc step_seconds observer_elev min_elevation).
Local Abbreviation outputs :=
  (V2.outputs w sat norad_id observer_lat observer_lon start_time_utc
              end_time_utc step_seconds observer_elev min_elevation).
Local Abbreviation the_instants :=
  (sweep_instants start_time_utc end_time_utc step_seconds).
Local Abbreviation the_stream := (stream geom min_elevation round2 the_instants).
Local Abbreviation final :=
  (V2.finish (fold_left body the_instants V2.initial)).

Lemma v2_final_timed :
  Forall (fun p =>
            V2.duration_sec p
            = Some (Py.round (Py.total_seconds (V2.end_ p - V2.start p)) 1)
            /\ exists k, V2.end_ p - V2.start p = seconds k)
         (V2.passes_data final).
Proof.
  apply (v2_finish_timed start_time_utc).
  apply fold_left_invariant.
  - intros st t Hin. apply v2_body_timed.
    apply instants_on_grid in Hin as [k ->]. exists k; trivial.
  - split; [constructor | discriminate].
Qed.

(** The sum of the durations never fails on the final pass list. *)
Lemma v2_outputs_return : exists out, outputs final = Returns out.
Proof.
  unfold V2.outputs.
  destruct (sum_durations_some (V2.passes_data final)) with (acc := 0%Q)
    as [total E].
  - eapply Forall_impl; [| exact v2_final_timed].
    simpl. intros p [Hd _]. eauto.
  - rewrite E. eauto.
Qed.

Lemma v2_run_inversion (fuel : nat) (out : V2.Output) :
  run fuel = Returns out ->
  (start_time_utc <= end_time_utc -> 0 < step_seconds) /\
  outputs final = Returns out.
Proof.
  unfold V2.run. intros H.
  destruct (sweep _ _ _ fuel V2.initial start_time_utc) as [st |] eqn:Hs;
    [| discriminate].
  apply sweep_result in Hs as [-> Hstep]. auto.
Qed.

Lemma v2_outputs_fields (st : V2.State) (out : V2.Output) :
  outputs st = Returns out ->
  V2.passes (V2.passes_output out) = V2.passes_data st /\
  V2.total_passes (V2.statistics (V2.passes_output out))
  = V2.pass_number st /\
  V2.ephemeris (V2.ephemeris_output out) = V2.ephemeris_data st.
Proof.
  unfold V2.outputs. destruct (V2.sum_durations 0 (V2.passes_data st));
    [| discriminate].
  intros [= <-]. simpl. auto.
Qed.

(** With a positive step the program returns. *)
Lemma v2_run_total (fuel : nat) :
  0 < step_seconds ->
  (turns start_time_utc end_time_utc step_seconds <= fuel)%nat ->
  run fuel = outputs final.
Proof.
  intros Hstep Hfuel. unfold V2.run.
  rewrite (sweep_unroll _ _ _ Hstep _ V2.initial _ eq_refl fuel Hfuel).
  reflexivity.
Qed.

Lemma v2_initial_tagged : v2_tagged V2.initial.
Proof. intros p. discriminate. Qed.

Lemma v2_run_spec (fuel : nat) (out : V2.Output) :
  run fuel = Returns out ->
  map spec_of_v2 (V2.passes (V2.passes_output out))
  = Spec.emitted (Spec.segment the_stream) /\
  V2.total_passes (V2.statistics (V2.passes_output out))
  = Spec.counter (Spec.segment the_stream) /\
  map (fun e => (V2.entry_pass_id e,
                 sample_at geom min_elevation round2 (V2.timestamp e)))
      (V2.ephemeris (V2.ephemeris_output out))
  = Spec.records (Spec.segment the_stream).
Proof.
  intros H. apply v2_run_inversion in H as [_ H].
  apply v2_outputs_fields in H as [-> [-> ->]].
  destruct (v2_fold_sim w sat observer_lat observer_lon observer_elev
              min_elevation the_instants V2.initial v2_initial_tagged)
    as [E _].
  pose proof (v2_finish_sim w sat observer_lat observer_lon
                observer_elev min_elevation
                (fold_left body the_instants V2.initial)) as F.
  cbv zeta in F. rewrite E in F. exact F.
Qed.

(** The durations written are the rounded differences, and the
    rounding changes nothing. *)
Lemma v2_run_durations (fuel : nat) (out : V2.Output) :
  run fuel = Returns out ->
  Forall (fun p =>
            V2.duration_sec p
            = Some (Py.round (Py.total_seconds (V2.end_ p - V2.start p)) 1)
            /\ (Py.round (Py.total_seconds (V2.end_ p - V2.start p)) 1
                == Py.total_seconds (V2.end_ p - V2.start p))%Q)
         (V2.passes (V2.passes_output out)).
Proof.
  intros H. apply v2_run_inversion in H as [_ H].
  apply v2_outputs_fields in H as [-> _].
  eapply Forall_impl; [| exact v2_final_timed].
  simpl. intros p [Hd [k Hk]]. split; trivial.
  rewrite Hk. apply round_whole_seconds.
Qed.

Lemma v2_run_entries (fuel : nat) (out : V2.Output) :
  run fuel = Returns out ->
  Forall (fun e => exists g,
            geom (V2.timestamp e) = Some g /\
            at_or_above min_elevation g = true /\
            e = V2.ephemeris_entry (V2.entry_pass_id e) (V2.timestamp e) g)
         (V2.ephemeris (V2.ephemeris_output out)).
Proof.
  intros H. apply v2_run_inversion in H as [_ H].
  apply v2_outputs_fields in H as [_ [_ ->]].
  set (P := fun st : V2.State =>
    Forall (fun e => exists g,
              geom (V2.timestamp e) = Some g /\
              at_or_above min_elevation g = true /\
              e = V2.ephemeris_entry (V2.entry_pass_id e) (V2.timestamp e) g)
           (V2.ephemeris_data st)).
  assert (HP : P (fold_left body the_instants V2.initial)).
  { apply fold_left_invariant; [| constructor].
    intros st t _ Hst. unfold P, V2.body in *.
    destruct (geom t) as [g |] eqn:Hg; trivial.
    unfold V2.classify.
    destruct (at_or_above min_elevation g) eqn:Hvis.
    - destruct (V2.current_pass st); simpl;
        (apply Forall_app; split; trivial;
         constructor; [| constructor]; exists g; simpl; auto).
    - destruct (V2.current_pass st); trivial. }
  unfold P in HP.
  unfold V2.finish. destruct (V2.current_pass _); exact HP.
Qed.

End V2Run.

(** ** What the invariant gives at the end of a sweep *)

Lemma filter_count_one {A : Type} (f : A -> Z) (l : list A) (x : Z) :
  NoDup (map f l) -> In x (map f l) ->
  List.length (filter (fun p => f p =? x) l) = 1%nat.
Proof.
  induction l as [| a l IH]; simpl; intros ND Hin; [contradiction |].
  inversion ND as [| ? ? Hnotin ND']; subst.
  destruct (Z.eqb_spec (f a) x) as [E | N].
  - simpl. f_equal.
    assert (Hnone : forall l', ~ In x (map f l') ->
              filter (fun p => f p =? x) l' = []).
    { induction l' as [| b l' IHl]; simpl; trivial. intros Hb.
      destruct (Z.eqb_spec (f b) x); [exfalso; auto |]. apply IHl. auto. }
    rewrite Hnone; trivial. congruence.
  - destruct Hin as [E | Hin]; [contradiction |]. apply IH; trivial.
Qed.

Section AtTheEnd.

Variable b : Time.
Variable s : Spec.Segmenter.
Hypothesis HI : Inv b s.
Hypothesis Hidle : Spec.phase s = Spec.IDLE.

Lemma end_ids :
  map Spec.pass_id (Spec.emitted s)
  = ids_upto (List.length (Spec.emitted s)) /\
  Spec.counter s = Z.of_nat (List.length (Spec.emitted s)).
Proof.
  destruct (inv_ids _ _ HI) as [n [Hc Hids]].
  unfold all_ids in Hids. rewrite Hidle, app_nil_r in Hids.
  assert (Hn : List.length (Spec.emitted s) = n).
  { rewrite <- (length_map Spec.pass_id), Hids. apply ids_upto_length. }
  rewrite Hn. auto.
Qed.

Lemma end_non_overlapping :
  non_overlapping Spec.start_time Spec.end_time (Spec.emitted s).
Proof.
  pose proof (inv_separated _ _ HI) as Hsep.
  pose proof (inv_emitted _ _ HI) as Hem. rewrite Forall_forall in Hem.
  repeat split.
  - intros i j p q Hij Hi Hj.
    pose proof (Hsep i j p q Hij Hi Hj).
    apply nth_error_In in Hi. apply Hem in Hi. lia.
  - intros i p q Hi Hj. apply (Hsep i (S i) p q); trivial. lia.
  - intros p Hp. apply Hem in Hp. lia.
Qed.

Lemma end_closure (r : Z * Spec.Sample) :
  In r (Spec.records s) ->
  List.length (filter (fun p => Spec.pass_id p =? fst r) (Spec.emitted s))
  = 1%nat.
Proof.
  intros Hr.
  pose proof (inv_records _ _ HI) as Hrec. rewrite Forall_forall in Hrec.
  apply Hrec in Hr. unfold all_ids in Hr. rewrite Hidle, app_nil_r in Hr.
  apply filter_count_one; trivial.
  rewrite (proj1 end_ids). apply ids_upto_NoDup.
Qed.

Lemma end_maximum (p : Spec.Pass) :
  In p (Spec.emitted s) ->
  maximum (elevations_of (Spec.pass_id p) (Spec.records s))
  = Some (Spec.max_elevation_deg p).
Proof.
  pose proof (inv_max_emitted _ _ HI) as H. rewrite Forall_forall in H.
  apply H.
Qed.

End AtTheEnd.

(** The lower bound of the elevations handed to the segmenter is a
    lower bound of every maximum. *)
Lemma bounded_below_transition (L : Q) (s : Spec.Segmenter)
    (x : Spec.Sample) :
  (Spec.is_visible x = true -> (L <= Spec.elevation_deg x)%Q) ->
  bounded_below L s -> bounded_below L (Spec.transition s x).
Proof.
  intros Hx [Hem Hop]. unfold Spec.transition.
  destruct (Spec.phase s) as [| o] eqn:Hph;
    destruct (Spec.is_visible x) eqn:Hvis; split; simpl; trivial;
    try discriminate.
  - intros o [= <-]. simpl. auto.
  - rewrite Hph. discriminate.
  - intros o' [= <-]. simpl.
    apply Qle_trans with (Spec.open_max o); [auto | apply max_ge_l].
  - apply Forall_app. split; trivial. constructor; [| constructor].
    simpl. auto.
Qed.

Lemma bounded_below_segment (L : Q) (xs : list Spec.Sample) :
  Forall (fun x => Spec.is_visible x = true ->
                   (L <= Spec.elevation_deg x)%Q) xs ->
  bounded_below L (Spec.segment xs).
Proof.
  intros Hxs. unfold Spec.segment.
  assert (H : forall s, bounded_below L s ->
                        bounded_below L (fold_left Spec.transition xs s)).
  { induction Hxs as [| x xs Hx _ IH]; intros s Hs; simpl; trivial.
    apply IH, bounded_below_transition; trivial. }
  specialize (H Spec.start_state).
  destruct H as [Hem Hop]; [split; [constructor | discriminate] |].
  unfold Spec.end_of_sweep.
  destruct (Spec.phase _) as [| o] eqn:Hph; split; simpl; trivial;
    try discriminate.
  - rewrite Hph. discriminate.
  - apply Forall_app. split; trivial. constructor; [| constructor].
    simpl. auto.
Qed.

Lemma stream_bounded (geometry : Time -> option Geometry)
    (min_elevation : Q) (handed : Q -> Q) (L : Q) (ts : list Time) :
  (forall e, (min_elevation <= e)%Q -> (L <= handed e)%Q) ->
  Forall (fun x => Spec.is_visible x = true ->
                   (L <= Spec.elevation_deg x)%Q)
         (stream geometry min_elevation handed ts).
Proof.
  intros Hh. induction ts as [| t ts IH]; simpl; [constructor |].
  destruct (geometry t) as [g |] eqn:Hg; trivial.
  constructor; trivial.
  unfold sample_at. rewrite Hg. simpl. intros Hvis.
  apply Hh, at_or_above_le, Hvis.
Qed.

Lemma last_cons {A : Type} (l : list A) :
  forall a d, last (a :: l) d = last l a.
Proof.
  induction l as [| b l IH]; intros a d; [reflexivity |].
  change (last (a :: b :: l) d) with (last (b :: l) d).
  rewrite (IH b d), (IH b a). reflexivity.
Qed.

(** A stream of visible samples is one pass, from its first sample to
    its last. *)
Lemma fold_visible (xs : list Spec.Sample) :
  Forall (fun x => Spec.is_visible x = true) xs ->
  forall s o, Spec.phase s = Spec.ACTIVE o ->
  exists o',
    Spec.phase (fold_left Spec.transition xs s) = Spec.ACTIVE o' /\
    Spec.open_id o' = Spec.open_id o /\
    Spec.open_start o' = Spec.open_start o /\
    Spec.open_end o' = last (map Spec.timestamp xs) (Spec.open_end o) /\
    Spec.emitted (fold_left Spec.transition xs s) = Spec.emitted s /\
    Spec.counter (fold_left Spec.transition xs s) = Spec.counter s.
Proof.
  induction 1 as [| x xs Hx _ IH]; intros s o Hph.
  - exists o. simpl. repeat split; trivial.
  - cbn [fold_left].
    assert (Ht : Spec.transition s x
                 = {| Spec.phase :=
                        Spec.ACTIVE
                          {| Spec.open_id := Spec.open_id o;
                             Spec.open_start := Spec.open_start o;
                             Spec.open_end := Spec.timestamp x;
                             Spec.open_max :=
                               Py.max (Spec.open_max o)
                                      (Spec.elevation_deg x) |};
                      Spec.counter := Spec.counter s;
                      Spec.emitted := Spec.emitted s;
                      Spec.records :=
                        Spec.records s ++ [(Spec.open_id o, x)] |})
      by (unfold Spec.transition; rewrite Hph, Hx; reflexivity).
    destruct (IH (Spec.transition s x) _ ltac:(rewrite Ht; reflexivity))
      as [o' [H1 [H2 [H3 [H4 [H5 H6]]]]]].
    exists o'. rewrite H1, H2, H3, H4, H5, H6, Ht.
    cbn [Spec.open_id Spec.open_start Spec.open_end Spec.emitted
         Spec.counter map].
    rewrite last_cons. repeat split; trivial.
Qed.

Lemma segment_visible (x : Spec.Sample) (xs : list Spec.Sample) :
  Forall (fun x => Spec.is_visible x = true) (x :: xs) ->
  exists q,
    Spec.emitted (Spec.segment (x :: xs)) = [q] /\
    Spec.counter (Spec.segment (x :: xs)) = 1 /\
    Spec.pass_id q = 1 /\
    Spec.start_time q = Spec.timestamp x /\
    Spec.end_time q = last (map Spec.timestamp xs) (Spec.timestamp x).
Proof.
  intros H. inversion H as [| ? ? Hx Hxs]; subst.
  unfold Spec.segment. cbn [fold_left].
  destruct (fold_visible xs Hxs (Spec.transition Spec.start_state x)
              {| Spec.open_id := 1; Spec.open_start := Spec.timestamp x;
                 Spec.open_end := Spec.timestamp x;
                 Spec.open_max := Spec.elevation_deg x |})
    as [o' [H1 [H2 [H3 [H4 [H5 H6]]]]]].
  { unfold Spec.transition. simpl. rewrite Hx. reflexivity. }
  unfold Spec.end_of_sweep. rewrite H1. simpl. rewrite H5, H6.
  unfold Spec.transition. simpl. rewrite Hx. simpl.
  exists (Spec.close o'). simpl. repeat split; trivial.
Qed.

(** ** The samples of a sweep *)

Section StreamFacts.

Variable geometry : Time -> option Geometry.
Variable min_elevation : Q.
Variable handed : Q -> Q.

Lemma stream_timestamps (ts : list Time) :
  map Spec.timestamp (stream geometry min_elevation handed ts)
  = filter (computed_at geometry) ts.
Proof.
  induction ts as [| t ts IH]; simpl; trivial.
  unfold computed_at at 1.
  destruct (geometry t) eqn:Hg; simpl; trivial.
  rewrite sample_at_timestamp, IH. reflexivity.
Qed.

Lemma stream_all_visible (ts : list Time) :
  (forall t, In t ts -> computed_at geometry t = true ->
             visible_at geometry min_elevation t = true) ->
  Forall (fun x => Spec.is_visible x = true)
         (stream geometry min_elevation handed ts).
Proof.
  induction ts as [| t ts IH]; intros H; simpl; [constructor |].
  assert (IH' := IH (fun t' Hin => H t' (or_intror Hin))).
  specialize (H t (or_introl eq_refl)).
  unfold computed_at, visible_at, sample_at in *.
  destruct (geometry t) as [g |]; trivial.
  constructor; trivial. simpl. auto.
Qed.

(** When every computed sample of the sweep is visible, the failed
    steps among them do not split the pass. *)
Lemma segment_single (ts : list Time) (t0 : Time) (rest : list Time) :
  filter (computed_at geometry) ts = t0 :: rest ->
  (forall t, In t ts -> computed_at geometry t = true ->
             visible_at geometry min_elevation t = true) ->
  exists q,
    Spec.emitted (Spec.segment (stream geometry min_elevation handed ts))
    = [q] /\
    Spec.counter (Spec.segment (stream geometry min_elevation handed ts))
    = 1 /\
    Spec.pass_id q = 1 /\
    Spec.start_time q = t0 /\
    Spec.end_time q = last rest t0.
Proof.
  intros Hts Hvis.
  pose proof (stream_timestamps ts) as E. rewrite Hts in E.
  pose proof (stream_all_visible ts Hvis) as V.
  destruct (stream geometry min_elevation handed ts) as [| x xs];
    [discriminate |].
  simpl in E. injection E as E1 E2.
  destruct (segment_visible x xs V) as [q [H1 [H2 [H3 [H4 H5]]]]].
  exists q. rewrite E1, E2 in *. repeat split; trivial.
Qed.

End StreamFacts.

(** The instants of the ephemeris records are the instants of the sweep
    at which the sample was classified visible. *)
Lemma v1_fold_timestamps (w : World) (satellite : Satellite w)
    (observer_lat observer_lon observer_elev min_elevation : Q)
    (ts : list Time) :
  forall st,
  map V1.timestamp
      (V1.ephemeris_data
         (fold_left (V1.body w satellite observer_lat observer_lon
                             observer_elev min_elevation) ts st))
  = map V1.timestamp (V1.ephemeris_data st)
    ++ filter (visible_at (V1.geometry w satellite observer_lat
                                       observer_lon observer_elev)
                          min_elevation) ts.
Proof.
  induction ts as [| t ts IH]; intros st; simpl; [symmetry; apply app_nil_r |].
  rewrite IH. unfold V1.body, visible_at at 2.
  destruct (V1.geometry _ _ _ _ _ t) as [g |]; trivial.
  unfold V1.classify.
  destruct (at_or_above min_elevation g).
  - destruct (V1.current_pass st); simpl;
      rewrite map_app, <- app_assoc; reflexivity.
  - destruct (V1.current_pass st); reflexivity.
Qed.

Lemma v2_fold_timestamps (w : World) (sat : Satellite w)
    (observer_lat observer_lon observer_elev min_elevation : Q)
    (ts : list Time) :
  forall st,
  map V2.timestamp
      (V2.ephemeris_data
         (fold_left (V2.body w sat observer_lat observer_lon
                             observer_elev min_elevation) ts st))
  = map V2.timestamp (V2.ephemeris_data st)
    ++ filter (visible_at (V2.geometry w sat observer_lat
                                       observer_lon observer_elev)
                          min_elevation) ts.
Proof.
  induction ts as [| t ts IH]; intros st; simpl; [symmetry; apply app_nil_r |].
  rewrite IH. unfold V2.body, visible_at at 2.
  destruct (V2.geometry _ _ _ _ _ t) as [g |]; trivial.
  unfold V2.classify.
  destruct (at_or_above min_elevation g).
  - destruct (V2.current_pass st); simpl;
      rewrite map_app, <- app_assoc; reflexivity.
  - destruct (V2.current_pass st); reflexivity.
Qed.

Lemma v1_run_timestamps (w : World) (satellite : Satellite w)
    (observer_lat observer_lon : Q) (start_time_utc end_time_utc : Time)
    (step_seconds : Z) (observer_elev min_elevation : Q) (fuel : nat)
    (out : V1.Output) :
  V1.run w satellite observer_lat observer_lon start_time_utc end_time_utc
         step_seconds observer_elev min_elevation fuel = Returns out ->
  map V1.timestamp (V1.ephemeris (V1.ephemeris_output out))
  = filter (visible_at (V1.geometry w satellite observer_lat observer_lon
                                    observer_elev) min_elevation)
           (sweep_instants start_time_utc end_time_utc step_seconds).
Proof.
  intros H. apply v1_run_inversion in H as [_ ->]. simpl.
  assert (E : forall st, V1.ephemeris_data (V1.finish st)
                         = V1.ephemeris_data st).
  { intros st. unfold V1.finish. destruct (V1.current_pass st); trivial. }
  rewrite E, v1_fold_timestamps. reflexivity.
Qed.

Lemma v2_run_timestamps (w : World) (sat : Satellite w) (norad_id : Z)
    (observer_lat observer_lon : Q) (start_time_utc end_time_utc : Time)
    (step_seconds : Z) (observer_elev min_elevation : Q) (fuel : nat)
    (out : V2.Output) :
  V2.run w sat norad_id observer_lat observer_lon start_time_utc
         end_time_utc step_seconds observer_elev min_elevation fuel
  = Returns out ->
  map V2.timestamp (V2.ephemeris (V2.ephemeris_output out))
  = filter (visible_at (V2.geometry w sat observer_lat observer_lon
                                    observer_elev) min_elevation)
           (sweep_instants start_time_utc end_time_utc step_seconds).
Proof.
  intros H. apply v2_run_inversion in H as [_ H].
  apply v2_outputs_fields in H as [_ [_ ->]].
  assert (E : forall st, V2.ephemeris_data (V2.finish st)
                         = V2.ephemeris_data st).
  { intros st. unfold V2.finish. destruct (V2.current_pass st); trivial. }
  rewrite E, v2_fold_timestamps. reflexivity.
Qed.

(** * The claims *)

Lemma v2_matches_spec_of_v2 (l : list V2.Pass) :
  Forall (fun p =>
            V2.duration_sec p
            = Some (Py.round (Py.total_seconds (V2.end_ p - V2.start p)) 1)
            /\ (Py.round (Py.total_seconds (V2.end_ p - V2.start p)) 1
                == Py.total_seconds (V2.end_ p - V2.start p))%Q) l ->
  Forall2 v2_matches l (map spec_of_v2 l).
Proof.
  induction 1 as [| p l [Hd Hr] _ IH]; simpl; constructor; trivial.
  unfold v2_matches. simpl. repeat split; trivial. eauto.
Qed.

Lemma v1_call_inversion (w : World) (fuel : nat) (tle_line1 tle_line2 : string)
    (observer_lat observer_lon : Q) (start_time_utc end_time_utc : Time)
    (step_seconds : Z) (observer_elev min_elevation : Q) (out : V1.Output) :
  V1.calculate_and_save_data w fuel tle_line1 tle_line2 observer_lat
    observer_lon start_time_utc end_time_utc step_seconds observer_elev
    min_elevation = Returns out ->
  exists satellite,
    EarthSatellite w tle_line1 tle_line2 = Some satellite /\
    V1.run w satellite observer_lat observer_lon start_time_utc end_time_utc
           step_seconds observer_elev min_elevation fuel = Returns out.
Proof.
  unfold V1.calculate_and_save_data.
  destruct (EarthSatellite w tle_line1 tle_line2) as [satellite |];
    [| discriminate].
  intros H. exists satellite. auto.
Qed.

Lemma v2_call_inversion (w : World) (fuel : nat) (norad_id : Z)
    (observer_lat observer_lon : Q) (start_time_utc end_time_utc : Time)
    (step_seconds : Z) (observer_elev min_elevation : Q) (out : V2.Output) :
  V2.calculate_and_save_data w fuel norad_id observer_lat
    observer_lon start_time_utc end_time_utc step_seconds observer_elev
    min_elevation = Returns out ->
  exists satellite,
    V2.get_tle w norad_id = Some satellite /\
    V2.run w satellite norad_id observer_lat observer_lon start_time_utc
           end_time_utc step_seconds observer_elev min_elevation fuel
    = Returns out.
Proof.
  unfold V2.calculate_and_save_data.
  destruct (V2.get_tle w norad_id) as [satellite |]; [| discriminate].
  intros H. exists satellite. auto.
Qed.

(** C1, as amended.  With a positive step and fuel for every turn, each
    program returns, and its pass list and pass count are those of the
    two-state segmenter of the specification (a pass opened at the
    first visible sample with the next counter value and
    start = end = t, extended by every further visible sample, closed
    with duration = end - start by the first sample that is not visible,
    or by the end of the sweep) run over the computed samples of the
    sweep in time order.  The first program hands the segmenter the
    elevation of the sample; the second hands it the elevation rounded
    to two decimals, and rounds the duration to one decimal, which
    leaves its value unchanged. *)
Theorem C1_segmenter_refinement :
  forall (w : World) (fuel : nat) (tle_line1 tle_line2 : string)
         (norad_id : Z) (observer_lat observer_lon : Q)
         (start_time_utc end_time_utc : Time) (step_seconds : Z)
         (observer_elev min_elevation : Q),
  0 < step_seconds ->
  (turns start_time_utc end_time_utc step_seconds <= fuel)%nat ->
  (forall satellite,
     EarthSatellite w tle_line1 tle_line2 = Some satellite ->
     exists out,
       V1.calculate_and_save_data w fuel tle_line1 tle_line2 observer_lat
         observer_lon start_time_utc end_time_utc step_seconds
         observer_elev min_elevation = Returns out /\
       let s :=
         Spec.segment
           (stream (V1.geometry w satellite observer_lat observer_lon
                                observer_elev)
                   min_elevation (fun x => x)
                   (sweep_instants start_time_utc end_time_utc
                                   step_seconds)) in
       map spec_of_v1 (V1.passes (V1.passes_output out)) = Spec.emitted s /\
       V1.total_passes (V1.passes_output out) = Spec.counter s) /\
  (forall satellite,
     V2.get_tle w norad_id = Some satellite ->
     exists out,
       V2.calculate_and_save_data w fuel norad_id observer_lat
         observer_lon start_time_utc end_time_utc step_seconds
         observer_elev min_elevation = Returns out /\
       let s :=
         Spec.segment
           (stream (V2.geometry w satellite observer_lat observer_lon
                                observer_elev)
                   min_elevation round2
                   (sweep_instants start_time_utc end_time_utc
                                   step_seconds)) in
       Forall2 v2_matches (V2.passes (V2.passes_output out))
               (Spec.emitted s) /\
       V2.total_passes (V2.statistics (V2.passes_output out))
       = Spec.counter s).
Proof.
  intros w fuel tle_line1 tle_line2 norad_id observer_lat observer_lon
         start_time_utc end_time_utc step_seconds observer_elev
         min_elevation Hstep Hfuel.
  split; intros satellite Hsat.
  - unfold V1.calculate_and_save_data. rewrite Hsat.
    pose proof (v1_run_total w satellite observer_lat observer_lon
                  start_time_utc end_time_utc step_seconds observer_elev
                  min_elevation fuel Hstep Hfuel) as Hrun.
    eexists. split; [exact Hrun |].
    apply v1_run_spec in Hrun as [Hp [Hc _]]. cbv zeta. auto.
  - unfold V2.calculate_and_save_data. rewrite Hsat.
    destruct (v2_outputs_return w satellite norad_id observer_lat
                observer_lon start_time_utc end_time_utc step_seconds
                observer_elev min_elevation) as [out Hout].
    pose proof (v2_run_total w satellite norad_id observer_lat
                  observer_lon start_time_utc end_time_utc step_seconds
                  observer_elev min_elevation fuel Hstep Hfuel) as Hrun.
    rewrite Hout in Hrun.
    exists out. split; [exact Hrun |].
    pose proof (v2_run_durations _ _ _ _ _ _ _ _ _ _ _ _ Hrun) as Hd.
    apply v2_run_spec in Hrun as [Hp [Hc _]]. cbv zeta.
    rewrite <- Hp. split; trivial.
    apply v2_matches_spec_of_v2, Hd.
Qed.

Lemma C1_segmenter_refinement_witness :
  exists out1 out2,
    V1.calculate_and_save_data demo_world 20 "" "" 0 0 0 (seconds 6) 1 0 10
    = Returns out1 /\
    map spec_of_v1 (V1.passes (V1.passes_output out1))
    = Spec.emitted
        (Spec.segment
           (stream (V1.geometry demo_world tt 0 0 0) 10 (fun x => x)
                   (sweep_instants 0 (seconds 6) 1))) /\
    V2.calculate_and_save_data demo_world 20 25544 0 0 0 (seconds 6) 1 0 10
    = Returns out2 /\
    Forall2 v2_matches (V2.passes (V2.passes_output out2))
      (Spec.emitted
         (Spec.segment
            (stream (V2.geometry demo_world tt 0 0 0) 10 round2
                    (sweep_instants 0 (seconds 6) 1)))).
Proof.
  destruct (C1_segmenter_refinement demo_world 20 "" "" 25544 0 0 0
              (seconds 6) 1 0 10 ltac:(lia) ltac:(vm_compute; lia))
    as [H1 H2].
  destruct (H1 tt eq_refl) as [out1 [E1 [P1 _]]].
  destruct (H2 tt eq_refl) as [out2 [E2 [P2 _]]].
  exists out1, out2. repeat split; assumption.
Defined.

(** C1 as stated fails for the second program: with a single sample of
    elevation 10.004 above the threshold 10, its pass has
    [max_elevation] 10.00, not the elevation of the sample. *)
Lemma C1_second_program_rounds_counterexample :
  ~ (forall out,
       V2.calculate_and_save_data (table_world [Some 10.004%Q]) 5 25544
         0 0 0 0 1 0 10 = Returns out ->
       Forall2 v2_matches (V2.passes (V2.passes_output out))
         (Spec.emitted
            (Spec.segment
               (stream (V2.geometry (table_world [Some 10.004%Q]) tt 0 0 0)
                       10 (fun x => x) (sweep_instants 0 0 1))))).
Proof.
  intros H. specialize (H _ ltac:(vm_compute; reflexivity)).
  vm_compute in H.
  inversion H as [| p q l l' Hm _]; subst.
  destruct Hm as [_ [_ [_ [Hmax _]]]]. discriminate Hmax.
Qed.

Lemma filter_visible_computed (geometry : Time -> option Geometry)
    (min_elevation : Q) (ts : list Time) :
  (forall t, In t ts -> computed_at geometry t = true ->
             visible_at geometry min_elevation t = true) ->
  filter (visible_at geometry min_elevation) ts
  = filter (computed_at geometry) ts.
Proof.
  intros H. apply filter_ext_in. intros t Hin. specialize (H t Hin).
  unfold visible_at, computed_at in *.
  destruct (geometry t); auto.
Qed.

(** A step whose [try] block raises is skipped.  In both programs
    such a step leaves the state of the loop as it was (no ephemeris
    record, no pass opened or closed), and the loop goes on with the
    next instant.  Hence, when every computed sample of a sweep is
    visible, the steps that raised between them do not split the pass:
    the report has one pass, from the first computed instant to the
    last, and one ephemeris record for each computed instant.  In the
    first program the steps that raise include those whose propagation
    gave NaNs; in the second program they do not. *)
Lemma raised_steps_skipped :
  forall (w : World) (fuel : nat) (tle_line1 tle_line2 : string)
         (norad_id : Z) (observer_lat observer_lon : Q)
         (start_time_utc end_time_utc : Time) (step_seconds : Z)
         (observer_elev min_elevation : Q),
  (forall satellite,
     EarthSatellite w tle_line1 tle_line2 = Some satellite ->
     let geometry :=
       V1.geometry w satellite observer_lat observer_lon observer_elev in
     let body :=
       V1.body w satellite observer_lat observer_lon observer_elev
               min_elevation in
     (forall st t, geometry t = None -> body st t = st) /\
     (forall st t n, geometry t = None -> t <= end_time_utc ->
        sweep body end_time_utc step_seconds (S n) st t
        = sweep body end_time_utc step_seconds n st
                (t + seconds step_seconds)) /\
     (forall out t0 rest,
        V1.calculate_and_save_data w fuel tle_line1 tle_line2 observer_lat
          observer_lon start_time_utc end_time_utc step_seconds
          observer_elev min_elevation = Returns out ->
        filter (computed_at geometry)
               (sweep_instants start_time_utc end_time_utc step_seconds)
        = t0 :: rest ->
        (forall t,
           In t (sweep_instants start_time_utc end_time_utc step_seconds) ->
           computed_at geometry t = true ->
           visible_at geometry min_elevation t = true) ->
        exists p,
          V1.passes (V1.passes_output out) = [p] /\
          V1.pass_id p = 1 /\
          V1.start p = t0 /\
          V1.end_ p = last rest t0 /\
          map V1.timestamp (V1.ephemeris (V1.ephemeris_output out))
          = t0 :: rest)) /\
  (forall satellite,
     V2.get_tle w norad_id = Some satellite ->
     let geometry :=
       V2.geometry w satellite observer_lat observer_lon observer_elev in
     let body :=
       V2.body w satellite observer_lat observer_lon observer_elev
               min_elevation in
     (forall st t, geometry t = None -> body st t = st) /\
     (forall st t n, geometry t = None -> t <= end_time_utc ->
        sweep body end_time_utc step_seconds (S n) st t
        = sweep body end_time_utc step_seconds n st
                (t + seconds step_seconds)) /\
     (forall out t0 rest,
        V2.calculate_and_save_data w fuel norad_id observer_lat
          observer_lon start_time_utc end_time_utc step_seconds
          observer_elev min_elevation = Returns out ->
        filter (computed_at geometry)
               (sweep_instants start_time_utc end_time_utc step_seconds)
        = t0 :: rest ->
        (forall t,
           In t (sweep_instants start_time_utc end_time_utc step_seconds) ->
           computed_at geometry t = true ->
           visible_at geometry min_elevation t = true) ->
        exists p,
          V2.passes (V2.passes_output out) = [p] /\
          V2.pass_id p = 1 /\
          V2.start p = t0 /\
          V2.end_ p = last rest t0 /\
          map V2.timestamp (V2.ephemeris (V2.ephemeris_output out))
          = t0 :: rest)).
Proof.
  intros w fuel tle_line1 tle_line2 norad_id observer_lat observer_lon
         start_time_utc end_time_utc step_seconds observer_elev
         min_elevation.
  split; intros satellite Hsat geometry body; repeat split.
  - intros st t Hg. unfold body, V1.body. fold geometry. rewrite Hg.
    reflexivity.
  - intros st t n Hg Ht. rewrite sweep_turn by trivial.
    unfold body, V1.body. fold geometry. rewrite Hg. reflexivity.
  - intros out t0 rest Hcall Hts Hvis.
    unfold V1.calculate_and_save_data in Hcall. rewrite Hsat in Hcall.
    pose proof (v1_run_timestamps _ _ _ _ _ _ _ _ _ _ _ Hcall) as Ht.
    fold geometry in Ht.
    rewrite (filter_visible_computed _ _ _ Hvis), Hts in Ht.
    apply v1_run_spec in Hcall as [Hp _]. fold geometry in Hp.
    destruct (segment_single geometry min_elevation (fun x => x) _ _ _
                Hts Hvis) as [q [Hq [_ [Hid [Hs He]]]]].
    rewrite Hq in Hp.
    destruct (V1.passes (V1.passes_output out)) as [| p [| p' l]];
      try discriminate.
    injection Hp as Hp. exists p. subst q. simpl in *. auto.
  - intros st t Hg. unfold body, V2.body. fold geometry. rewrite Hg.
    reflexivity.
  - intros st t n Hg Ht. rewrite sweep_turn by trivial.
    unfold body, V2.body. fold geometry. rewrite Hg. reflexivity.
  - intros out t0 rest Hcall Hts Hvis.
    unfold V2.calculate_and_save_data in Hcall. rewrite Hsat in Hcall.
    pose proof (v2_run_timestamps _ _ _ _ _ _ _ _ _ _ _ _ Hcall) as Ht.
    fold geometry in Ht.
    rewrite (filter_visible_computed _ _ _ Hvis), Hts in Ht.
    apply v2_run_spec in Hcall as [Hp _]. fold geometry in Hp.
    destruct (segment_single geometry min_elevation round2 _ _ _
                Hts Hvis) as [q [Hq [_ [Hid [Hs He]]]]].
    rewrite Hq in Hp.
    destruct (V2.passes (V2.passes_output out)) as [| p [| p' l]];
      try discriminate.
    injection Hp as Hp. exists p. subst q. simpl in *. auto.
Qed.

(** In [gap_world] three steps raise inside the visible window. *)
Example raised_steps_skipped_in_gap_world :
  exists out p,
    V2.calculate_and_save_data gap_world 20 25544 0 0 0 (seconds 5) 1 0 10
    = Returns out /\
    V2.passes (V2.passes_output out) = [p] /\
    V2.start p = 0 /\ V2.end_ p = seconds 5 /\
    map V2.timestamp (V2.ephemeris (V2.ephemeris_output out))
    = [0; seconds 4; seconds 5].
Proof.
  destruct (raised_steps_skipped gap_world 20 "" "" 25544 0 0 0
              (seconds 5) 1 0 10) as [_ H2].
  destruct (H2 tt eq_refl) as [_ [_ Hc]].
  edestruct Hc as [p [Hp [_ [Hs [He Ht]]]]].
  - vm_compute. reflexivity.
  - vm_compute. reflexivity.
  - intros t Hin. vm_compute in Hin.
    repeat (destruct Hin as [<- | Hin]; [vm_compute; trivial |]).
    contradiction.
  - eexists _, p. split; [vm_compute; reflexivity |].
    repeat split; assumption.
Qed.

(** A position of NaNs makes the [try] block of the first program
    raise: the step is skipped. *)
Lemma v1_geometry_nan (w : World) (satellite : Satellite w)
    (observer_lat observer_lon observer_elev : Q) (t : Time)
    (pos : SatPos w) :
  satellite_at w satellite t = Some pos ->
  position_is_nan w pos = true ->
  V1.geometry w satellite observer_lat observer_lon observer_elev t = None.
Proof. unfold V1.geometry. intros -> ->. reflexivity. Qed.

(** In the second program it gives a geometry of NaNs. *)
Lemma v2_geometry_nan (w : World) (sat : Satellite w)
    (observer_lat observer_lon observer_elev : Q) (t : Time)
    (pos : SatPos w) (g : Geometry) :
  satellite_at w sat t = Some pos ->
  position_is_nan w pos = true ->
  V2.geometry w sat observer_lat observer_lon observer_elev t = Some g ->
  is_nan g = true.
Proof.
  unfold V2.geometry. intros -> Hnan H.
  destruct (subpoint w pos); [| discriminate].
  destruct (observer_at w observer_lat observer_lon observer_elev t);
    [| discriminate].
  destruct (altaz w pos _) as [[[alt az] dist] |]; [| discriminate].
  injection H as <-. exact Hnan.
Qed.

(** C2 does not hold of the second program.  When the propagation of a
    step fails without raising, the position is one of NaNs.  The
    first program skips the step: its [try] block raises on the NaN
    light time.  In the second program nothing raises: the elevation is
    NaN, the comparison with the threshold is false, and the step is
    taken for a sample that is not visible: it closes the pass that is
    open.  In [nan_world], where the satellite is above the threshold
    for five seconds and the propagation fails at second 2, the first
    program reports one pass and the second reports two. *)
Theorem C2_nan_step_closes_pass_in_second_program :
  (forall (w : World) (sat : Satellite w)
          (observer_lat observer_lon observer_elev min_elevation : Q)
          (t : Time) (pos : SatPos w),
     satellite_at w sat t = Some pos ->
     position_is_nan w pos = true ->
     (forall st,
        V1.body w sat observer_lat observer_lon observer_elev min_elevation
                st t = st) /\
     (forall st p g,
        V2.geometry w sat observer_lat observer_lon observer_elev t
        = Some g ->
        V2.current_pass st = Some p ->
        V2.body w sat observer_lat observer_lon observer_elev min_elevation
                st t
        = {| V2.passes_data := V2.passes_data st ++ [V2.close_pass p];
             V2.ephemeris_data := V2.ephemeris_data st;
             V2.current_pass := None;
             V2.pass_number := V2.pass_number st |})) /\
  (exists out1 out2,
     V1.calculate_and_save_data nan_world 20 "" "" 0 0 0 (seconds 4) 1 0 10
     = Returns out1 /\
     V2.calculate_and_save_data nan_world 20 25544 0 0 0 (seconds 4) 1 0 10
     = Returns out2 /\
     map (fun p => (V1.pass_id p, V1.start p, V1.end_ p))
         (V1.passes (V1.passes_output out1))
     = [(1, 0, seconds 4)] /\
     V1.total_passes (V1.passes_output out1) = 1 /\
     map V1.timestamp (V1.ephemeris (V1.ephemeris_output out1))
     = [0; seconds 1; seconds 3; seconds 4] /\
     map (fun p => (V2.pass_id p, V2.start p, V2.end_ p))
         (V2.passes (V2.passes_output out2))
     = [(1, 0, seconds 1); (2, seconds 3, seconds 4)] /\
     V2.total_passes (V2.statistics (V2.passes_output out2)) = 2 /\
     map V2.timestamp (V2.ephemeris (V2.ephemeris_output out2))
     = [0; seconds 1; seconds 3; seconds 4]).
Proof.
  split.
  - intros w sat observer_lat observer_lon observer_elev min_elevation t
           pos Hpos Hnan.
    split.
    + intros st. unfold V1.body.
      rewrite (v1_geometry_nan _ _ _ _ _ _ _ Hpos Hnan). reflexivity.
    + intros st p g Hg Hcur. unfold V2.body. rewrite Hg.
      unfold V2.classify.
      rewrite at_or_above_nan
        by exact (v2_geometry_nan _ _ _ _ _ _ _ _ Hpos Hnan Hg).
      rewrite Hcur. reflexivity.
  - eexists _, _.
    split; [vm_compute; reflexivity |].
    split; [vm_compute; reflexivity |].
    repeat split; vm_compute; reflexivity.
Qed.

(** The step at second 2 of [nan_world], met with a pass open. *)
Lemma C2_nan_step_closes_pass_in_second_program_witness :
  let p := {| V2.pass_id := 1; V2.start := 0; V2.end_ := seconds 1;
              V2.max_elevation := 11; V2.events := [];
              V2.duration_sec := None |} in
  let st := {| V2.passes_data := []; V2.ephemeris_data := [];
               V2.current_pass := Some p; V2.pass_number := 1 |} in
  V1.body nan_world tt 0 0 0 10 V1.initial (seconds 2) = V1.initial /\
  V2.body nan_world tt 0 0 0 10 st (seconds 2)
  = {| V2.passes_data := [V2.close_pass p]; V2.ephemeris_data := [];
       V2.current_pass := None; V2.pass_number := 1 |}.
Proof.
  intros p st.
  destruct (proj1 C2_nan_step_closes_pass_in_second_program
              nan_world tt 0%Q 0%Q 0%Q 10%Q (seconds 2) (12%Q, seconds 2)
              ltac:(vm_compute; reflexivity) ltac:(vm_compute; reflexivity))
    as [H1 H2].
  split.
  - apply H1.
  - apply (H2 st p _ ltac:(vm_compute; reflexivity) eq_refl).
Defined.

(** C3, as amended.  The first program takes the satellite at the
    instant [t] of the step and the observer at
    [t_obs = t - range_km / c], where [c = 299792.458] km/s, [range_km]
    is the distance of the satellite from the centre of the Earth and
    the delay is rounded to a whole microsecond (it is at most half a
    microsecond away from [range_km / c]).  The second program applies
    no light-time correction: satellite and observer are both taken at
    [t]. *)
Theorem C3_light_time_correction :
  forall (w : World) (sat : Satellite w)
         (observer_lat observer_lon observer_elev : Q),
  light_time_corrected w sat observer_lat observer_lon observer_elev
    (V1.geometry w sat observer_lat observer_lon observer_elev) /\
  (forall range_km : Q,
     let exact := (range_km / 299792.458 * 1000000)%Q in
     let delay :=
       inject_Z (Py.timedelta_seconds (range_km / 299792.458)) in
     (exact - (1 # 2) <= delay /\ delay <= exact + (1 # 2))%Q) /\
  uncorrected w sat observer_lat observer_lon observer_elev
    (V2.geometry w sat observer_lat observer_lon observer_elev).
Proof.
  intros w sat observer_lat observer_lon observer_elev.
  split; [| split].
  - intros t g Hg. unfold V1.geometry in Hg.
    destruct (satellite_at w sat t) as [pos |]; [| discriminate].
    destruct (position_is_nan w pos); [discriminate |].
    destruct (observer_at w observer_lat observer_lon observer_elev _)
      as [observer_pos |] eqn:Ho; [| discriminate].
    destruct (altaz w pos observer_pos) as [[[alt az] dist] |] eqn:Ha;
      [| discriminate].
    destruct (subpoint w pos); [| discriminate].
    injection Hg as <-. exists pos, observer_pos. simpl. auto.
  - intros range_km exact delay. unfold delay, Py.timedelta_seconds.
    change (inject_Z 1000000) with 1000000%Q.
    apply round_half_even_near.
  - intros t g Hg. unfold V2.geometry in Hg.
    destruct (satellite_at w sat t) as [pos |]; [| discriminate].
    destruct (subpoint w pos); [| discriminate].
    destruct (observer_at w observer_lat observer_lon observer_elev t)
      as [observer_pos |] eqn:Ho; [| discriminate].
    destruct (altaz w pos observer_pos) as [[[alt az] dist] |] eqn:Ha;
      [| discriminate].
    injection Hg as <-. exists pos, observer_pos. simpl. auto.
Qed.

(** C3 as stated fails for the second program: at 6771 km from the
    centre of the Earth the light time is 22586 microseconds, and the
    observer is taken at the instant of the step all the same. *)
Lemma C3_second_program_uncorrected_counterexample :
  ~ light_time_corrected demo_world tt 0 0 0
      (V2.geometry demo_world tt 0 0 0).
Proof.
  intros H.
  destruct (H 0 _ eq_refl) as [pos [observer_pos [H1 [H2 H3]]]].
  vm_compute in H1. injection H1 as <-.
  vm_compute in H2. injection H2 as <-.
  vm_compute in H3. discriminate H3.
Qed.

(** C4, as amended.  Two runs of a program with the same arguments see
    the same sky; the catalogue's answer to the name request and the
    reading of the clock may differ from one run to the other.
    Whatever these are, and however long each run is allowed to go on,
    two runs that return have written the same pass list, the same pass
    count (and visible time) and the same ephemeris list.  The reports
    of the first program are wholly equal when the catalogue gave the
    same name for the satellite in both runs; those of the second
    program when the clock read the same. *)
Theorem C4_deterministic :
  forall (w : World) (fuel1 fuel2 : nat) (tle_line1 tle_line2 : string)
         (norad_id : Z) (observer_lat observer_lon : Q)
         (start_time_utc end_time_utc : Time) (step_seconds : Z)
         (observer_elev min_elevation : Q)
         (answer1 answer2 : Z -> string) (clock1 clock2 : Time),
  (forall out1 out2,
     V1.calculate_and_save_data
       (with_clock (with_catalogue w answer1) clock1) fuel1
       tle_line1 tle_line2 observer_lat
       observer_lon start_time_utc end_time_utc step_seconds observer_elev
       min_elevation = Returns out1 ->
     V1.calculate_and_save_data
       (with_clock (with_catalogue w answer2) clock2) fuel2
       tle_line1 tle_line2 observer_lat
       observer_lon start_time_utc end_time_utc step_seconds observer_elev
       min_elevation = Returns out2 ->
     V1.passes (V1.passes_output out1) = V1.passes (V1.passes_output out2) /\
     V1.total_passes (V1.passes_output out1)
     = V1.total_passes (V1.passes_output out2) /\
     V1.ephemeris (V1.ephemeris_output out1)
     = V1.ephemeris (V1.ephemeris_output out2) /\
     ((forall satellite,
         EarthSatellite w tle_line1 tle_line2 = Some satellite ->
         answer1 (satnum w satellite) = answer2 (satnum w satellite)) ->
      out1 = out2)) /\
  (forall out1 out2,
     V2.calculate_and_save_data
       (with_clock (with_catalogue w answer1) clock1) fuel1
       norad_id observer_lat
       observer_lon start_time_utc end_time_utc step_seconds observer_elev
       min_elevation = Returns out1 ->
     V2.calculate_and_save_data
       (with_clock (with_catalogue w answer2) clock2) fuel2
       norad_id observer_lat
       observer_lon start_time_utc end_time_utc step_seconds observer_elev
       min_elevation = Returns out2 ->
     V2.passes (V2.passes_output out1) = V2.passes (V2.passes_output out2) /\
     V2.statistics (V2.passes_output out1)
     = V2.statistics (V2.passes_output out2) /\
     V2.ephemeris (V2.ephemeris_output out1)
     = V2.ephemeris (V2.ephemeris_output out2) /\
     (clock1 = clock2 -> out1 = out2)).
Proof.
  intros w fuel1 fuel2 tle_line1 tle_line2 norad_id observer_lat
         observer_lon start_time_utc end_time_utc step_seconds
         observer_elev min_elevation answer1 answer2 clock1 clock2.
  split; intros out1 out2 H1 H2.
  - apply v1_call_inversion in H1 as [s1 [E1 H1]].
    apply v1_call_inversion in H2 as [s2 [E2 H2]].
    change (EarthSatellite w tle_line1 tle_line2 = Some s1) in E1.
    change (EarthSatellite w tle_line1 tle_line2 = Some s2) in E2.
    rewrite E1 in E2. injection E2 as <-.
    apply v1_run_inversion in H1 as [_ ->].
    apply v1_run_inversion in H2 as [_ ->].
    split; [reflexivity |]. split; [reflexivity |].
    split; [reflexivity |].
    intros Hname. specialize (Hname s1 E1).
    unfold V1.outputs, V1.common_metadata.
    cbn [get_satellite_name satnum with_clock with_catalogue].
    rewrite Hname. reflexivity.
  - apply v2_call_inversion in H1 as [s1 [E1 H1]].
    apply v2_call_inversion in H2 as [s2 [E2 H2]].
    change (V2.get_tle w norad_id = Some s1) in E1.
    change (V2.get_tle w norad_id = Some s2) in E2.
    rewrite E1 in E2. injection E2 as <-.
    apply v2_run_inversion in H1 as [_ H1].
    apply v2_run_inversion in H2 as [_ H2].
    unfold V2.outputs in H1, H2.
    change (V2.finish
              (fold_left
                 (V2.body (with_clock (with_catalogue w answer2) clock2) s1
                    observer_lat observer_lon observer_elev min_elevation)
                 (sweep_instants start_time_utc end_time_utc step_seconds)
                 V2.initial))
      with (V2.finish
              (fold_left
                 (V2.body (with_clock (with_catalogue w answer1) clock1) s1
                    observer_lat observer_lon observer_elev min_elevation)
                 (sweep_instants start_time_utc end_time_utc step_seconds)
                 V2.initial)) in H2.
    destruct (V2.sum_durations 0 _) as [total |]; [| discriminate].
    injection H1 as <-. injection H2 as <-.
    cbn [V2.passes V2.passes_output V2.statistics V2.ephemeris
         V2.ephemeris_output].
    split; [reflexivity |]. split; [reflexivity |].
    split; [reflexivity |].
    intros <-. reflexivity.
Qed.

(** Two runs of each program over [demo_world]: the catalogue answers
    the second run of the first program as it did the first; the clock
    reads the same in both runs of the second. *)
Lemma C4_deterministic_witness :
  (exists out1 out2,
     V1.calculate_and_save_data
       (with_clock (with_catalogue demo_world (fun _ => "ISS"%string)) 7)
       20 "" "" 0 0 0 (seconds 6) 1 0 10
     = Returns out1 /\
     V1.calculate_and_save_data
       (with_clock (with_catalogue demo_world (fun _ => "ISS"%string)) 8)
       30 "" "" 0 0 0 (seconds 6) 1 0 10
     = Returns out2 /\
     out1 = out2) /\
  (exists out1 out2,
     V2.calculate_and_save_data
       (with_clock (with_catalogue demo_world (fun _ => "ISS"%string)) 7)
       20 25544 0 0 0 (seconds 6) 1 0 10
     = Returns out1 /\
     V2.calculate_and_save_data
       (with_clock (with_catalogue demo_world (fun _ => "SAT-25544"%string))
                   7)
       30 25544 0 0 0 (seconds 6) 1 0 10
     = Returns out2 /\
     out1 = out2).
Proof.
  split.
  - eexists _, _.
    split; [vm_compute; reflexivity |].
    split; [vm_compute; reflexivity |].
    apply (proj1 (C4_deterministic demo_world 20 30 "" "" 25544 0 0 0
                    (seconds 6) 1 0 10 (fun _ => "ISS"%string)
                    (fun _ => "ISS"%string) 7 8) _ _
             ltac:(vm_compute; reflexivity) ltac:(vm_compute; reflexivity)).
    intros satellite _. reflexivity.
  - eexists _, _.
    split; [vm_compute; reflexivity |].
    split; [vm_compute; reflexivity |].
    apply (proj2 (C4_deterministic demo_world 20 30 "" "" 25544 0 0 0
                    (seconds 6) 1 0 10 (fun _ => "ISS"%string)
                    (fun _ => "SAT-25544"%string) 7 7) _ _
             ltac:(vm_compute; reflexivity) ltac:(vm_compute; reflexivity)).
    reflexivity.
Defined.

(** C4 as stated fails for the first program: the name written in the
    metadata of its reports is what the catalogue answers to a request
    made during the run, which is not among the inputs.  With the same
    element set, the same sweep parameters and the same clock, a run in
    which the request succeeds and a run in which it fails (the name is
    then the fallback) write different reports. *)
Lemma C4_catalogue_answer_changes_report_counterexample :
  ~ (forall out1 out2,
       V1.calculate_and_save_data
         (with_clock (with_catalogue demo_world (fun _ => "ISS"%string)) 7)
         20 "" "" 0 0 0 (seconds 6) 1 0 10
       = Returns out1 ->
       V1.calculate_and_save_data
         (with_clock
            (with_catalogue demo_world (fun _ => "SAT-25544"%string)) 7)
         20 "" "" 0 0 0 (seconds 6) 1 0 10
       = Returns out2 ->
       out1 = out2).
Proof.
  intros H.
  specialize (H _ _ ltac:(vm_compute; reflexivity)
                ltac:(vm_compute; reflexivity)).
  apply (f_equal (fun out =>
                    V1.satellite_name (V1.metadata (V1.passes_output out))))
    in H.
  vm_compute in H. discriminate H.
Qed.

Lemma elevations_of_map {A : Type} (pid : A -> Z) (f : A -> Spec.Sample)
    (id : Z) (es : list A) :
  elevations_of id (map (fun e => (pid e, f e)) es)
  = map (fun e => Spec.elevation_deg (f e))
        (filter (fun e => pid e =? id) es).
Proof.
  unfold elevations_of. induction es as [| e es IH]; simpl; trivial.
  destruct (pid e =? id); simpl; rewrite IH; reflexivity.
Qed.

Lemma sample_at_elevation (geometry : Time -> option Geometry)
    (min_elevation : Q) (handed : Q -> Q) (t : Time) (g : Geometry) :
  geometry t = Some g ->
  Spec.elevation_deg (sample_at geometry min_elevation handed t)
  = handed (raw_elevation geometry t).
Proof. unfold sample_at, raw_elevation. intros ->. reflexivity. Qed.

Lemma fold_max_round2 (l : list Q) :
  forall a, fold_left Py.max (map round2 l) (round2 a)
            = round2 (fold_left Py.max l a).
Proof.
  induction l as [| b l IH]; intros a; cbn [map fold_left]; trivial.
  replace (Py.max (round2 a) (round2 b)) with (round2 (Py.max a b))
    by (symmetry; apply max_round).
  apply IH.
Qed.

(** The greatest of the rounded elevations is the rounding of the
    greatest elevation. *)
Lemma maximum_round2 (l : list Q) (m : Q) :
  maximum (map round2 l) = Some m ->
  exists m', maximum l = Some m' /\ m = round2 m'.
Proof.
  destruct l as [| a l]; cbn [map maximum]; [discriminate |].
  rewrite fold_max_round2. intros [= <-]. eauto.
Qed.

Lemma v1_run_durations (w : World) (satellite : Satellite w)
    (observer_lat observer_lon : Q) (start_time_utc end_time_utc : Time)
    (step_seconds : Z) (observer_elev min_elevation : Q) (fuel : nat)
    (out : V1.Output) :
  V1.run w satellite observer_lat observer_lon start_time_utc end_time_utc
         step_seconds observer_elev min_elevation fuel = Returns out ->
  Forall (fun p => V1.duration_sec p
                   = Py.total_seconds (V1.end_ p - V1.start p))
         (V1.passes (V1.passes_output out)).
Proof.
  intros H. apply v1_run_inversion in H as [_ ->]. simpl.
  set (P := fun st : V1.State =>
    Forall (fun p => V1.duration_sec p
                     = Py.total_seconds (V1.end_ p - V1.start p))
           (V1.passes_data st)).
  assert (HP : P (fold_left
                    (V1.body w satellite observer_lat observer_lon
                             observer_elev min_elevation)
                    (sweep_instants start_time_utc end_time_utc
                                    step_seconds) V1.initial)).
  { apply fold_left_invariant; [| constructor].
    intros st t _ Hst. unfold P, V1.body in *.
    destruct (V1.geometry _ _ _ _ _ t) as [g |]; trivial.
    unfold V1.classify.
    destruct (at_or_above min_elevation g).
    - destruct (V1.current_pass st); simpl; trivial.
    - destruct (V1.current_pass st); simpl; trivial.
      apply Forall_app. split; trivial. constructor; [| constructor].
      reflexivity. }
  unfold P in HP. unfold V1.finish.
  destruct (V1.current_pass _); simpl; trivial.
  apply Forall_app. split; trivial. constructor; [| constructor].
  reflexivity.
Qed.

(** The maximum kept in a pass of the first program is the greatest
    raw elevation of its samples. *)
Lemma v1_run_maximum (w : World) (satellite : Satellite w)
    (observer_lat observer_lon : Q) (start_time_utc end_time_utc : Time)
    (step_seconds : Z) (observer_elev min_elevation : Q) (fuel : nat)
    (out : V1.Output) (p : V1.Pass) :
  V1.run w satellite observer_lat observer_lon start_time_utc end_time_utc
         step_seconds observer_elev min_elevation fuel = Returns out ->
  In p (V1.passes (V1.passes_output out)) ->
  maximum (v1_raw_elevations
             (V1.geometry w satellite observer_lat observer_lon
                          observer_elev) out p)
  = Some (V1.max_elevation p).
Proof.
  intros Hrun Hp.
  pose proof (v1_run_entries _ _ _ _ _ _ _ _ _ _ _ Hrun) as Hent.
  destruct (v1_run_spec _ _ _ _ _ _ _ _ _ _ _ Hrun) as [Hps [_ Hrec]].
  destruct (inv_segment
              (V1.geometry w satellite observer_lat observer_lon
                           observer_elev)
              min_elevation (fun x => x)
              (sweep_instants start_time_utc end_time_utc step_seconds)
              start_time_utc) as [b HI].
  { apply sweep_instants_increasing.
    apply (v1_run_inversion _ _ _ _ _ _ _ _ _ _ _ Hrun). }
  pose proof (end_maximum b _ HI (spec_of_v1 p)) as Hmax.
  rewrite <- Hps, <- Hrec in Hmax.
  specialize (Hmax (in_map _ _ _ Hp)). simpl in Hmax.
  rewrite elevations_of_map in Hmax.
  unfold v1_raw_elevations. rewrite <- Hmax. f_equal.
  apply map_ext_in. intros e He. apply filter_In in He as [He _].
  rewrite Forall_forall in Hent. destruct (Hent e He) as [g [Hg _]].
  rewrite (sample_at_elevation _ _ _ _ g Hg). reflexivity.
Qed.

(** The maximum kept in a pass of the second program is the greatest
    of the rounded elevations of its samples. *)
Lemma v2_run_maximum (w : World) (sat : Satellite w) (norad_id : Z)
    (observer_lat observer_lon : Q) (start_time_utc end_time_utc : Time)
    (step_seconds : Z) (observer_elev min_elevation : Q) (fuel : nat)
    (out : V2.Output) (p : V2.Pass) :
  V2.run w sat norad_id observer_lat observer_lon start_time_utc
         end_time_utc step_seconds observer_elev min_elevation fuel
  = Returns out ->
  In p (V2.passes (V2.passes_output out)) ->
  maximum (map round2
             (v2_raw_elevations
                (V2.geometry w sat observer_lat observer_lon observer_elev)
                out p))
  = Some (V2.max_elevation p).
Proof.
  intros Hrun Hp.
  pose proof (v2_run_entries _ _ _ _ _ _ _ _ _ _ _ _ Hrun) as Hent.
  destruct (v2_run_spec _ _ _ _ _ _ _ _ _ _ _ _ Hrun) as [Hps [_ Hrec]].
  destruct (inv_segment
              (V2.geometry w sat observer_lat observer_lon observer_elev)
              min_elevation round2
              (sweep_instants start_time_utc end_time_utc step_seconds)
              start_time_utc) as [b HI].
  { apply sweep_instants_increasing.
    apply (v2_run_inversion _ _ _ _ _ _ _ _ _ _ _ _ Hrun). }
  pose proof (end_maximum b _ HI (spec_of_v2 p)) as Hmax.
  rewrite <- Hps, <- Hrec in Hmax.
  specialize (Hmax (in_map _ _ _ Hp)). simpl in Hmax.
  rewrite elevations_of_map in Hmax.
  unfold v2_raw_elevations. rewrite map_map, <- Hmax. f_equal.
  apply map_ext_in. intros e He. apply filter_In in He as [He _].
  rewrite Forall_forall in Hent. destruct (Hent e He) as [g [Hg _]].
  rewrite (sample_at_elevation _ _ _ _ g Hg). reflexivity.
Qed.

(** C5, as amended.  Each numeric field of an ephemeris record is the
    value of the geometry rounded once, when the record is made:
    latitude and longitude to 6 decimals, elevation, azimuth and
    distance to 3, the height to 2 (metres, first program) or 3
    (kilometres, second program).  The [max_elevation] of a pass is, in
    the first program, the greatest raw elevation of its samples, not
    rounded, and its duration is not rounded either; in the second
    program it is the greatest of the elevations of its samples each
    rounded to two decimals, which is the rounding to two decimals of
    the greatest raw elevation, and the duration is rounded to one
    decimal. *)
Theorem C5_rounding_of_report_fields :
  forall (w : World) (fuel : nat) (tle_line1 tle_line2 : string)
         (norad_id : Z) (observer_lat observer_lon : Q)
         (start_time_utc end_time_utc : Time) (step_seconds : Z)
         (observer_elev min_elevation : Q),
  (forall satellite out,
     EarthSatellite w tle_line1 tle_line2 = Some satellite ->
     V1.calculate_and_save_data w fuel tle_line1 tle_line2 observer_lat
       observer_lon start_time_utc end_time_utc step_seconds observer_elev
       min_elevation = Returns out ->
     let geometry :=
       V1.geometry w satellite observer_lat observer_lon observer_elev in
     (forall e, In e (V1.ephemeris (V1.ephemeris_output out)) ->
        exists g, geometry (V1.timestamp e) = Some g /\
          V1.lat (V1.geodesic e) = Py.round (latitude_degrees (sub g)) 6 /\
          V1.lon (V1.geodesic e) = Py.round (longitude_degrees (sub g)) 6 /\
          V1.height_m (V1.geodesic e) = Py.round (elevation_m_of (sub g)) 2 /\
          V1.elevation (V1.relative e) = Py.round (alt_degrees g) 3 /\
          V1.azimuth (V1.relative e) = Py.round (az_degrees g) 3 /\
          V1.rel_distance_km (V1.relative e)
          = Py.round (distance_km g) 3) /\
     (forall p, In p (V1.passes (V1.passes_output out)) ->
        maximum (v1_raw_elevations geometry out p)
        = Some (V1.max_elevation p) /\
        V1.duration_sec p = Py.total_seconds (V1.end_ p - V1.start p))) /\
  (forall satellite out,
     V2.get_tle w norad_id = Some satellite ->
     V2.calculate_and_save_data w fuel norad_id observer_lat
       observer_lon start_time_utc end_time_utc step_seconds observer_elev
       min_elevation = Returns out ->
     let geometry :=
       V2.geometry w satellite observer_lat observer_lon observer_elev in
     (forall e, In e (V2.ephemeris (V2.ephemeris_output out)) ->
        exists g, geometry (V2.timestamp e) = Some g /\
          V2.latitude (V2.geodetic e)
          = Py.round (latitude_degrees (sub g)) 6 /\
          V2.longitude (V2.geodetic e)
          = Py.round (longitude_degrees (sub g)) 6 /\
          V2.altitude_km (V2.geodetic e)
          = Py.round (elevation_km_of (sub g)) 3 /\
          V2.elevation (V2.topocentric e) = Py.round (alt_degrees g) 3 /\
          V2.azimuth (V2.topocentric e) = Py.round (az_degrees g) 3 /\
          V2.topo_distance_km (V2.topocentric e)
          = Py.round (distance_km g) 3) /\
     (forall p, In p (V2.passes (V2.passes_output out)) ->
        maximum (map (fun x => Py.round x 2)
                     (v2_raw_elevations geometry out p))
        = Some (V2.max_elevation p) /\
        (exists m, maximum (v2_raw_elevations geometry out p) = Some m /\
                   V2.max_elevation p = Py.round m 2) /\
        V2.duration_sec p
        = Some (Py.round (Py.total_seconds (V2.end_ p - V2.start p)) 1))).
Proof.
  intros w fuel tle_line1 tle_line2 norad_id observer_lat observer_lon
         start_time_utc end_time_utc step_seconds observer_elev
         min_elevation.
  split; intros satellite out Hsat Hcall geometry.
  - unfold V1.calculate_and_save_data in Hcall. rewrite Hsat in Hcall.
    split.
    + intros e He.
      pose proof (v1_run_entries _ _ _ _ _ _ _ _ _ _ _ Hcall) as Hent.
      rewrite Forall_forall in Hent.
      destruct (Hent e He) as [g [Hg [_ Ee]]].
      exists g. split; trivial. rewrite Ee. simpl. repeat split.
    + intros p Hp. split.
      * apply (v1_run_maximum _ _ _ _ _ _ _ _ _ _ _ _ Hcall Hp).
      * pose proof (v1_run_durations _ _ _ _ _ _ _ _ _ _ _ Hcall) as Hd.
        rewrite Forall_forall in Hd. apply Hd, Hp.
  - unfold V2.calculate_and_save_data in Hcall. rewrite Hsat in Hcall.
    split.
    + intros e He.
      pose proof (v2_run_entries _ _ _ _ _ _ _ _ _ _ _ _ Hcall) as Hent.
      rewrite Forall_forall in Hent.
      destruct (Hent e He) as [g [Hg [_ Ee]]].
      exists g. split; trivial. rewrite Ee. simpl. repeat split.
    + intros p Hp.
      pose proof (v2_run_maximum _ _ _ _ _ _ _ _ _ _ _ _ _ Hcall Hp) as Hm.
      split; [exact Hm | split].
      * apply maximum_round2 in Hm as [m [Hm ->]]. exists m. auto.
      * pose proof (v2_run_durations _ _ _ _ _ _ _ _ _ _ _ _ Hcall) as Hd.
        rewrite Forall_forall in Hd. apply Hd, Hp.
Qed.

Lemma C5_rounding_of_report_fields_witness :
  exists out p,
    V2.calculate_and_save_data demo_world 20 25544 0 0 0 (seconds 6) 1 0 10
    = Returns out /\
    nth_error (V2.passes (V2.passes_output out)) 0 = Some p /\
    maximum (v2_raw_elevations (V2.geometry demo_world tt 0 0 0) out p)
    = Some 12.126%Q /\
    V2.max_elevation p = Py.round 12.126 2.
Proof.
  destruct (C5_rounding_of_report_fields demo_world 20 "" "" 25544 0 0 0
              (seconds 6) 1 0 10) as [_ H2].
  eexists _, _.
  split; [vm_compute; reflexivity |].
  split; [vm_compute; reflexivity |].
  edestruct H2 as [_ Hp]; [reflexivity | vm_compute; reflexivity |].
  edestruct Hp as [_ [[m [Hm Hr]] _]]; [left; reflexivity |].
  split; [vm_compute; reflexivity |].
  vm_compute. reflexivity.
Defined.

(** C5 as stated fails for the first program: a pass whose only sample
    has elevation 10.12345 is reported with [max_elevation] 10.12345,
    which is rounded neither to two nor to three decimals. *)
Lemma C5_first_program_unrounded_counterexample :
  ~ (forall out,
       V1.calculate_and_save_data (table_world [Some 10.12345%Q]) 5 "" ""
         0 0 0 0 1 0 10 = Returns out ->
       forall p, In p (V1.passes (V1.passes_output out)) ->
       exists m n,
         (n = 2 \/ n = 3)%nat /\
         maximum (v1_raw_elevations
                    (V1.geometry (table_world [Some 10.12345%Q]) tt 0 0 0)
                    out p) = Some m /\
         (V1.max_elevation p == Py.round m n)%Q).
Proof.
  intros H. specialize (H _ ltac:(vm_compute; reflexivity)).
  edestruct H as [m [n [Hn [Hm Hr]]]]; [left; reflexivity |].
  vm_compute in Hm. injection Hm as <-.
  destruct Hn as [-> | ->]; vm_compute in Hr; discriminate Hr.
Qed.

Lemma non_overlapping_map {A B : Type} (f : A -> B)
    (sa ea : A -> Time) (sb eb : B -> Time) (l : list A) :
  (forall a, sb (f a) = sa a) -> (forall a, eb (f a) = ea a) ->
  non_overlapping sb eb (map f l) -> non_overlapping sa ea l.
Proof.
  intros Hs He [H1 [H2 H3]]. repeat split.
  - intros i j p q Hij Hi Hj. rewrite <- !Hs.
    apply (H1 i j); trivial; apply map_nth_error; trivial.
  - intros i p q Hi Hj. rewrite <- He, <- Hs.
    apply (H2 i); apply map_nth_error; trivial.
  - intros p Hp. rewrite <- Hs, <- He. apply H3, in_map, Hp.
Qed.

Lemma segment_idle (xs : list Spec.Sample) :
  Spec.phase (Spec.segment xs) = Spec.IDLE.
Proof. apply end_of_sweep_idle. Qed.

(** The invariant at the end of a run of the first program. *)
Lemma v1_run_inv (w : World) (satellite : Satellite w)
    (observer_lat observer_lon : Q) (start_time_utc end_time_utc : Time)
    (step_seconds : Z) (observer_elev min_elevation : Q) (fuel : nat)
    (out : V1.Output) :
  V1.run w satellite observer_lat observer_lon start_time_utc end_time_utc
         step_seconds observer_elev min_elevation fuel = Returns out ->
  exists b,
    Inv b (Spec.segment
             (stream (V1.geometry w satellite observer_lat observer_lon
                                  observer_elev)
                     min_elevation (fun x => x)
                     (sweep_instants start_time_utc end_time_utc
                                     step_seconds))).
Proof.
  intros Hrun. apply (inv_segment _ _ _ _ start_time_utc).
  apply sweep_instants_increasing.
  apply (v1_run_inversion _ _ _ _ _ _ _ _ _ _ _ Hrun).
Qed.

Lemma v2_run_inv (w : World) (sat : Satellite w) (norad_id : Z)
    (observer_lat observer_lon : Q) (start_time_utc end_time_utc : Time)
    (step_seconds : Z) (observer_elev min_elevation : Q) (fuel : nat)
    (out : V2.Output) :
  V2.run w sat norad_id observer_lat observer_lon start_time_utc
         end_time_utc step_seconds observer_elev min_elevation fuel
  = Returns out ->
  exists b,
    Inv b (Spec.segment
             (stream (V2.geometry w sat observer_lat observer_lon
                                  observer_elev)
                     min_elevation round2
                     (sweep_instants start_time_utc end_time_utc
                                     step_seconds))).
Proof.
  intros Hrun. apply (inv_segment _ _ _ _ start_time_utc).
  apply sweep_instants_increasing.
  apply (v2_run_inversion _ _ _ _ _ _ _ _ _ _ _ _ Hrun).
Qed.

(** C6.  In every passes report that either program writes, the passes
    are in the order of their start times, each pass ends before the
    next one starts, and no pass ends before it starts. *)
Theorem C6_passes_ordered_and_disjoint :
  forall (w : World) (fuel : nat) (tle_line1 tle_line2 : string)
         (norad_id : Z) (observer_lat observer_lon : Q)
         (start_time_utc end_time_utc : Time) (step_seconds : Z)
         (observer_elev min_elevation : Q),
  (forall out,
     V1.calculate_and_save_data w fuel tle_line1 tle_line2 observer_lat
       observer_lon start_time_utc end_time_utc step_seconds observer_elev
       min_elevation = Returns out ->
     non_overlapping V1.start V1.end_ (V1.passes (V1.passes_output out))) /\
  (forall out,
     V2.calculate_and_save_data w fuel norad_id observer_lat
       observer_lon start_time_utc end_time_utc step_seconds observer_elev
       min_elevation = Returns out ->
     non_overlapping V2.start V2.end_ (V2.passes (V2.passes_output out))).
Proof.
  intros. split; intros out Hcall.
  - apply v1_call_inversion in Hcall as [satellite [_ Hrun]].
    destruct (v1_run_inv _ _ _ _ _ _ _ _ _ _ _ Hrun) as [b HI].
    destruct (v1_run_spec _ _ _ _ _ _ _ _ _ _ _ Hrun) as [Hps _].
    apply (non_overlapping_map spec_of_v1 _ _ Spec.start_time Spec.end_time);
      try reflexivity.
    rewrite Hps. apply (end_non_overlapping b); trivial.
  - apply v2_call_inversion in Hcall as [satellite [_ Hrun]].
    destruct (v2_run_inv _ _ _ _ _ _ _ _ _ _ _ _ Hrun) as [b HI].
    destruct (v2_run_spec _ _ _ _ _ _ _ _ _ _ _ _ Hrun) as [Hps _].
    apply (non_overlapping_map spec_of_v2 _ _ Spec.start_time Spec.end_time);
      try reflexivity.
    rewrite Hps. apply (end_non_overlapping b); trivial.
Qed.

Lemma C6_passes_ordered_and_disjoint_witness :
  exists out,
    V1.calculate_and_save_data demo_world 20 "" "" 0 0 0 (seconds 6) 1 0 10
    = Returns out /\
    List.length (V1.passes (V1.passes_output out)) = 2%nat /\
    non_overlapping V1.start V1.end_ (V1.passes (V1.passes_output out)).
Proof.
  eexists. split; [vm_compute; reflexivity |].
  split; [reflexivity |].
  apply (proj1 (C6_passes_ordered_and_disjoint demo_world 20 "" "" 25544
                  0 0 0 (seconds 6) 1 0 10)).
  vm_compute. reflexivity.
Defined.

Lemma ids_upto_nth (n i : nat) (x : Z) :
  nth_error (ids_upto n) i = Some x -> x = Z.of_nat (S i).
Proof.
  intros H.
  assert (Hi : (i < n)%nat).
  { rewrite <- (ids_upto_length n). apply nth_error_Some. congruence. }
  unfold ids_upto in H. rewrite nth_error_map in H.
  destruct (nth_error (seq 1 n) i) as [k |] eqn:E; [| discriminate].
  injection H as <-.
  apply (nth_error_nth _ _ O) in E. rewrite seq_nth in E by trivial.
  subst k. reflexivity.
Qed.

Lemma filter_map_length {A B : Type} (f : A -> B) (g : B -> bool)
    (l : list A) :
  List.length (filter g (map f l))
  = List.length (filter (fun a => g (f a)) l).
Proof.
  induction l as [| a l IH]; simpl; trivial.
  destruct (g (f a)); simpl; rewrite IH; reflexivity.
Qed.

Lemma v1_run_counter (w : World) (satellite : Satellite w)
    (observer_lat observer_lon : Q) (start_time_utc end_time_utc : Time)
    (step_seconds : Z) (observer_elev min_elevation : Q) (fuel : nat)
    (out : V1.Output) :
  V1.run w satellite observer_lat observer_lon start_time_utc end_time_utc
         step_seconds observer_elev min_elevation fuel = Returns out ->
  exists st,
    sweep (V1.body w satellite observer_lat observer_lon observer_elev
                   min_elevation)
          end_time_utc step_seconds fuel V1.initial start_time_utc
    = Some st /\
    V1.total_passes (V1.passes_output out) = V1.pass_counter st.
Proof.
  unfold V1.run.
  destruct (sweep _ _ _ fuel V1.initial start_time_utc) as [st |];
    [| discriminate].
  intros [= <-]. exists st. split; trivial. simpl.
  unfold V1.finish. destruct (V1.current_pass st); reflexivity.
Qed.

Lemma v2_run_counter (w : World) (sat : Satellite w) (norad_id : Z)
    (observer_lat observer_lon : Q) (start_time_utc end_time_utc : Time)
    (step_seconds : Z) (observer_elev min_elevation : Q) (fuel : nat)
    (out : V2.Output) :
  V2.run w sat norad_id observer_lat observer_lon start_time_utc
         end_time_utc step_seconds observer_elev min_elevation fuel
  = Returns out ->
  exists st,
    sweep (V2.body w sat observer_lat observer_lon observer_elev
                   min_elevation)
          end_time_utc step_seconds fuel V2.initial start_time_utc
    = Some st /\
    V2.total_passes (V2.statistics (V2.passes_output out))
    = V2.pass_number st.
Proof.
  unfold V2.run.
  destruct (sweep _ _ _ fuel V2.initial start_time_utc) as [st |];
    [| discriminate].
  intros H. apply v2_outputs_fields in H as [_ [-> _]].
  exists st. split; trivial.
  unfold V2.finish. destruct (V2.current_pass st); reflexivity.
Qed.

(** C7.  In every passes report that either program writes, the
    [pass_id]s of the list are 1, 2, ..., [total_passes] in the order of
    the list, which is the order of the start times; [total_passes] is
    the value of the pass counter when the loop ends, and the number of
    passes in the list. *)
Theorem C7_pass_ids_count_up :
  forall (w : World) (fuel : nat) (tle_line1 tle_line2 : string)
         (norad_id : Z) (observer_lat observer_lon : Q)
         (start_time_utc end_time_utc : Time) (step_seconds : Z)
         (observer_elev min_elevation : Q),
  (forall out,
     V1.calculate_and_save_data w fuel tle_line1 tle_line2 observer_lat
       observer_lon start_time_utc end_time_utc step_seconds observer_elev
       min_elevation = Returns out ->
     let passes := V1.passes (V1.passes_output out) in
     let total_passes := V1.total_passes (V1.passes_output out) in
     map V1.pass_id passes = ids_upto (List.length passes) /\
     total_passes = Z.of_nat (List.length passes) /\
     (forall i p, nth_error passes i = Some p ->
                  V1.pass_id p = Z.of_nat i + 1) /\
     (forall i j p q, (i < j)%nat ->
        nth_error passes i = Some p -> nth_error passes j = Some q ->
        V1.start p < V1.start q) /\
     (exists satellite st,
        EarthSatellite w tle_line1 tle_line2 = Some satellite /\
        sweep (V1.body w satellite observer_lat observer_lon observer_elev
                       min_elevation)
              end_time_utc step_seconds fuel V1.initial start_time_utc
        = Some st /\
        total_passes = V1.pass_counter st)) /\
  (forall out,
     V2.calculate_and_save_data w fuel norad_id observer_lat
       observer_lon start_time_utc end_time_utc step_seconds observer_elev
       min_elevation = Returns out ->
     let passes := V2.passes (V2.passes_output out) in
     let total_passes :=
       V2.total_passes (V2.statistics (V2.passes_output out)) in
     map V2.pass_id passes = ids_upto (List.length passes) /\
     total_passes = Z.of_nat (List.length passes) /\
     (forall i p, nth_error passes i = Some p ->
                  V2.pass_id p = Z.of_nat i + 1) /\
     (forall i j p q, (i < j)%nat ->
        nth_error passes i = Some p -> nth_error passes j = Some q ->
        V2.start p < V2.start q) /\
     (exists satellite st,
        V2.get_tle w norad_id = Some satellite /\
        sweep (V2.body w satellite observer_lat observer_lon observer_elev
                       min_elevation)
              end_time_utc step_seconds fuel V2.initial start_time_utc
        = Some st /\
        total_passes = V2.pass_number st)).
Proof.
  intros. split; intros out Hcall passes total_passes.
  - apply v1_call_inversion in Hcall as [satellite [Hsat Hrun]].
    destruct (v1_run_inv _ _ _ _ _ _ _ _ _ _ _ Hrun) as [b HI].
    destruct (v1_run_spec _ _ _ _ _ _ _ _ _ _ _ Hrun) as [Hps [Hc _]].
    destruct (end_ids b _ HI (segment_idle _)) as [Hids Hn].
    pose proof (end_non_overlapping b _ HI) as Hno.
    rewrite <- Hps in Hids, Hn, Hno.
    rewrite map_map, length_map in Hids. rewrite length_map in Hn.
    apply (non_overlapping_map spec_of_v1 V1.start V1.end_) in Hno;
      try reflexivity.
    assert (Hids' : map V1.pass_id passes = ids_upto (List.length passes))
      by exact Hids.
    repeat split; trivial.
    + unfold total_passes. rewrite Hc. exact Hn.
    + intros i p Hi. apply (map_nth_error V1.pass_id) in Hi.
      rewrite Hids' in Hi. apply ids_upto_nth in Hi. lia.
    + apply Hno.
    + destruct (v1_run_counter _ _ _ _ _ _ _ _ _ _ _ Hrun) as [st [Hs Ht]].
      exists satellite, st. auto.
  - apply v2_call_inversion in Hcall as [satellite [Hsat Hrun]].
    destruct (v2_run_inv _ _ _ _ _ _ _ _ _ _ _ _ Hrun) as [b HI].
    destruct (v2_run_spec _ _ _ _ _ _ _ _ _ _ _ _ Hrun) as [Hps [Hc _]].
    destruct (end_ids b _ HI (segment_idle _)) as [Hids Hn].
    pose proof (end_non_overlapping b _ HI) as Hno.
    rewrite <- Hps in Hids, Hn, Hno.
    rewrite map_map, length_map in Hids. rewrite length_map in Hn.
    apply (non_overlapping_map spec_of_v2 V2.start V2.end_) in Hno;
      try reflexivity.
    assert (Hids' : map V2.pass_id passes = ids_upto (List.length passes))
      by exact Hids.
    repeat split; trivial.
    + unfold total_passes. rewrite Hc. exact Hn.
    + intros i p Hi. apply (map_nth_error V2.pass_id) in Hi.
      rewrite Hids' in Hi. apply ids_upto_nth in Hi. lia.
    + apply Hno.
    + destruct (v2_run_counter _ _ _ _ _ _ _ _ _ _ _ _ Hrun) as [st [Hs Ht]].
      exists satellite, st. auto.
Qed.

Lemma C7_pass_ids_count_up_witness :
  exists out,
    V2.calculate_and_save_data demo_world 20 25544 0 0 0 (seconds 6) 1 0 10
    = Returns out /\
    map V2.pass_id (V2.passes (V2.passes_output out)) = [1; 2] /\
    V2.total_passes (V2.statistics (V2.passes_output out)) = 2.
Proof.
  eexists. split; [vm_compute; reflexivity |].
  destruct (proj2 (C7_pass_ids_count_up demo_world 20 "" "" 25544
                     0 0 0 (seconds 6) 1 0 10) _
              ltac:(vm_compute; reflexivity))
    as [Hids [Htotal _]].
  split; [exact Hids | exact Htotal].
Defined.

(** C8.  In what either program writes, every record of the ephemeris
    carries the [pass_id] of exactly one pass of the pass list, the
    records of a pass still open when the sweep ends included. *)
Theorem C8_ephemeris_closure :
  forall (w : World) (fuel : nat) (tle_line1 tle_line2 : string)
         (norad_id : Z) (observer_lat observer_lon : Q)
         (start_time_utc end_time_utc : Time) (step_seconds : Z)
         (observer_elev min_elevation : Q),
  (forall out e,
     V1.calculate_and_save_data w fuel tle_line1 tle_line2 observer_lat
       observer_lon start_time_utc end_time_utc step_seconds observer_elev
       min_elevation = Returns out ->
     In e (V1.ephemeris (V1.ephemeris_output out)) ->
     List.length
       (filter (fun p => V1.pass_id p =? V1.entry_pass_id e)
               (V1.passes (V1.passes_output out))) = 1%nat) /\
  (forall out e,
     V2.calculate_and_save_data w fuel norad_id observer_lat
       observer_lon start_time_utc end_time_utc step_seconds observer_elev
       min_elevation = Returns out ->
     In e (V2.ephemeris (V2.ephemeris_output out)) ->
     List.length
       (filter (fun p => V2.pass_id p =? V2.entry_pass_id e)
               (V2.passes (V2.passes_output out))) = 1%nat).
Proof.
  intros. split; intros out e Hcall He.
  - apply v1_call_inversion in Hcall as [satellite [Hsat Hrun]].
    destruct (v1_run_inv _ _ _ _ _ _ _ _ _ _ _ Hrun) as [b HI].
    destruct (v1_run_spec _ _ _ _ _ _ _ _ _ _ _ Hrun) as [Hps [_ Hrec]].
    pose proof (end_closure b _ HI (segment_idle _)) as Hcl.
    rewrite <- Hps, <- Hrec in Hcl.
    specialize (Hcl _ (in_map _ _ _ He)).
    rewrite filter_map_length in Hcl. exact Hcl.
  - apply v2_call_inversion in Hcall as [satellite [Hsat Hrun]].
    destruct (v2_run_inv _ _ _ _ _ _ _ _ _ _ _ _ Hrun) as [b HI].
    destruct (v2_run_spec _ _ _ _ _ _ _ _ _ _ _ _ Hrun) as [Hps [_ Hrec]].
    pose proof (end_closure b _ HI (segment_idle _)) as Hcl.
    rewrite <- Hps, <- Hrec in Hcl.
    specialize (Hcl _ (in_map _ _ _ He)).
    rewrite filter_map_length in Hcl. exact Hcl.
Qed.

Lemma C8_ephemeris_closure_witness :
  exists out e,
    V1.calculate_and_save_data demo_world 20 "" "" 0 0 0 (seconds 6) 1 0 10
    = Returns out /\
    nth_error (V1.ephemeris (V1.ephemeris_output out)) 3 = Some e /\
    V1.timestamp e = seconds 6 /\
    List.length
      (filter (fun p => V1.pass_id p =? V1.entry_pass_id e)
              (V1.passes (V1.passes_output out))) = 1%nat.
Proof.
  eexists _, _. split; [vm_compute; reflexivity |].
  split; [vm_compute; reflexivity |].
  split; [reflexivity |].
  apply (proj1 (C8_ephemeris_closure demo_world 20 "" "" 25544
                  0 0 0 (seconds 6) 1 0 10)).
  - vm_compute. reflexivity.
  - do 3 right. left. reflexivity.
Defined.

Lemma visible_at_iff (geometry : Time -> option Geometry)
    (min_elevation : Q) (t : Time) :
  visible_at geometry min_elevation t = true <->
  exists g, geometry t = Some g /\ is_nan g = false /\
            (min_elevation <= alt_degrees g)%Q.
Proof.
  unfold visible_at. destruct (geometry t) as [g |]; split.
  - intros H. exists g. split; trivial. apply at_or_above_iff, H.
  - intros [g' [[= <-] H]]. apply at_or_above_iff, H.
  - discriminate.
  - intros [g' [H _]]. discriminate.
Qed.

(** The first program never classifies NaNs: the step has failed. *)
Lemma v1_geometry_number (w : World) (satellite : Satellite w)
    (observer_lat observer_lon observer_elev : Q) (t : Time) (g : Geometry) :
  V1.geometry w satellite observer_lat observer_lon observer_elev t = Some g ->
  is_nan g = false.
Proof.
  unfold V1.geometry. intros H.
  destruct (satellite_at w satellite t) as [pos |]; [| discriminate].
  destruct (position_is_nan w pos); [discriminate |].
  destruct (observer_at w observer_lat observer_lon observer_elev _);
    [| discriminate].
  destruct (altaz w pos _) as [[[alt az] dist] |]; [| discriminate].
  destruct (subpoint w pos); [| discriminate].
  injection H as <-. reflexivity.
Qed.

Lemma v1_classify_visible (min_elevation : Q) (st : V1.State) (t : Time)
    (g : Geometry) :
  let st' := V1.classify min_elevation st t g in
  (at_or_above min_elevation g = true ->
     (exists p, V1.current_pass st' = Some p /\ V1.end_ p = t) /\
     (exists e, V1.ephemeris_data st' = V1.ephemeris_data st ++ [e] /\
                V1.timestamp e = t)) /\
  (at_or_above min_elevation g = false ->
     V1.current_pass st' = None /\
     V1.ephemeris_data st' = V1.ephemeris_data st).
Proof.
  unfold V1.classify. split; intros H; rewrite H.
  - destruct (V1.current_pass st); simpl; split; eauto.
  - destruct (V1.current_pass st) eqn:Hc; simpl; auto.
Qed.

Lemma v2_classify_visible (min_elevation : Q) (st : V2.State) (t : Time)
    (g : Geometry) :
  let st' := V2.classify min_elevation st t g in
  (at_or_above min_elevation g = true ->
     (exists p, V2.current_pass st' = Some p /\ V2.end_ p = t) /\
     (exists e, V2.ephemeris_data st' = V2.ephemeris_data st ++ [e] /\
                V2.timestamp e = t)) /\
  (at_or_above min_elevation g = false ->
     V2.current_pass st' = None /\
     V2.ephemeris_data st' = V2.ephemeris_data st).
Proof.
  unfold V2.classify. split; intros H; rewrite H.
  - destruct (V2.current_pass st); simpl; split; eauto.
  - destruct (V2.current_pass st) eqn:Hc; simpl; auto.
Qed.

(** C9.  In both programs a computed sample is treated as visible (a
    pass is open after it, ending at its instant, and it has an
    ephemeris record) exactly when its elevation is at least
    [min_elevation]; otherwise no pass is open after it and it has no
    record.  The ephemeris of a report holds the instants of the sweep
    whose geometry was computed with an elevation at or above the
    threshold, and no others; an elevation equal to the threshold
    counts as visible.  An elevation that is NaN compares false with
    every threshold: the sample is not visible. *)
Theorem C9_threshold_inclusive :
  forall (w : World) (fuel : nat) (tle_line1 tle_line2 : string)
         (norad_id : Z) (observer_lat observer_lon : Q)
         (start_time_utc end_time_utc : Time) (step_seconds : Z)
         (observer_elev min_elevation : Q),
  (forall st t g,
     let st' := V1.classify min_elevation st t g in
     (is_nan g = false -> (min_elevation <= alt_degrees g)%Q ->
        (exists p, V1.current_pass st' = Some p /\ V1.end_ p = t) /\
        (exists e, V1.ephemeris_data st' = V1.ephemeris_data st ++ [e] /\
                   V1.timestamp e = t)) /\
     (~ (min_elevation <= alt_degrees g)%Q ->
        V1.current_pass st' = None /\
        V1.ephemeris_data st' = V1.ephemeris_data st) /\
     (is_nan g = true ->
        V1.current_pass st' = None /\
        V1.ephemeris_data st' = V1.ephemeris_data st) /\
     (is_nan g = false -> (alt_degrees g == min_elevation)%Q ->
        exists p, V1.current_pass st' = Some p /\ V1.end_ p = t)) /\
  (forall st t g,
     let st' := V2.classify min_elevation st t g in
     (is_nan g = false -> (min_elevation <= alt_degrees g)%Q ->
        (exists p, V2.current_pass st' = Some p /\ V2.end_ p = t) /\
        (exists e, V2.ephemeris_data st' = V2.ephemeris_data st ++ [e] /\
                   V2.timestamp e = t)) /\
     (~ (min_elevation <= alt_degrees g)%Q ->
        V2.current_pass st' = None /\
        V2.ephemeris_data st' = V2.ephemeris_data st) /\
     (is_nan g = true ->
        V2.current_pass st' = None /\
        V2.ephemeris_data st' = V2.ephemeris_data st) /\
     (is_nan g = false -> (alt_degrees g == min_elevation)%Q ->
        exists p, V2.current_pass st' = Some p /\ V2.end_ p = t)) /\
  (forall satellite out t,
     EarthSatellite w tle_line1 tle_line2 = Some satellite ->
     V1.calculate_and_save_data w fuel tle_line1 tle_line2 observer_lat
       observer_lon start_time_utc end_time_utc step_seconds observer_elev
       min_elevation = Returns out ->
     (In t (map V1.timestamp (V1.ephemeris (V1.ephemeris_output out))) <->
      In t (sweep_instants start_time_utc end_time_utc step_seconds) /\
      exists g,
        V1.geometry w satellite observer_lat observer_lon observer_elev t
        = Some g /\
        (min_elevation <= alt_degrees g)%Q)) /\
  (forall satellite out t,
     V2.get_tle w norad_id = Some satellite ->
     V2.calculate_and_save_data w fuel norad_id observer_lat
       observer_lon start_time_utc end_time_utc step_seconds observer_elev
       min_elevation = Returns out ->
     (In t (map V2.timestamp (V2.ephemeris (V2.ephemeris_output out))) <->
      In t (sweep_instants start_time_utc end_time_utc step_seconds) /\
      exists g,
        V2.geometry w satellite observer_lat observer_lon observer_elev t
        = Some g /\
        is_nan g = false /\
        (min_elevation <= alt_degrees g)%Q)).
Proof.
  intros w fuel tle_line1 tle_line2 norad_id observer_lat observer_lon
         start_time_utc end_time_utc step_seconds observer_elev
         min_elevation.
  split; [| split; [| split]].
  - intros st t g st'.
    destruct (v1_classify_visible min_elevation st t g) as [Hv Hn].
    split; [| split; [| split]].
    + intros Hnum Hle. apply Hv, at_or_above_number; trivial.
    + intros Hlt. apply Hn, at_or_above_below, Hlt.
    + intros Hnan. apply Hn, at_or_above_nan, Hnan.
    + intros Hnum E. apply Hv, at_or_above_number; trivial.
      rewrite E. apply Qle_refl.
  - intros st t g st'.
    destruct (v2_classify_visible min_elevation st t g) as [Hv Hn].
    split; [| split; [| split]].
    + intros Hnum Hle. apply Hv, at_or_above_number; trivial.
    + intros Hlt. apply Hn, at_or_above_below, Hlt.
    + intros Hnan. apply Hn, at_or_above_nan, Hnan.
    + intros Hnum E. apply Hv, at_or_above_number; trivial.
      rewrite E. apply Qle_refl.
  - intros satellite out t Hsat Hcall.
    unfold V1.calculate_and_save_data in Hcall. rewrite Hsat in Hcall.
    rewrite (v1_run_timestamps _ _ _ _ _ _ _ _ _ _ _ Hcall).
    rewrite filter_In, visible_at_iff.
    split; intros [Hin [g [Hg H]]]; (split; [exact Hin |]); exists g.
    + split; [exact Hg | apply H].
    + split; [exact Hg |]. split; [| exact H].
      apply (v1_geometry_number _ _ _ _ _ _ _ Hg).
  - intros satellite out t Hsat Hcall.
    unfold V2.calculate_and_save_data in Hcall. rewrite Hsat in Hcall.
    rewrite (v2_run_timestamps _ _ _ _ _ _ _ _ _ _ _ _ Hcall).
    rewrite filter_In, visible_at_iff. reflexivity.
Qed.

(** At second 5 of the sweep the elevation is 10, the threshold. *)
Lemma C9_threshold_inclusive_witness :
  exists out,
    V1.calculate_and_save_data demo_world 20 "" "" 0 0 0 (seconds 6) 1 0 10
    = Returns out /\
    In (seconds 5)
       (map V1.timestamp (V1.ephemeris (V1.ephemeris_output out))).
Proof.
  eexists. split; [vm_compute; reflexivity |].
  destruct (C9_threshold_inclusive demo_world 20 "" "" 25544
              0 0 0 (seconds 6) 1 0 10) as [_ [_ [H _]]].
  apply (H tt _ (seconds 5) eq_refl ltac:(vm_compute; reflexivity)).
  split.
  - vm_compute. do 5 right. left. reflexivity.
  - eexists. split; [vm_compute; reflexivity |].
    vm_compute. discriminate.
Defined.

(** C10, as amended.  Every pass of the first program has a
    [max_elevation] of at least [min_elevation].  In the second
    program, which rounds each elevation to two decimals before the
    maximum is taken, the [max_elevation] of a pass can fall below the
    threshold, by less than one unit of the second decimal:
    [max_elevation > min_elevation - 0.01]. *)
Theorem C10_max_elevation_lower_bound :
  forall (w : World) (fuel : nat) (tle_line1 tle_line2 : string)
         (norad_id : Z) (observer_lat observer_lon : Q)
         (start_time_utc end_time_utc : Time) (step_seconds : Z)
         (observer_elev min_elevation : Q),
  (forall out p,
     V1.calculate_and_save_data w fuel tle_line1 tle_line2 observer_lat
       observer_lon start_time_utc end_time_utc step_seconds observer_elev
       min_elevation = Returns out ->
     In p (V1.passes (V1.passes_output out)) ->
     (min_elevation <= V1.max_elevation p)%Q) /\
  (forall out p,
     V2.calculate_and_save_data w fuel norad_id observer_lat
       observer_lon start_time_utc end_time_utc step_seconds observer_elev
       min_elevation = Returns out ->
     In p (V2.passes (V2.passes_output out)) ->
     (min_elevation - (1 # 100) < V2.max_elevation p)%Q).
Proof.
  intros. split; intros out p Hcall Hp.
  - apply v1_call_inversion in Hcall as [satellite [_ Hrun]].
    destruct (v1_run_spec _ _ _ _ _ _ _ _ _ _ _ Hrun) as [Hps _].
    destruct (bounded_below_segment min_elevation _
                (stream_bounded
                   (V1.geometry w satellite observer_lat observer_lon
                                observer_elev)
                   min_elevation (fun x => x) min_elevation
                   (sweep_instants start_time_utc end_time_utc
                                   step_seconds)
                   (fun e H => H))) as [Hb _].
    rewrite <- Hps, Forall_forall in Hb.
    apply (Hb (spec_of_v1 p)), in_map, Hp.
  - apply v2_call_inversion in Hcall as [satellite [_ Hrun]].
    destruct (v2_run_spec _ _ _ _ _ _ _ _ _ _ _ _ Hrun) as [Hps _].
    destruct (bounded_below_segment (round2 min_elevation) _
                (stream_bounded
                   (V2.geometry w satellite observer_lat observer_lon
                                observer_elev)
                   min_elevation round2 (round2 min_elevation)
                   (sweep_instants start_time_utc end_time_utc
                                   step_seconds)
                   (fun e H => round_mono _ _ 2 H))) as [Hb _].
    rewrite <- Hps, Forall_forall in Hb.
    assert (H : (Py.round min_elevation 2 <= V2.max_elevation p)%Q)
      by (apply (Hb (spec_of_v2 p)), in_map, Hp).
    destruct (round2_near min_elevation) as [Hlo _]. lra.
Qed.

(** The second pass of each program over [demo_world], and the pass of
    the second program whose [max_elevation], 10.00, is below the
    threshold 10.003. *)
Lemma C10_max_elevation_lower_bound_witness :
  (exists out p,
     V1.calculate_and_save_data demo_world 20 "" "" 0 0 0 (seconds 6) 1 0 10
     = Returns out /\
     nth_error (V1.passes (V1.passes_output out)) 1 = Some p /\
     (10 <= V1.max_elevation p)%Q) /\
  (exists out p,
     V2.calculate_and_save_data demo_world 20 25544 0 0 0 (seconds 6) 1 0 10
     = Returns out /\
     nth_error (V2.passes (V2.passes_output out)) 1 = Some p /\
     (10 - (1 # 100) < V2.max_elevation p)%Q) /\
  (exists out p,
     V2.calculate_and_save_data (table_world [Some 10.004%Q]) 5 25544
       0 0 0 0 1 0 10.003 = Returns out /\
     nth_error (V2.passes (V2.passes_output out)) 0 = Some p /\
     (10.003 - (1 # 100) < V2.max_elevation p)%Q).
Proof.
  split; [| split].
  - eexists _, _. split; [vm_compute; reflexivity |].
    split; [vm_compute; reflexivity |].
    apply (proj1 (C10_max_elevation_lower_bound demo_world 20 "" "" 25544
                    0 0 0 (seconds 6) 1 0 10) _ _
             ltac:(vm_compute; reflexivity)).
    right. left. reflexivity.
  - eexists _, _. split; [vm_compute; reflexivity |].
    split; [vm_compute; reflexivity |].
    apply (proj2 (C10_max_elevation_lower_bound demo_world 20 "" "" 25544
                    0 0 0 (seconds 6) 1 0 10) _ _
             ltac:(vm_compute; reflexivity)).
    right. left. reflexivity.
  - eexists _, _. split; [vm_compute; reflexivity |].
    split; [vm_compute; reflexivity |].
    apply (proj2 (C10_max_elevation_lower_bound
                    (table_world [Some 10.004%Q]) 5 "" "" 25544
                    0 0 0 0 1 0 10.003) _ _
             ltac:(vm_compute; reflexivity)).
    left. reflexivity.
Defined.

(** C10 as stated fails for the second program: with the threshold
    10.003, a sample of elevation 10.004 opens a pass whose
    [max_elevation] is 10.00. *)
Lemma C10_second_program_below_threshold_counterexample :
  ~ (forall out p,
       V2.calculate_and_save_data (table_world [Some 10.004%Q]) 5 25544
         0 0 0 0 1 0 10.003 = Returns out ->
       In p (V2.passes (V2.passes_output out)) ->
       (10.003 <= V2.max_elevation p)%Q).
Proof.
  intros H.
  specialize (H _ _ ltac:(vm_compute; reflexivity) (or_introl eq_refl)).
  vm_compute in H. apply H. reflexivity.
Qed.

(** * Further properties *)

(** ** The catalogue name *)

Section CatalogueName.

Local Open Scope N_scope.

Import Celestrak.

Lemma split_head (sep : N) (s : str) :
  exists pieces, split sep s = take_until sep s :: pieces.
Proof.
  induction s as [| c s [pieces IH]]; simpl; [eauto |].
  destruct (c =? sep); [eauto |].
  rewrite IH. eauto.
Qed.

Lemma take_until_no_sep (sep : N) (s : str) :
  Forall (fun c => c <> sep) (take_until sep s).
Proof.
  induction s as [| c s IH]; simpl; [constructor |].
  destruct (N.eqb_spec c sep); [constructor |].
  constructor; trivial.
Qed.

Lemma take_until_Forall (P : N -> Prop) (sep : N) (s : str) :
  Forall P s -> Forall P (take_until sep s).
Proof.
  induction 1 as [| c s Hc _ IH]; simpl; [constructor |].
  destruct (c =? sep); constructor; trivial.
Qed.

Lemma take_until_app (sep : N) (a b : str) :
  Forall (fun c => c <> sep) a ->
  take_until sep (a ++ b) = a ++ take_until sep b.
Proof.
  induction 1 as [| c a Hc _ IH]; simpl; trivial.
  destruct (N.eqb_spec c sep); [contradiction |].
  rewrite IH. reflexivity.
Qed.

Lemma lstrip_Forall (P : N -> Prop) (s : str) :
  Forall P s -> Forall P (lstrip s).
Proof.
  induction 1 as [| c s Hc Hs IH]; simpl; [constructor |].
  destruct (isspace c); trivial. constructor; trivial.
Qed.

Lemma rstrip_Forall (P : N -> Prop) (s : str) :
  Forall P s -> Forall P (rstrip s).
Proof.
  intros H. unfold rstrip.
  apply Forall_rev, lstrip_Forall, Forall_rev, H.
Qed.

Lemma strip_Forall (P : N -> Prop) (s : str) :
  Forall P s -> Forall P (strip s).
Proof. intros H. apply rstrip_Forall, lstrip_Forall, H. Qed.

Lemma lstrip_spaces (s : str) :
  Forall (fun c => isspace c = true) s <-> lstrip s = [].
Proof.
  split.
  - induction 1 as [| c s Hc _ IH]; simpl; trivial. rewrite Hc. exact IH.
  - induction s as [| c s IH]; simpl; [constructor |].
    destruct (isspace c) eqn:Hc; [| discriminate].
    intros H. constructor; auto.
Qed.

Lemma lstrip_head (s : str) (c : N) (r : str) :
  lstrip s = c :: r -> isspace c = false.
Proof.
  induction s as [| a s IH]; simpl; [discriminate |].
  destruct (isspace a) eqn:Ha; trivial.
  intros [= <- _]. exact Ha.
Qed.

Lemma lstrip_keep (c : N) (r : str) :
  isspace c = false -> lstrip (c :: r) = c :: r.
Proof. intros H. simpl. rewrite H. reflexivity. Qed.

Lemma lstrip_app_spaces (a b : str) :
  Forall (fun c => isspace c = true) a -> lstrip (a ++ b) = lstrip b.
Proof.
  induction 1 as [| c a Hc _ IH]; simpl; trivial. rewrite Hc. exact IH.
Qed.

Lemma lstrip_app_keep (a b : str) :
  lstrip a <> [] -> lstrip (a ++ b) = lstrip a ++ b.
Proof.
  induction a as [| c a IH]; simpl; [congruence |].
  destruct (isspace c); auto.
Qed.

(** What [rstrip] removes is at the end and is white space. *)
Lemma rstrip_prefix (s : str) :
  exists tail, s = rstrip s ++ tail /\
               Forall (fun c => isspace c = true) tail.
Proof.
  unfold rstrip.
  assert (H : forall t : str, exists lead,
             t = lead ++ lstrip t /\
             Forall (fun c => isspace c = true) lead).
  { induction t as [| c t [lead [E Hl]]]; simpl.
    - exists []. split; [reflexivity | constructor].
    - destruct (isspace c) eqn:Hc.
      + exists (c :: lead). simpl. rewrite <- E. split; auto.
      + exists []. split; [reflexivity | constructor]. }
  destruct (H (rev s)) as [lead [E Hl]].
  exists (rev lead). split; [| apply Forall_rev, Hl].
  rewrite <- rev_app_distr, <- E, rev_involutive. reflexivity.
Qed.

(** A text that ends with a character that is not white space is kept
    whole by [rstrip], whatever follows being stripped by itself. *)
Lemma rstrip_app_keep (a : str) (c : N) (b : str) :
  isspace c = false ->
  rstrip ((a ++ [c]) ++ b) = (a ++ [c]) ++ rstrip b.
Proof.
  intros Hc. unfold rstrip.
  rewrite rev_app_distr, (rev_app_distr a [c]). simpl.
  destruct (lstrip (rev b)) as [| d r] eqn:E.
  - apply lstrip_spaces in E. rewrite lstrip_app_spaces by trivial.
    rewrite lstrip_keep by trivial. simpl.
    rewrite rev_involutive, app_nil_r. reflexivity.
  - rewrite lstrip_app_keep by congruence. rewrite E.
    rewrite rev_app_distr. simpl. rewrite rev_involutive. reflexivity.
Qed.

(** Stripping keeps the first character that is not white space. *)
Lemma strip_head (s : str) (c : N) (r : str) :
  lstrip s = c :: r -> exists r', strip s = c :: r'.
Proof.
  intros E. unfold strip. rewrite E.
  pose proof (lstrip_head _ _ _ E) as Hc.
  pose proof (rstrip_app_keep [] c r Hc) as K. simpl in K.
  rewrite K. eauto.
Qed.

Lemma strip_spaces (s : str) :
  Forall (fun c => isspace c = true) s <-> strip s = [].
Proof.
  split.
  - intros H. unfold strip. apply lstrip_spaces in H. rewrite H.
    reflexivity.
  - intros H. apply lstrip_spaces.
    destruct (lstrip s) as [| c r] eqn:E; trivial.
    destruct (strip_head _ _ _ E) as [r' E']. congruence.
Qed.

Lemma name_of_response (raw_data : str) (norad_id : Z) :
  contains (of_string "404 Not Found") raw_data = false ->
  get_satellite_name (Some raw_data) norad_id
  = take_until 32 (strip (take_until 10 raw_data)).
Proof.
  intros H. unfold get_satellite_name. rewrite H. cbv zeta.
  destruct (split_head 10 raw_data) as [pieces ->]. simpl.
  destruct (split_head 32 (strip (take_until 10 raw_data)))
    as [pieces' ->].
  reflexivity.
Qed.

Lemma digits_plain (d : Decimal.uint) :
  Forall (fun c => c <> 32 /\ c <> 10)
         (of_string (NilEmpty.string_of_uint d)).
Proof.
  induction d; simpl; constructor; trivial; split; discriminate.
Qed.

Lemma fallback_plain (norad_id : Z) :
  Forall (fun c => c <> 32 /\ c <> 10) (fallback norad_id).
Proof.
  unfold fallback.
  change (of_string ("SAT-" ++ NilEmpty.string_of_int (Z.to_int norad_id)))
    with (83 :: 65 :: 84 :: 45
          :: of_string (NilEmpty.string_of_int (Z.to_int norad_id))).
  repeat (constructor; [split; discriminate |]).
  destruct (Z.to_int norad_id) as [d | d]; simpl.
  - apply digits_plain.
  - constructor; [split; discriminate | apply digits_plain].
Qed.

Lemma fallback_not_empty (norad_id : Z) : fallback norad_id <> [].
Proof. unfold fallback. discriminate. Qed.

End CatalogueName.

(** X1.  When the request succeeds and the text of the response does
    not contain "404 Not Found", the name is the part of the first line
    of the response, stripped of the white space around it, that comes
    before its first space: the two [split]s and the two [[0]] never
    fail, and the last [return] is not reached. *)
Theorem X1_name_is_first_word_of_first_line :
  forall (raw_data : Celestrak.str) (norad_id : Z),
  Celestrak.contains (Celestrak.of_string "404 Not Found") raw_data
  = false ->
  Celestrak.get_satellite_name (Some raw_data) norad_id
  = take_until 32 (Celestrak.strip (take_until 10 raw_data)).
Proof. exact name_of_response. Qed.

Lemma X1_name_is_first_word_of_first_line_witness :
  Celestrak.get_satellite_name
    (Some (Celestrak.of_string "  NOAA 19   " ++ [13; 10]%N
           ++ Celestrak.of_string "1 33591U 09005A")) 33591
  = Celestrak.of_string "NOAA".
Proof.
  rewrite X1_name_is_first_word_of_first_line; reflexivity.
Defined.

(** X2.  Whatever the catalogue answers, and also when the request
    fails, the name returned holds no space and no line feed. *)
Theorem X2_name_has_no_space_nor_newline :
  forall (response : option Celestrak.str) (norad_id : Z),
  Forall (fun c => c <> 32%N /\ c <> 10%N)
         (Celestrak.get_satellite_name response norad_id).
Proof.
  intros [raw_data |] norad_id; [| apply fallback_plain].
  destruct (Celestrak.contains (Celestrak.of_string "404 Not Found")
                               raw_data) eqn:H.
  - unfold Celestrak.get_satellite_name. rewrite H. apply fallback_plain.
  - rewrite name_of_response by trivial.
    apply Forall_forall. intros c Hc. split.
    + pose proof (take_until_no_sep 32
                    (Celestrak.strip (take_until 10 raw_data))) as F.
      rewrite Forall_forall in F. apply F, Hc.
    + pose proof (take_until_Forall (fun c => c <> 10%N) 32 _
                    (strip_Forall _ _ (take_until_no_sep 10 raw_data)))
        as F.
      rewrite Forall_forall in F. apply F, Hc.
Qed.

(** X3.  The name returned is empty exactly when the request succeeds
    with a text that does not contain "404 Not Found" and whose first
    line is empty or all white space: a blank answer gives the empty
    name, not the "SAT-<id>" of the other failures. *)
Theorem X3_empty_name_iff_blank_first_line :
  forall (response : option Celestrak.str) (norad_id : Z),
  Celestrak.get_satellite_name response norad_id = [] <->
  exists raw_data,
    response = Some raw_data /\
    Celestrak.contains (Celestrak.of_string "404 Not Found") raw_data
    = false /\
    Forall (fun c => Celestrak.isspace c = true) (take_until 10 raw_data).
Proof.
  intros response norad_id. split.
  - destruct response as [raw_data |].
    + destruct (Celestrak.contains (Celestrak.of_string "404 Not Found")
                                   raw_data) eqn:H.
      * unfold Celestrak.get_satellite_name. rewrite H. intros E.
        destruct (fallback_not_empty _ E).
      * rewrite name_of_response by trivial. intros E.
        exists raw_data. repeat split; trivial.
        apply lstrip_spaces.
        destruct (Celestrak.lstrip (take_until 10 raw_data))
          as [| c r] eqn:El; trivial.
        destruct (strip_head _ _ _ El) as [r' Es].
        rewrite Es in E. simpl in E.
        apply lstrip_head in El.
        destruct (N.eqb_spec c 32) as [-> | _]; discriminate.
    + intros E. destruct (fallback_not_empty _ E).
  - intros [raw_data [-> [H Hsp]]].
    rewrite name_of_response by trivial.
    apply strip_spaces in Hsp. rewrite Hsp. reflexivity.
Qed.

(** X4.  A name of several words is cut at its first space: when the
    text of the response starts with a word without white space that is
    followed by a space, that word is the name returned. *)
Theorem X4_name_cut_at_first_space :
  forall (word rest : Celestrak.str) (norad_id : Z),
  word <> [] ->
  Forall (fun c => Celestrak.isspace c = false) word ->
  Celestrak.contains (Celestrak.of_string "404 Not Found")
                     (word ++ 32%N :: rest) = false ->
  Celestrak.get_satellite_name (Some (word ++ 32%N :: rest)) norad_id
  = word.
Proof.
  intros word rest norad_id Hne Hword H404.
  rewrite name_of_response by trivial.
  assert (Hno10 : Forall (fun c => c <> 10%N) word).
  { eapply Forall_impl; [| exact Hword]. simpl. intros c Hc ->.
    discriminate. }
  assert (Hno32 : Forall (fun c => c <> 32%N) word).
  { eapply Forall_impl; [| exact Hword]. simpl. intros c Hc ->.
    discriminate. }
  rewrite (take_until_app 10 word _ Hno10). simpl.
  set (tail := 32%N :: take_until 10 rest).
  destruct (exists_last Hne) as [a [c ->]].
  assert (Hc : Celestrak.isspace c = false).
  { rewrite Forall_forall in Hword. apply Hword, in_or_app.
    right; left; trivial. }
  unfold Celestrak.strip.
  assert (El : Celestrak.lstrip ((a ++ [c]) ++ tail) = (a ++ [c]) ++ tail).
  { destruct a as [| a0 a]; simpl.
    - rewrite Hc. reflexivity.
    - inversion Hword as [| ? ? Ha0 _]; subst. rewrite Ha0. reflexivity. }
  rewrite El, rstrip_app_keep by trivial.
  rewrite (take_until_app 32 (a ++ [c]) _ Hno32).
  destruct (rstrip_prefix tail) as [tl [E _]].
  destruct (Celestrak.rstrip tail) as [| d r]; simpl.
  - apply app_nil_r.
  - unfold tail in E. simpl in E. injection E as <- _. simpl.
    apply app_nil_r.
Qed.

Lemma X4_name_cut_at_first_space_witness :
  Celestrak.get_satellite_name
    (Some (Celestrak.of_string "ISS"
           ++ 32%N :: Celestrak.of_string "(ZARYA)             "
           ++ [13; 10]%N)) 25544
  = Celestrak.of_string "ISS".
Proof.
  apply X4_name_cut_at_first_space.
  - discriminate.
  - repeat constructor.
  - reflexivity.
Defined.

(** ** Edges of the sweep *)

(** X5.  With a step of zero or less seconds and a window that is not
    empty, neither program ever returns: the clock does not advance past
    the end of the window, however many turns the loop is given. *)
Theorem X5_nonpositive_step_never_returns :
  forall (w : World) (fuel : nat) (tle_line1 tle_line2 : string)
         (norad_id : Z) (observer_lat observer_lon : Q)
         (start_time_utc end_time_utc : Time) (step_seconds : Z)
         (observer_elev min_elevation : Q),
  step_seconds <= 0 ->
  start_time_utc <= end_time_utc ->
  (forall satellite,
     EarthSatellite w tle_line1 tle_line2 = Some satellite ->
     V1.calculate_and_save_data w fuel tle_line1 tle_line2 observer_lat
       observer_lon start_time_utc end_time_utc step_seconds observer_elev
       min_elevation = OutOfFuel) /\
  (forall satellite,
     V2.get_tle w norad_id = Some satellite ->
     V2.calculate_and_save_data w fuel norad_id observer_lat
       observer_lon start_time_utc end_time_utc step_seconds observer_elev
       min_elevation = OutOfFuel).
Proof.
  intros w fuel tle_line1 tle_line2 norad_id observer_lat observer_lon
         start_time_utc end_time_utc step_seconds observer_elev
         min_elevation Hstep Hwin.
  split; intros satellite Hsat.
  - unfold V1.calculate_and_save_data, V1.run. rewrite Hsat.
    rewrite sweep_stuck by trivial. reflexivity.
  - unfold V2.calculate_and_save_data, V2.run. rewrite Hsat.
    rewrite sweep_stuck by trivial. reflexivity.
Qed.

Lemma X5_nonpositive_step_never_returns_witness :
  V1.calculate_and_save_data demo_world 1000 "" "" 0 0 0 (seconds 6) 0 0 10
  = OutOfFuel.
Proof.
  apply (proj1 (X5_nonpositive_step_never_returns demo_world 1000 "" ""
                  25544 0 0 0 (seconds 6) 0 0 10 ltac:(lia)
                  ltac:(unfold seconds; lia)) tt eq_refl).
Defined.

(** X6.  When the window is empty (its end is before its start) both
    programs return at once, whatever the step, with no pass, no
    ephemeris record and a pass count of zero; the second program
    reports a visible time of zero. *)
Theorem X6_empty_window_gives_empty_reports :
  forall (w : World) (fuel : nat) (tle_line1 tle_line2 : string)
         (norad_id : Z) (observer_lat observer_lon : Q)
         (start_time_utc end_time_utc : Time) (step_seconds : Z)
         (observer_elev min_elevation : Q),
  end_time_utc < start_time_utc ->
  (forall satellite,
     EarthSatellite w tle_line1 tle_line2 = Some satellite ->
     exists out,
       V1.calculate_and_save_data w fuel tle_line1 tle_line2 observer_lat
         observer_lon start_time_utc end_time_utc step_seconds
         observer_elev min_elevation = Returns out /\
       V1.passes (V1.passes_output out) = [] /\
       V1.ephemeris (V1.ephemeris_output out) = [] /\
       V1.total_passes (V1.passes_output out) = 0) /\
  (forall satellite,
     V2.get_tle w norad_id = Some satellite ->
     exists out,
       V2.calculate_and_save_data w fuel norad_id observer_lat
         observer_lon start_time_utc end_time_utc step_seconds
         observer_elev min_elevation = Returns out /\
       V2.passes (V2.passes_output out) = [] /\
       V2.ephemeris (V2.ephemeris_output out) = [] /\
       V2.total_passes (V2.statistics (V2.passes_output out)) = 0 /\
       V2.visible_time_total (V2.statistics (V2.passes_output out)) = 0%Q).
Proof.
  intros w fuel tle_line1 tle_line2 norad_id observer_lat observer_lon
         start_time_utc end_time_utc step_seconds observer_elev
         min_elevation Hwin.
  split; intros satellite Hsat.
  - unfold V1.calculate_and_save_data, V1.run. rewrite Hsat.
    rewrite sweep_past by trivial. eexists. split; [reflexivity |].
    simpl. auto.
  - unfold V2.calculate_and_save_data, V2.run. rewrite Hsat.
    rewrite sweep_past by trivial. eexists. split; [reflexivity |].
    simpl. auto.
Qed.

Lemma X6_empty_window_gives_empty_reports_witness :
  exists out,
    V2.calculate_and_save_data demo_world 0 25544 0 0 (seconds 6) 0 (-5)
      0 10 = Returns out /\
    V2.passes (V2.passes_output out) = [].
Proof.
  destruct (proj2 (X6_empty_window_gives_empty_reports demo_world 0 "" ""
                     25544 0 0 (seconds 6) 0 (-5) 0 10
                     ltac:(unfold seconds; lia)) tt eq_refl)
    as [out [E [P _]]].
  exists out. split; assumption.
Defined.

(** ** The order of the ephemeris *)

Lemma in_order_snoc {A : Type} (R : A -> A -> Prop) (l : list A) (x : A) :
  in_order R l -> Forall (fun a => R a x) l -> in_order R (l ++ [x]).
Proof.
  intros Hl Hx i j a b Hij Hi Hj.
  assert (Hjl : (j < List.length (l ++ [x]))%nat)
    by (apply nth_error_Some; congruence).
  rewrite length_app in Hjl; simpl in Hjl.
  rewrite nth_error_app1 in Hi by lia.
  destruct (Nat.eq_dec j (List.length l)) as [-> | Hne].
  - rewrite nth_error_app2, Nat.sub_diag in Hj by lia.
    injection Hj as <-.
    rewrite Forall_forall in Hx. apply Hx.
    eapply nth_error_In, Hi.
  - rewrite nth_error_app1 in Hj by lia. exact (Hl i j a b Hij Hi Hj).
Qed.

Lemma in_order_map {A B : Type} (f : A -> B) (R : B -> B -> Prop)
    (l : list A) :
  in_order R (map f l) -> in_order (fun a b => R (f a) (f b)) l.
Proof.
  intros H i j a b Hij Hi Hj.
  apply (H i j); trivial; apply map_nth_error; trivial.
Qed.

Lemma increasing_from_lower (ts : list Time) :
  forall b, increasing_from b ts -> Forall (fun t => b <= t) ts.
Proof.
  induction ts as [| t ts IH]; intros b H; [constructor |].
  destruct H as [Hb H]. constructor; trivial.
  eapply Forall_impl; [| apply (IH _ H)]. simpl. intros. lia.
Qed.

Lemma increasing_from_in_order (ts : list Time) :
  forall b, increasing_from b ts -> in_order Z.lt ts.
Proof.
  induction ts as [| t ts IH]; intros b H i j x y Hij Hi Hj.
  - destruct i; discriminate.
  - destruct H as [_ H]. destruct j as [| j]; [lia |]. simpl in Hj.
    destruct i as [| i]; simpl in Hi.
    + injection Hi as <-.
      pose proof (increasing_from_lower _ _ H) as L.
      rewrite Forall_forall in L.
      apply nth_error_In, L in Hj. lia.
    + apply (IH _ H i j); trivial. lia.
Qed.

Lemma filter_increasing (f : Time -> bool) (ts : list Time) :
  forall b, increasing_from b ts -> increasing_from b (filter f ts).
Proof.
  induction ts as [| t ts IH]; intros b H; simpl; trivial.
  destruct H as [Hb H]. destruct (f t); simpl.
  - split; trivial. apply IH, H.
  - apply IH. apply (increasing_from_weaken _ (t + 1)); trivial. lia.
Qed.

Lemma v1_run_ids_ordered (w : World) (satellite : Satellite w)
    (observer_lat observer_lon : Q) (start_time_utc end_time_utc : Time)
    (step_seconds : Z) (observer_elev min_elevation : Q) (fuel : nat)
    (out : V1.Output) :
  V1.run w satellite observer_lat observer_lon start_time_utc end_time_utc
         step_seconds observer_elev min_elevation fuel = Returns out ->
  in_order (fun e e' => V1.entry_pass_id e <= V1.entry_pass_id e')
           (V1.ephemeris (V1.ephemeris_output out)).
Proof.
  intros H. apply v1_run_inversion in H as [_ ->]. simpl.
  set (P := fun st : V1.State =>
    Forall (fun e => V1.entry_pass_id e <= V1.pass_counter st)
           (V1.ephemeris_data st) /\
    in_order (fun e e' => V1.entry_pass_id e <= V1.entry_pass_id e')
             (V1.ephemeris_data st)).
  assert (HP : P (fold_left
                    (V1.body w satellite observer_lat observer_lon
                             observer_elev min_elevation)
                    (sweep_instants start_time_utc end_time_utc
                                    step_seconds) V1.initial)).
  { apply fold_left_invariant.
    - intros st t _ [Hle Hord]. unfold P, V1.body.
      destruct (V1.geometry _ _ _ _ _ t) as [g |]; [| split; trivial].
      unfold V1.classify.
      destruct (at_or_above min_elevation g).
      + destruct (V1.current_pass st); simpl; split;
          try (apply in_order_snoc; trivial);
          try (apply Forall_app; split;
               [| constructor; [simpl; lia | constructor]]);
          try (eapply Forall_impl; [| exact Hle]; simpl; intros; lia).
      + destruct (V1.current_pass st); split; trivial.
    - split; [constructor |]. intros i j a b _ Hi. destruct i; discriminate. }
  destruct HP as [_ HP].
  unfold V1.finish. destruct (V1.current_pass _); exact HP.
Qed.

Lemma v2_run_ids_ordered (w : World) (sat : Satellite w) (norad_id : Z)
    (observer_lat observer_lon : Q) (start_time_utc end_time_utc : Time)
    (step_seconds : Z) (observer_elev min_elevation : Q) (fuel : nat)
    (out : V2.Output) :
  V2.run w sat norad_id observer_lat observer_lon start_time_utc
         end_time_utc step_seconds observer_elev min_elevation fuel
  = Returns out ->
  in_order (fun e e' => V2.entry_pass_id e <= V2.entry_pass_id e')
           (V2.ephemeris (V2.ephemeris_output out)).
Proof.
  intros H. apply v2_run_inversion in H as [_ H].
  apply v2_outputs_fields in H as [_ [_ ->]].
  set (P := fun st : V2.State =>
    Forall (fun e => V2.entry_pass_id e <= V2.pass_number st)
           (V2.ephemeris_data st) /\
    in_order (fun e e' => V2.entry_pass_id e <= V2.entry_pass_id e')
             (V2.ephemeris_data st)).
  assert (HP : P (fold_left
                    (V2.body w sat observer_lat observer_lon
                             observer_elev min_elevation)
                    (sweep_instants start_time_utc end_time_utc
                                    step_seconds) V2.initial)).
  { apply fold_left_invariant.
    - intros st t _ [Hle Hord]. unfold P, V2.body.
      destruct (V2.geometry _ _ _ _ _ t) as [g |]; [| split; trivial].
      unfold V2.classify.
      destruct (at_or_above min_elevation g).
      + destruct (V2.current_pass st); simpl; split;
          try (apply in_order_snoc; trivial);
          try (apply Forall_app; split;
               [| constructor; [simpl; lia | constructor]]);
          try (eapply Forall_impl; [| exact Hle]; simpl; intros; lia).
      + destruct (V2.current_pass st); split; trivial.
    - split; [constructor |]. intros i j a b _ Hi. destruct i; discriminate. }
  destruct HP as [_ HP].
  unfold V2.finish. destruct (V2.current_pass _); exact HP.
Qed.

(** X7.  The ephemeris of either program is in time order, and its
    records are grouped by pass: of two records the later one in the
    list has the later timestamp and a pass identifier that is not
    smaller. *)
Theorem X7_ephemeris_in_time_order :
  forall (w : World) (fuel : nat) (tle_line1 tle_line2 : string)
         (norad_id : Z) (observer_lat observer_lon : Q)
         (start_time_utc end_time_utc : Time) (step_seconds : Z)
         (observer_elev min_elevation : Q),
  (forall out,
     V1.calculate_and_save_data w fuel tle_line1 tle_line2 observer_lat
       observer_lon start_time_utc end_time_utc step_seconds observer_elev
       min_elevation = Returns out ->
     in_order (fun e e' => V1.timestamp e < V1.timestamp e' /\
                           V1.entry_pass_id e <= V1.entry_pass_id e')
              (V1.ephemeris (V1.ephemeris_output out))) /\
  (forall out,
     V2.calculate_and_save_data w fuel norad_id observer_lat
       observer_lon start_time_utc end_time_utc step_seconds observer_elev
       min_elevation = Returns out ->
     in_order (fun e e' => V2.timestamp e < V2.timestamp e' /\
                           V2.entry_pass_id e <= V2.entry_pass_id e')
              (V2.ephemeris (V2.ephemeris_output out))).
Proof.
  intros. split; intros out Hcall.
  - apply v1_call_inversion in Hcall as [satellite [_ Hrun]].
    pose proof (v1_run_ids_ordered _ _ _ _ _ _ _ _ _ _ _ Hrun) as Hid.
    pose proof (v1_run_timestamps _ _ _ _ _ _ _ _ _ _ _ Hrun) as Hts.
    assert (Hord : in_order Z.lt
                     (map V1.timestamp
                          (V1.ephemeris (V1.ephemeris_output out)))).
    { rewrite Hts.
      apply (increasing_from_in_order _ start_time_utc).
      apply filter_increasing, sweep_instants_increasing.
      apply (v1_run_inversion _ _ _ _ _ _ _ _ _ _ _ Hrun). }
    apply in_order_map in Hord.
    intros i j a b Hij Hi Hj. split.
    + exact (Hord i j a b Hij Hi Hj).
    + exact (Hid i j a b Hij Hi Hj).
  - apply v2_call_inversion in Hcall as [satellite [_ Hrun]].
    pose proof (v2_run_ids_ordered _ _ _ _ _ _ _ _ _ _ _ _ Hrun) as Hid.
    pose proof (v2_run_timestamps _ _ _ _ _ _ _ _ _ _ _ _ Hrun) as Hts.
    assert (Hord : in_order Z.lt
                     (map V2.timestamp
                          (V2.ephemeris (V2.ephemeris_output out)))).
    { rewrite Hts.
      apply (increasing_from_in_order _ start_time_utc).
      apply filter_increasing, sweep_instants_increasing.
      apply (v2_run_inversion _ _ _ _ _ _ _ _ _ _ _ _ Hrun). }
    apply in_order_map in Hord.
    intros i j a b Hij Hi Hj. split.
    + exact (Hord i j a b Hij Hi Hj).
    + exact (Hid i j a b Hij Hi Hj).
Qed.

Lemma X7_ephemeris_in_time_order_witness :
  exists out,
    V1.calculate_and_save_data demo_world 20 "" "" 0 0 0 (seconds 6) 1 0 10
    = Returns out /\
    List.length (V1.ephemeris (V1.ephemeris_output out)) = 4%nat /\
    in_order (fun e e' => V1.timestamp e < V1.timestamp e' /\
                          V1.entry_pass_id e <= V1.entry_pass_id e')
             (V1.ephemeris (V1.ephemeris_output out)).
Proof.
  eexists. split; [vm_compute; reflexivity |].
  split; [reflexivity |].
  apply (proj1 (X7_ephemeris_in_time_order demo_world 20 "" "" 25544
                  0 0 0 (seconds 6) 1 0 10)).
  vm_compute. reflexivity.
Defined.

(** ** Records and passes *)

Lemma v1_run_closure (w : World) (satellite : Satellite w)
    (observer_lat observer_lon : Q) (start_time_utc end_time_utc : Time)
    (step_seconds : Z) (observer_elev min_elevation : Q) (fuel : nat)
    (out : V1.Output) (e : V1.Entry) :
  V1.run w satellite observer_lat observer_lon start_time_utc end_time_utc
         step_seconds observer_elev min_elevation fuel = Returns out ->
  In e (V1.ephemeris (V1.ephemeris_output out)) ->
  exists p, In p (V1.passes (V1.passes_output out)) /\
            V1.pass_id p = V1.entry_pass_id e.
Proof.
  intros Hrun He.
  destruct (v1_run_inv _ _ _ _ _ _ _ _ _ _ _ Hrun) as [b HI].
  destruct (v1_run_spec _ _ _ _ _ _ _ _ _ _ _ Hrun) as [Hps [_ Hrec]].
  pose proof (end_closure b _ HI (segment_idle _)) as Hcl.
  rewrite <- Hps, <- Hrec in Hcl.
  specialize (Hcl _ (in_map _ _ _ He)).
  rewrite filter_map_length in Hcl. simpl in Hcl.
  destruct (filter (fun a => V1.pass_id a =? V1.entry_pass_id e)
                   (V1.passes (V1.passes_output out))) as [| p l] eqn:F;
    [discriminate |].
  assert (Hp : In p (p :: l)) by (left; trivial).
  rewrite <- F in Hp. apply filter_In in Hp as [Hp Hid].
  exists p. split; trivial. apply Z.eqb_eq, Hid.
Qed.

Lemma v2_run_closure (w : World) (sat : Satellite w) (norad_id : Z)
    (observer_lat observer_lon : Q) (start_time_utc end_time_utc : Time)
    (step_seconds : Z) (observer_elev min_elevation : Q) (fuel : nat)
    (out : V2.Output) (e : V2.Entry) :
  V2.run w sat norad_id observer_lat observer_lon start_time_utc
         end_time_utc step_seconds observer_elev min_elevation fuel
  = Returns out ->
  In e (V2.ephemeris (V2.ephemeris_output out)) ->
  exists p, In p (V2.passes (V2.passes_output out)) /\
            V2.pass_id p = V2.entry_pass_id e.
Proof.
  intros Hrun He.
  destruct (v2_run_inv _ _ _ _ _ _ _ _ _ _ _ _ Hrun) as [b HI].
  destruct (v2_run_spec _ _ _ _ _ _ _ _ _ _ _ _ Hrun) as [Hps [_ Hrec]].
  pose proof (end_closure b _ HI (segment_idle _)) as Hcl.
  rewrite <- Hps, <- Hrec in Hcl.
  specialize (Hcl _ (in_map _ _ _ He)).
  rewrite filter_map_length in Hcl. simpl in Hcl.
  destruct (filter (fun a => V2.pass_id a =? V2.entry_pass_id e)
                   (V2.passes (V2.passes_output out))) as [| p l] eqn:F;
    [discriminate |].
  assert (Hp : In p (p :: l)) by (left; trivial).
  rewrite <- F in Hp. apply filter_In in Hp as [Hp Hid].
  exists p. split; trivial. apply Z.eqb_eq, Hid.
Qed.

Lemma maximum_some_not_nil (l : list Q) (m : Q) :
  maximum l = Some m -> l <> [].
Proof. destruct l; [discriminate | discriminate]. Qed.

Lemma v1_run_pass_has_record (w : World) (satellite : Satellite w)
    (observer_lat observer_lon : Q) (start_time_utc end_time_utc : Time)
    (step_seconds : Z) (observer_elev min_elevation : Q) (fuel : nat)
    (out : V1.Output) (p : V1.Pass) :
  V1.run w satellite observer_lat observer_lon start_time_utc end_time_utc
         step_seconds observer_elev min_elevation fuel = Returns out ->
  In p (V1.passes (V1.passes_output out)) ->
  exists e, In e (V1.ephemeris (V1.ephemeris_output out)) /\
            V1.entry_pass_id e = V1.pass_id p.
Proof.
  intros Hrun Hp.
  pose proof (v1_run_maximum _ _ _ _ _ _ _ _ _ _ _ _ Hrun Hp) as Hm.
  apply maximum_some_not_nil in Hm. unfold v1_raw_elevations in Hm.
  destruct (filter (fun e => V1.entry_pass_id e =? V1.pass_id p)
                   (V1.ephemeris (V1.ephemeris_output out)))
    as [| e l] eqn:F; [contradiction Hm; reflexivity |].
  assert (He : In e (e :: l)) by (left; trivial).
  rewrite <- F in He. apply filter_In in He as [He Hid].
  exists e. split; trivial. apply Z.eqb_eq, Hid.
Qed.

Lemma v2_run_pass_has_record (w : World) (sat : Satellite w) (norad_id : Z)
    (observer_lat observer_lon : Q) (start_time_utc end_time_utc : Time)
    (step_seconds : Z) (observer_elev min_elevation : Q) (fuel : nat)
    (out : V2.Output) (p : V2.Pass) :
  V2.run w sat norad_id observer_lat observer_lon start_time_utc
         end_time_utc step_seconds observer_elev min_elevation fuel
  = Returns out ->
  In p (V2.passes (V2.passes_output out)) ->
  exists e, In e (V2.ephemeris (V2.ephemeris_output out)) /\
            V2.entry_pass_id e = V2.pass_id p.
Proof.
  intros Hrun Hp.
  pose proof (v2_run_maximum _ _ _ _ _ _ _ _ _ _ _ _ _ Hrun Hp) as Hm.
  apply maximum_some_not_nil in Hm. unfold v2_raw_elevations in Hm.
  destruct (filter (fun e => V2.entry_pass_id e =? V2.pass_id p)
                   (V2.ephemeris (V2.ephemeris_output out)))
    as [| e l] eqn:F; [contradiction Hm; reflexivity |].
  assert (He : In e (e :: l)) by (left; trivial).
  rewrite <- F in He. apply filter_In in He as [He Hid].
  exists e. split; trivial. apply Z.eqb_eq, Hid.
Qed.

(** X14.  In what either program writes no pass is empty: every pass
    has at least one ephemeris record with its identifier.  Hence the
    pass list is empty exactly when the ephemeris is. *)
Theorem X14_no_pass_without_record :
  forall (w : World) (fuel : nat) (tle_line1 tle_line2 : string)
         (norad_id : Z) (observer_lat observer_lon : Q)
         (start_time_utc end_time_utc : Time) (step_seconds : Z)
         (observer_elev min_elevation : Q),
  (forall out,
     V1.calculate_and_save_data w fuel tle_line1 tle_line2 observer_lat
       observer_lon start_time_utc end_time_utc step_seconds observer_elev
       min_elevation = Returns out ->
     (forall p, In p (V1.passes (V1.passes_output out)) ->
        exists e, In e (V1.ephemeris (V1.ephemeris_output out)) /\
                  V1.entry_pass_id e = V1.pass_id p) /\
     (V1.passes (V1.passes_output out) = [] <->
      V1.ephemeris (V1.ephemeris_output out) = [])) /\
  (forall out,
     V2.calculate_and_save_data w fuel norad_id observer_lat
       observer_lon start_time_utc end_time_utc step_seconds observer_elev
       min_elevation = Returns out ->
     (forall p, In p (V2.passes (V2.passes_output out)) ->
        exists e, In e (V2.ephemeris (V2.ephemeris_output out)) /\
                  V2.entry_pass_id e = V2.pass_id p) /\
     (V2.passes (V2.passes_output out) = [] <->
      V2.ephemeris (V2.ephemeris_output out) = [])).
Proof.
  intros. split; intros out Hcall.
  - apply v1_call_inversion in Hcall as [satellite [_ Hrun]].
    split; [| split].
    + intros p Hp. apply (v1_run_pass_has_record _ _ _ _ _ _ _ _ _ _ _ _ Hrun Hp).
    + intros Hnil.
      destruct (V1.ephemeris (V1.ephemeris_output out)) as [| e l] eqn:E;
        trivial.
      destruct (v1_run_closure _ _ _ _ _ _ _ _ _ _ _ e Hrun) as [p [Hp _]].
      * rewrite E. left; trivial.
      * rewrite Hnil in Hp. contradiction.
    + intros Hnil.
      destruct (V1.passes (V1.passes_output out)) as [| p l] eqn:E; trivial.
      destruct (v1_run_pass_has_record _ _ _ _ _ _ _ _ _ _ _ p Hrun)
        as [e [He _]].
      * rewrite E. left; trivial.
      * rewrite Hnil in He. contradiction.
  - apply v2_call_inversion in Hcall as [satellite [_ Hrun]].
    split; [| split].
    + intros p Hp. apply (v2_run_pass_has_record _ _ _ _ _ _ _ _ _ _ _ _ _ Hrun Hp).
    + intros Hnil.
      destruct (V2.ephemeris (V2.ephemeris_output out)) as [| e l] eqn:E;
        trivial.
      destruct (v2_run_closure _ _ _ _ _ _ _ _ _ _ _ _ e Hrun) as [p [Hp _]].
      * rewrite E. left; trivial.
      * rewrite Hnil in Hp. contradiction.
    + intros Hnil.
      destruct (V2.passes (V2.passes_output out)) as [| p l] eqn:E; trivial.
      destruct (v2_run_pass_has_record _ _ _ _ _ _ _ _ _ _ _ _ p Hrun)
        as [e [He _]].
      * rewrite E. left; trivial.
      * rewrite Hnil in He. contradiction.
Qed.

Lemma X14_no_pass_without_record_witness :
  exists out p e,
    V1.calculate_and_save_data demo_world 20 "" "" 0 0 0 (seconds 6) 1 0 10
    = Returns out /\
    nth_error (V1.passes (V1.passes_output out)) 1 = Some p /\
    In e (V1.ephemeris (V1.ephemeris_output out)) /\
    V1.entry_pass_id e = V1.pass_id p.
Proof.
  eexists _, _.
  destruct (proj1 (X14_no_pass_without_record demo_world 20 "" "" 25544
                     0 0 0 (seconds 6) 1 0 10) _
              ltac:(vm_compute; reflexivity)) as [H _].
  edestruct H as [e [He Hid]]; [right; left; reflexivity |].
  exists e. split; [vm_compute; reflexivity |].
  split; [vm_compute; reflexivity |]. split; assumption.
Defined.

(** X15.  Every record of the ephemeris of either program shows an
    elevation that is above the threshold less a thousandth of a
    degree: the elevation of the sample reached the threshold, and the
    record keeps it to three decimals. *)
Theorem X15_records_at_or_above_threshold :
  forall (w : World) (fuel : nat) (tle_line1 tle_line2 : string)
         (norad_id : Z) (observer_lat observer_lon : Q)
         (start_time_utc end_time_utc : Time) (step_seconds : Z)
         (observer_elev min_elevation : Q),
  (forall out e,
     V1.calculate_and_save_data w fuel tle_line1 tle_line2 observer_lat
       observer_lon start_time_utc end_time_utc step_seconds observer_elev
       min_elevation = Returns out ->
     In e (V1.ephemeris (V1.ephemeris_output out)) ->
     (min_elevation - (1 # 1000) < V1.elevation (V1.relative e))%Q) /\
  (forall out e,
     V2.calculate_and_save_data w fuel norad_id observer_lat
       observer_lon start_time_utc end_time_utc step_seconds observer_elev
       min_elevation = Returns out ->
     In e (V2.ephemeris (V2.ephemeris_output out)) ->
     (min_elevation - (1 # 1000) < V2.elevation (V2.topocentric e))%Q).
Proof.
  intros. split; intros out e Hcall He.
  - apply v1_call_inversion in Hcall as [satellite [_ Hrun]].
    pose proof (v1_run_entries _ _ _ _ _ _ _ _ _ _ _ Hrun) as Hent.
    rewrite Forall_forall in Hent.
    destruct (Hent e He) as [g [_ [Hvis ->]]]. simpl.
    apply at_or_above_le in Hvis.
    destruct (round3_near (alt_degrees g)) as [Hlo _]. lra.
  - apply v2_call_inversion in Hcall as [satellite [_ Hrun]].
    pose proof (v2_run_entries _ _ _ _ _ _ _ _ _ _ _ _ Hrun) as Hent.
    rewrite Forall_forall in Hent.
    destruct (Hent e He) as [g [_ [Hvis ->]]]. simpl.
    apply at_or_above_le in Hvis.
    destruct (round3_near (alt_degrees g)) as [Hlo _]. lra.
Qed.

Lemma X15_records_at_or_above_threshold_witness :
  (exists out e,
     V1.calculate_and_save_data demo_world 20 "" "" 0 0 0 (seconds 6) 1 0 10
     = Returns out /\
     nth_error (V1.ephemeris (V1.ephemeris_output out)) 2 = Some e /\
     (10 - (1 # 1000) < V1.elevation (V1.relative e))%Q) /\
  (exists out e,
     V2.calculate_and_save_data demo_world 20 25544 0 0 0 (seconds 6) 1 0 10
     = Returns out /\
     nth_error (V2.ephemeris (V2.ephemeris_output out)) 2 = Some e /\
     (10 - (1 # 1000) < V2.elevation (V2.topocentric e))%Q).
Proof.
  split.
  - eexists _, _. split; [vm_compute; reflexivity |].
    split; [vm_compute; reflexivity |].
    apply (proj1 (X15_records_at_or_above_threshold demo_world 20 "" ""
                    25544 0 0 0 (seconds 6) 1 0 10) _ _
             ltac:(vm_compute; reflexivity)).
    do 2 right. left. reflexivity.
  - eexists _, _. split; [vm_compute; reflexivity |].
    split; [vm_compute; reflexivity |].
    apply (proj2 (X15_records_at_or_above_threshold demo_world 20 "" ""
                    25544 0 0 0 (seconds 6) 1 0 10) _ _
             ltac:(vm_compute; reflexivity)).
    do 2 right. left. reflexivity.
Defined.

Lemma visible_at_mono (geometry : Time -> option Geometry)
    (min1 min2 : Q) (t : Time) :
  (min1 <= min2)%Q ->
  visible_at geometry min2 t = true -> visible_at geometry min1 t = true.
Proof.
  intros Hle. rewrite !visible_at_iff. intros [g [Hg [Hn H]]].
  exists g. split; trivial. split; trivial.
  apply Qle_trans with min2; trivial.
Qed.

(** X12.  Raising the threshold never adds a record: over the same
    window, the instants in the ephemeris for a higher
    [min_elevation] are among those for a lower one. *)
Theorem X12_higher_threshold_fewer_records :
  forall (w : World) (fuel1 fuel2 : nat) (tle_line1 tle_line2 : string)
         (norad_id : Z) (observer_lat observer_lon : Q)
         (start_time_utc end_time_utc : Time) (step_seconds : Z)
         (observer_elev min1 min2 : Q),
  (min1 <= min2)%Q ->
  (forall out1 out2,
     V1.calculate_and_save_data w fuel1 tle_line1 tle_line2 observer_lat
       observer_lon start_time_utc end_time_utc step_seconds observer_elev
       min1 = Returns out1 ->
     V1.calculate_and_save_data w fuel2 tle_line1 tle_line2 observer_lat
       observer_lon start_time_utc end_time_utc step_seconds observer_elev
       min2 = Returns out2 ->
     incl (map V1.timestamp (V1.ephemeris (V1.ephemeris_output out2)))
          (map V1.timestamp (V1.ephemeris (V1.ephemeris_output out1)))) /\
  (forall out1 out2,
     V2.calculate_and_save_data w fuel1 norad_id observer_lat
       observer_lon start_time_utc end_time_utc step_seconds observer_elev
       min1 = Returns out1 ->
     V2.calculate_and_save_data w fuel2 norad_id observer_lat
       observer_lon start_time_utc end_time_utc step_seconds observer_elev
       min2 = Returns out2 ->
     incl (map V2.timestamp (V2.ephemeris (V2.ephemeris_output out2)))
          (map V2.timestamp (V2.ephemeris (V2.ephemeris_output out1)))).
Proof.
  intros w fuel1 fuel2 tle_line1 tle_line2 norad_id observer_lat
         observer_lon start_time_utc end_time_utc step_seconds
         observer_elev min1 min2 Hle.
  split; intros out1 out2 H1 H2 t Ht.
  - apply v1_call_inversion in H1 as [s1 [E1 H1]].
    apply v1_call_inversion in H2 as [s2 [E2 H2]].
    rewrite E1 in E2. injection E2 as <-.
    rewrite (v1_run_timestamps _ _ _ _ _ _ _ _ _ _ _ H1).
    rewrite (v1_run_timestamps _ _ _ _ _ _ _ _ _ _ _ H2) in Ht.
    apply filter_In in Ht as [Hin Hv]. apply filter_In. split; trivial.
    apply (visible_at_mono _ min1 min2); trivial.
  - apply v2_call_inversion in H1 as [s1 [E1 H1]].
    apply v2_call_inversion in H2 as [s2 [E2 H2]].
    rewrite E1 in E2. injection E2 as <-.
    rewrite (v2_run_timestamps _ _ _ _ _ _ _ _ _ _ _ _ H1).
    rewrite (v2_run_timestamps _ _ _ _ _ _ _ _ _ _ _ _ H2) in Ht.
    apply filter_In in Ht as [Hin Hv]. apply filter_In. split; trivial.
    apply (visible_at_mono _ min1 min2); trivial.
Qed.

Lemma X12_higher_threshold_fewer_records_witness :
  exists out1 out2,
    V1.calculate_and_save_data demo_world 20 "" "" 0 0 0 (seconds 6) 1 0 10
    = Returns out1 /\
    V1.calculate_and_save_data demo_world 20 "" "" 0 0 0 (seconds 6) 1 0 11
    = Returns out2 /\
    incl (map V1.timestamp (V1.ephemeris (V1.ephemeris_output out2)))
         (map V1.timestamp (V1.ephemeris (V1.ephemeris_output out1))).
Proof.
  eexists _, _. split; [vm_compute; reflexivity |].
  split; [vm_compute; reflexivity |].
  apply (proj1 (X12_higher_threshold_fewer_records demo_world 20 20 "" ""
                  25544 0 0 0 (seconds 6) 1 0 10 11
                  ltac:(unfold Qle; simpl; lia)));
    vm_compute; reflexivity.
Defined.

Lemma string_app_inv_head (p s1 s2 : string) :
  (p ++ s1 = p ++ s2)%string -> s1 = s2.
Proof.
  induction p as [| c p IH]; simpl; trivial.
  intros [= H]. apply IH, H.
Qed.

(** X13.  The catalogue address written in the metadata of the second
    program names its satellite: two catalogue numbers with the same
    [tle_source] are the same number. *)
Theorem X13_tle_source_names_the_satellite :
  forall a b : Z, V2.url a = V2.url b -> a = b.
Proof.
  intros a b H. unfold V2.url in H.
  apply string_app_inv_head in H.
  apply DecimalZ.to_int_inj.
  pose proof (NilEmpty.isi (Z.to_int a)) as Ha.
  pose proof (NilEmpty.isi (Z.to_int b)) as Hb.
  rewrite H in Ha. congruence.
Qed.

Lemma X13_tle_source_names_the_satellite_witness :
  V2.url 25544
  = "https://celestrak.org/NORAD/elements/gp.php?CATNR=25544"%string /\
  25544 = 25544.
Proof.
  split; [reflexivity |].
  apply X13_tle_source_names_the_satellite. reflexivity.
Defined.

(** ** The events of a pass (second program) *)

Lemma v2_events_ok_close (p : V2.Pass) :
  v2_events_ok p -> v2_events_ok (V2.close_pass p).
Proof. intros H. exact H. Qed.

Lemma v2_body_events (w : World) (sat : Satellite w)
    (observer_lat observer_lon observer_elev min_elevation : Q)
    (st : V2.State) (t : Time) :
  v2_events_inv st ->
  v2_events_inv (V2.body w sat observer_lat observer_lon observer_elev
                         min_elevation st t).
Proof.
  intros Hinv. unfold V2.body.
  destruct (V2.geometry _ _ _ _ _ t) as [g |]; [| exact Hinv].
  destruct Hinv as [Heph [Hclosed Hopen]].
  unfold V2.classify.
  destruct (at_or_above min_elevation g);
    destruct (V2.current_pass st) as [p |] eqn:Hcur.
  - destruct (Hopen p eq_refl) as [[e0 [rest [He [Hs [Hl Hids]]]]] Hid].
    unfold v2_events_inv, v2_open_events in *. rewrite Hcur in Heph.
    cbn [V2.ephemeris_data V2.passes_data V2.current_pass V2.pass_number
         V2.events V2.pass_id V2.start V2.end_].
    split; [| split].
    + rewrite Heph, app_assoc. reflexivity.
    + exact Hclosed.
    + intros q [= <-].
      cbn [V2.events V2.pass_id V2.start V2.end_].
      split; [| exact Hid].
      exists e0, (rest ++ [V2.ephemeris_entry (V2.pass_number st) t g]).
      rewrite He. split; [reflexivity |]. split; [exact Hs |].
      split.
      * rewrite last_last. reflexivity.
      * rewrite <- He. apply Forall_app. split; [exact Hids |].
        constructor; [| constructor]. simpl. symmetry. exact Hid.
  - unfold v2_events_inv, v2_open_events in *. rewrite Hcur in Heph.
    cbn [V2.ephemeris_data V2.passes_data V2.current_pass V2.pass_number
         V2.events V2.pass_id V2.start V2.end_].
    split; [| split].
    + rewrite Heph, app_nil_r. reflexivity.
    + exact Hclosed.
    + intros q [= <-].
      cbn [V2.events V2.pass_id V2.start V2.end_].
      split; [| reflexivity].
      exists (V2.ephemeris_entry (V2.pass_number st + 1) t g), [].
      split; [reflexivity |]. split; [reflexivity |].
      split; [reflexivity |].
      constructor; [reflexivity | constructor].
  - destruct (Hopen p eq_refl) as [Hok Hid].
    unfold v2_events_inv, v2_open_events in *. rewrite Hcur in Heph.
    cbn [V2.ephemeris_data V2.passes_data V2.current_pass V2.pass_number].
    split; [| split].
    + rewrite map_app, concat_app. simpl. rewrite !app_nil_r. exact Heph.
    + apply Forall_app. split; [exact Hclosed |].
      constructor; [| constructor]. apply v2_events_ok_close, Hok.
    + discriminate.
  - unfold v2_events_inv, v2_open_events in *. rewrite ?Hcur in *.
    split; [exact Heph | split; [exact Hclosed |]].
    intros q Hq. discriminate Hq.
Qed.

Lemma v2_finish_events (st : V2.State) :
  v2_events_inv st ->
  V2.ephemeris_data (V2.finish st)
  = List.concat (map V2.events (V2.passes_data (V2.finish st))) /\
  Forall v2_events_ok (V2.passes_data (V2.finish st)).
Proof.
  intros [Heph [Hclosed Hopen]]. unfold V2.finish.
  unfold v2_open_events in Heph.
  destruct (V2.current_pass st) as [p |] eqn:Hcur; simpl.
  - destruct (Hopen p eq_refl) as [Hok _]. split.
    + rewrite map_app, concat_app. simpl. rewrite app_nil_r. exact Heph.
    + apply Forall_app. split; trivial. constructor; [| constructor].
      apply v2_events_ok_close, Hok.
  - rewrite app_nil_r in Heph. auto.
Qed.

(** X8.  In the passes report of the second program every pass carries
    its own ephemeris records as [events]: they are not empty, all have
    the [pass_id] of the pass, the first is at the start of the pass
    and the last at its end; and the ephemeris report is the events of
    the passes one after the other. *)
Theorem X8_events_partition_the_ephemeris :
  forall (w : World) (fuel : nat) (norad_id : Z)
         (observer_lat observer_lon : Q)
         (start_time_utc end_time_utc : Time) (step_seconds : Z)
         (observer_elev min_elevation : Q) (out : V2.Output),
  V2.calculate_and_save_data w fuel norad_id observer_lat
    observer_lon start_time_utc end_time_utc step_seconds observer_elev
    min_elevation = Returns out ->
  V2.ephemeris (V2.ephemeris_output out)
  = List.concat (map V2.events (V2.passes (V2.passes_output out))) /\
  (forall p, In p (V2.passes (V2.passes_output out)) ->
     exists e0 rest,
       V2.events p = e0 :: rest /\
       V2.timestamp e0 = V2.start p /\
       V2.timestamp (last rest e0) = V2.end_ p /\
       Forall (fun e => V2.entry_pass_id e = V2.pass_id p) (V2.events p)).
Proof.
  intros w fuel norad_id observer_lat observer_lon start_time_utc
         end_time_utc step_seconds observer_elev min_elevation out Hcall.
  apply v2_call_inversion in Hcall as [satellite [_ Hrun]].
  apply v2_run_inversion in Hrun as [_ Hout].
  apply v2_outputs_fields in Hout as [-> [_ ->]].
  destruct (v2_finish_events
              (fold_left
                 (V2.body w satellite observer_lat observer_lon
                          observer_elev min_elevation)
                 (sweep_instants start_time_utc end_time_utc step_seconds)
                 V2.initial)) as [Heph Hok].
  { apply fold_left_invariant.
    - intros st t _. apply v2_body_events.
    - split; [reflexivity | split; [constructor | discriminate]]. }
  split; trivial.
  intros p Hp. rewrite Forall_forall in Hok. apply (Hok p Hp).
Qed.

Lemma X8_events_partition_the_ephemeris_witness :
  exists out,
    V2.calculate_and_save_data demo_world 20 25544 0 0 0 (seconds 6) 1 0 10
    = Returns out /\
    map (fun p => List.length (V2.events p))
        (V2.passes (V2.passes_output out)) = [2; 2]%nat /\
    V2.ephemeris (V2.ephemeris_output out)
    = List.concat (map V2.events (V2.passes (V2.passes_output out))).
Proof.
  eexists. split; [vm_compute; reflexivity |].
  split; [reflexivity |].
  apply (X8_events_partition_the_ephemeris demo_world 20 25544
           0 0 0 (seconds 6) 1 0 10).
  vm_compute. reflexivity.
Defined.

(** ** Durations *)

Lemma instants_index (step_seconds : Z) (n : nat) :
  forall t0 t, In t (instants t0 step_seconds n) ->
  exists i : nat, t = t0 + seconds (Z.of_nat i * step_seconds).
Proof.
  induction n as [| n IH]; intros t0 t H; simpl in H; [contradiction |].
  destruct H as [<- | H].
  - exists O. unfold seconds. lia.
  - apply IH in H as [i ->]. exists (S i). unfold seconds. lia.
Qed.

Lemma instants_within (end_time_utc : Time) (step_seconds : Z) :
  0 < step_seconds ->
  forall n t0, turns t0 end_time_utc step_seconds = n ->
  forall t, In t (instants t0 step_seconds n) -> t0 <= t <= end_time_utc.
Proof.
  intros Hstep. induction n as [| n IH]; intros t0 Hn t Ht;
    simpl in Ht; [contradiction |].
  destruct (Z.leb_spec t0 end_time_utc) as [Hin | Hout].
  - rewrite turns_next in Hn by trivial. injection Hn as Hn.
    destruct Ht as [<- | Ht]; [lia |].
    apply (IH _ Hn) in Ht. unfold seconds in Ht. lia.
  - rewrite turns_past in Hn by trivial. discriminate.
Qed.

(** An instant of a sweep that returned lies in the window, and the
    step of that sweep is positive. *)
Lemma sweep_instants_within (start_time_utc end_time_utc : Time)
    (step_seconds : Z) (t : Time) :
  (start_time_utc <= end_time_utc -> 0 < step_seconds) ->
  In t (sweep_instants start_time_utc end_time_utc step_seconds) ->
  0 < step_seconds /\ start_time_utc <= t <= end_time_utc.
Proof.
  intros Hstep Ht. unfold sweep_instants in Ht.
  destruct (Z.leb_spec start_time_utc end_time_utc) as [Hin | Hout].
  - split; [auto |].
    apply (instants_within end_time_utc step_seconds (Hstep Hin) _ _
             eq_refl t Ht).
  - rewrite turns_past in Ht by trivial. contradiction.
Qed.

Lemma v1_run_endpoints (w : World) (satellite : Satellite w)
    (observer_lat observer_lon : Q) (start_time_utc end_time_utc : Time)
    (step_seconds : Z) (observer_elev min_elevation : Q) (fuel : nat)
    (out : V1.Output) :
  V1.run w satellite observer_lat observer_lon start_time_utc end_time_utc
         step_seconds observer_elev min_elevation fuel = Returns out ->
  Forall (fun p =>
            In (V1.start p)
               (sweep_instants start_time_utc end_time_utc step_seconds) /\
            In (V1.end_ p)
               (sweep_instants start_time_utc end_time_utc step_seconds))
         (V1.passes (V1.passes_output out)).
Proof.
  intros H. apply v1_run_inversion in H as [_ ->]. simpl.
  set (ts := sweep_instants start_time_utc end_time_utc step_seconds).
  set (ok := fun p : V1.Pass => In (V1.start p) ts /\ In (V1.end_ p) ts).
  set (P := fun st : V1.State =>
    Forall ok (V1.passes_data st) /\
    forall p, V1.current_pass st = Some p -> ok p).
  assert (HP : P (fold_left
                    (V1.body w satellite observer_lat observer_lon
                             observer_elev min_elevation) ts V1.initial)).
  { apply fold_left_invariant.
    - intros st t Hin [Hclosed Hopen]. unfold P, V1.body.
      destruct (V1.geometry _ _ _ _ _ t) as [g |]; [| split; trivial].
      unfold V1.classify.
      destruct (at_or_above min_elevation g);
        destruct (V1.current_pass st) as [p |] eqn:Hcur; simpl.
      + split; trivial. intros q [= <-].
        destruct (Hopen p eq_refl). split; trivial.
      + split; trivial. intros q [= <-]. split; trivial.
      + split; [| discriminate]. apply Forall_app. split; trivial.
        constructor; [| constructor]. apply (Hopen p eq_refl).
      + split; trivial. rewrite Hcur. discriminate.
    - split; [constructor | discriminate]. }
  destruct HP as [Hclosed Hopen]. unfold V1.finish.
  destruct (V1.current_pass _) as [p |] eqn:Hcur; simpl; trivial.
  apply Forall_app. split; trivial.
  constructor; [| constructor]. apply (Hopen p eq_refl).
Qed.

Lemma v2_run_endpoints (w : World) (sat : Satellite w) (norad_id : Z)
    (observer_lat observer_lon : Q) (start_time_utc end_time_utc : Time)
    (step_seconds : Z) (observer_elev min_elevation : Q) (fuel : nat)
    (out : V2.Output) :
  V2.run w sat norad_id observer_lat observer_lon start_time_utc
         end_time_utc step_seconds observer_elev min_elevation fuel
  = Returns out ->
  Forall (fun p =>
            In (V2.start p)
               (sweep_instants start_time_utc end_time_utc step_seconds) /\
            In (V2.end_ p)
               (sweep_instants start_time_utc end_time_utc step_seconds))
         (V2.passes (V2.passes_output out)).
Proof.
  intros H. apply v2_run_inversion in H as [_ H].
  apply v2_outputs_fields in H as [-> _].
  set (ts := sweep_instants start_time_utc end_time_utc step_seconds).
  set (ok := fun p : V2.Pass => In (V2.start p) ts /\ In (V2.end_ p) ts).
  set (P := fun st : V2.State =>
    Forall ok (V2.passes_data st) /\
    forall p, V2.current_pass st = Some p -> ok p).
  assert (HP : P (fold_left
                    (V2.body w sat observer_lat observer_lon
                             observer_elev min_elevation) ts V2.initial)).
  { apply fold_left_invariant.
    - intros st t Hin [Hclosed Hopen]. unfold P, V2.body.
      destruct (V2.geometry _ _ _ _ _ t) as [g |]; [| split; trivial].
      unfold V2.classify.
      destruct (at_or_above min_elevation g);
        destruct (V2.current_pass st) as [p |] eqn:Hcur; simpl.
      + split; trivial. intros q [= <-].
        destruct (Hopen p eq_refl). split; trivial.
      + split; trivial. intros q [= <-]. split; trivial.
      + split; [| discriminate]. apply Forall_app. split; trivial.
        constructor; [| constructor]. apply (Hopen p eq_refl).
      + split; trivial. rewrite Hcur. discriminate.
    - split; [constructor | discriminate]. }
  destruct HP as [Hclosed Hopen]. unfold V2.finish.
  destruct (V2.current_pass _) as [p |] eqn:Hcur; simpl; trivial.
  apply Forall_app. split; trivial.
  constructor; [| constructor]. apply (Hopen p eq_refl).
Qed.

Lemma v1_run_separated (w : World) (satellite : Satellite w)
    (observer_lat observer_lon : Q) (start_time_utc end_time_utc : Time)
    (step_seconds : Z) (observer_elev min_elevation : Q) (fuel : nat)
    (out : V1.Output) :
  V1.run w satellite observer_lat observer_lon start_time_utc end_time_utc
         step_seconds observer_elev min_elevation fuel = Returns out ->
  in_order (fun p q => V1.end_ p < V1.start q)
           (V1.passes (V1.passes_output out)) /\
  Forall (fun p => V1.start p <= V1.end_ p)
         (V1.passes (V1.passes_output out)).
Proof.
  intros Hrun.
  destruct (v1_run_inv _ _ _ _ _ _ _ _ _ _ _ Hrun) as [b HI].
  destruct (v1_run_spec _ _ _ _ _ _ _ _ _ _ _ Hrun) as [Hps _].
  pose proof (inv_separated _ _ HI) as Hsep.
  pose proof (inv_emitted _ _ HI) as Hem.
  rewrite <- Hps in Hsep, Hem. split.
  - intros i j p q Hij Hi Hj.
    apply (Hsep i j (spec_of_v1 p) (spec_of_v1 q) Hij);
      apply map_nth_error; trivial.
  - apply Forall_forall. intros p Hp. rewrite Forall_forall in Hem.
    apply (Hem (spec_of_v1 p) (in_map _ _ _ Hp)).
Qed.

Lemma v2_run_separated (w : World) (sat : Satellite w) (norad_id : Z)
    (observer_lat observer_lon : Q) (start_time_utc end_time_utc : Time)
    (step_seconds : Z) (observer_elev min_elevation : Q) (fuel : nat)
    (out : V2.Output) :
  V2.run w sat norad_id observer_lat observer_lon start_time_utc
         end_time_utc step_seconds observer_elev min_elevation fuel
  = Returns out ->
  in_order (fun p q => V2.end_ p < V2.start q)
           (V2.passes (V2.passes_output out)) /\
  Forall (fun p => V2.start p <= V2.end_ p)
         (V2.passes (V2.passes_output out)).
Proof.
  intros Hrun.
  destruct (v2_run_inv _ _ _ _ _ _ _ _ _ _ _ _ Hrun) as [b HI].
  destruct (v2_run_spec _ _ _ _ _ _ _ _ _ _ _ _ Hrun) as [Hps _].
  pose proof (inv_separated _ _ HI) as Hsep.
  pose proof (inv_emitted _ _ HI) as Hem.
  rewrite <- Hps in Hsep, Hem. split.
  - intros i j p q Hij Hi Hj.
    apply (Hsep i j (spec_of_v2 p) (spec_of_v2 q) Hij);
      apply map_nth_error; trivial.
  - apply Forall_forall. intros p Hp. rewrite Forall_forall in Hem.
    apply (Hem (spec_of_v2 p) (in_map _ _ _ Hp)).
Qed.

(** Two instants of a sweep, the second not before the first, are a
    whole number of steps apart. *)
Lemma instants_apart (start_time_utc end_time_utc : Time)
    (step_seconds : Z) (a b : Time) :
  (start_time_utc <= end_time_utc -> 0 < step_seconds) ->
  In a (sweep_instants start_time_utc end_time_utc step_seconds) ->
  In b (sweep_instants start_time_utc end_time_utc step_seconds) ->
  a <= b ->
  exists k : nat, b = a + seconds (Z.of_nat k * step_seconds).
Proof.
  intros Hstep Ha Hb Hab.
  destruct (sweep_instants_within _ _ _ _ Hstep Ha) as [Hpos _].
  apply instants_index in Ha as [i ->].
  apply instants_index in Hb as [j ->].
  unfold seconds in *.
  assert (Hij : (i <= j)%nat) by nia.
  exists (j - i)%nat. rewrite Nat2Z.inj_sub by trivial. lia.
Qed.

Lemma total_seconds_whole (k : Z) :
  (Py.total_seconds (seconds k) == inject_Z k)%Q.
Proof.
  unfold Py.total_seconds, seconds, Qeq, inject_Z. cbn [Qnum Qden]. lia.
Qed.

(** X9.  In what either program writes, a pass starts and ends at
    instants of the sweep, and its duration is a whole number of steps:
    [duration_sec] is [k * step_seconds] for a natural number [k] (zero
    for a pass of a single sample). *)
Theorem X9_duration_is_whole_number_of_steps :
  forall (w : World) (fuel : nat) (tle_line1 tle_line2 : string)
         (norad_id : Z) (observer_lat observer_lon : Q)
         (start_time_utc end_time_utc : Time) (step_seconds : Z)
         (observer_elev min_elevation : Q),
  (forall out p,
     V1.calculate_and_save_data w fuel tle_line1 tle_line2 observer_lat
       observer_lon start_time_utc end_time_utc step_seconds observer_elev
       min_elevation = Returns out ->
     In p (V1.passes (V1.passes_output out)) ->
     In (V1.start p)
        (sweep_instants start_time_utc end_time_utc step_seconds) /\
     In (V1.end_ p)
        (sweep_instants start_time_utc end_time_utc step_seconds) /\
     exists k : nat,
       V1.end_ p = V1.start p + seconds (Z.of_nat k * step_seconds) /\
       (V1.duration_sec p == inject_Z (Z.of_nat k * step_seconds))%Q) /\
  (forall out p,
     V2.calculate_and_save_data w fuel norad_id observer_lat
       observer_lon start_time_utc end_time_utc step_seconds observer_elev
       min_elevation = Returns out ->
     In p (V2.passes (V2.passes_output out)) ->
     In (V2.start p)
        (sweep_instants start_time_utc end_time_utc step_seconds) /\
     In (V2.end_ p)
        (sweep_instants start_time_utc end_time_utc step_seconds) /\
     exists (k : nat) (d : Q),
       V2.end_ p = V2.start p + seconds (Z.of_nat k * step_seconds) /\
       V2.duration_sec p = Some d /\
       (d == inject_Z (Z.of_nat k * step_seconds))%Q).
Proof.
  intros. split; intros out p Hcall Hp.
  - apply v1_call_inversion in Hcall as [satellite [_ Hrun]].
    pose proof (v1_run_endpoints _ _ _ _ _ _ _ _ _ _ _ Hrun) as He.
    destruct (v1_run_separated _ _ _ _ _ _ _ _ _ _ _ Hrun) as [_ Hle].
    pose proof (v1_run_durations _ _ _ _ _ _ _ _ _ _ _ Hrun) as Hd.
    rewrite Forall_forall in He, Hle, Hd.
    destruct (He p Hp) as [Hs Hen]. repeat split; trivial.
    destruct (instants_apart _ _ _ _ _
                (proj1 (v1_run_inversion _ _ _ _ _ _ _ _ _ _ _ Hrun))
                Hs Hen (Hle p Hp)) as [k Hk].
    exists k. split; trivial. rewrite (Hd p Hp).
    replace (V1.end_ p - V1.start p)
      with (seconds (Z.of_nat k * step_seconds)) by lia.
    apply total_seconds_whole.
  - apply v2_call_inversion in Hcall as [satellite [_ Hrun]].
    pose proof (v2_run_endpoints _ _ _ _ _ _ _ _ _ _ _ _ Hrun) as He.
    destruct (v2_run_separated _ _ _ _ _ _ _ _ _ _ _ _ Hrun) as [_ Hle].
    pose proof (v2_run_durations _ _ _ _ _ _ _ _ _ _ _ _ Hrun) as Hd.
    rewrite Forall_forall in He, Hle, Hd.
    destruct (He p Hp) as [Hs Hen]. repeat split; trivial.
    destruct (instants_apart _ _ _ _ _
                (proj1 (v2_run_inversion _ _ _ _ _ _ _ _ _ _ _ _ Hrun))
                Hs Hen (Hle p Hp)) as [k Hk].
    destruct (Hd p Hp) as [Hsome Hround].
    exists k. eexists. split; trivial. split; [exact Hsome |].
    rewrite Hround.
    replace (V2.end_ p - V2.start p)
      with (seconds (Z.of_nat k * step_seconds)) by lia.
    apply total_seconds_whole.
Qed.

Lemma X9_duration_is_whole_number_of_steps_witness :
  exists out p,
    V1.calculate_and_save_data gap_world 20 "" "" 0 0 0 (seconds 5) 1 0 10
    = Returns out /\
    nth_error (V1.passes (V1.passes_output out)) 0 = Some p /\
    exists k : nat,
      V1.end_ p = V1.start p + seconds (Z.of_nat k * 1) /\
      (V1.duration_sec p == inject_Z (Z.of_nat k * 1))%Q.
Proof.
  eexists _, _. split; [vm_compute; reflexivity |].
  split; [vm_compute; reflexivity |].
  apply (proj1 (X9_duration_is_whole_number_of_steps gap_world 20 "" ""
                  25544 0 0 0 (seconds 5) 1 0 10) _ _
           ltac:(vm_compute; reflexivity)).
  left. reflexivity.
Defined.

(** ** The visible time of the second program *)

Lemma total_seconds_plus (a b : Z) :
  (Py.total_seconds (a + b) == Py.total_seconds a + Py.total_seconds b)%Q.
Proof.
  unfold Py.total_seconds, Qeq, Qplus. cbn [Qnum Qden]. lia.
Qed.

Lemma sum_durations_value (l : list V2.Pass) :
  Forall (fun p => exists d,
            V2.duration_sec p = Some d /\
            (d == Py.total_seconds (V2.end_ p - V2.start p))%Q) l ->
  forall acc total,
  V2.sum_durations acc l = Some total ->
  (total == acc + Py.total_seconds (v2_visible_microseconds l))%Q.
Proof.
  induction 1 as [| p l [d [Hd Ed]] _ IH]; intros acc total H; simpl in H.
  - injection H as <-. unfold Py.total_seconds, v2_visible_microseconds.
    simpl. unfold Qeq, Qplus. cbn [Qnum Qden]. lia.
  - rewrite Hd in H. apply IH in H.
    change (v2_visible_microseconds (p :: l))
      with ((V2.end_ p - V2.start p) + v2_visible_microseconds l).
    rewrite total_seconds_plus, H, Ed. ring.
Qed.

Lemma in_order_tail {A : Type} (R : A -> A -> Prop) (a : A) (l : list A) :
  in_order R (a :: l) -> in_order R l /\ Forall (R a) l.
Proof.
  intros H. split.
  - intros i j x y Hij Hi Hj. apply (H (S i) (S j)); trivial. lia.
  - apply Forall_forall. intros x Hx.
    apply In_nth_error in Hx as [j Hj].
    apply (H O (S j)); trivial. lia.
Qed.

(** Passes that follow one another inside a window fill no more than
    the window. *)
Lemma visible_microseconds_bound (l : list V2.Pass) :
  forall a b,
  in_order (fun p q => V2.end_ p < V2.start q) l ->
  Forall (fun p => a <= V2.start p /\ V2.start p <= V2.end_ p /\
                   V2.end_ p <= b) l ->
  0 <= v2_visible_microseconds l <= Z.max 0 (b - a).
Proof.
  induction l as [| p l IH]; intros a b Hord Hall; simpl; [lia |].
  inversion Hall as [| ? ? [Ha [Hp Hb]] Hall']; subst.
  apply in_order_tail in Hord as [Hord Hafter].
  assert (H : 0 <= v2_visible_microseconds l <= Z.max 0 (b - V2.end_ p)).
  { apply IH; trivial.
    rewrite Forall_forall in Hall', Hafter |- *. intros q Hq.
    specialize (Hall' q Hq). specialize (Hafter q Hq). simpl in Hafter.
    lia. }
  lia.
Qed.

Lemma v2_outputs_total (w : World) (sat : Satellite w) (norad_id : Z)
    (observer_lat observer_lon : Q) (start_time_utc end_time_utc : Time)
    (step_seconds : Z) (observer_elev min_elevation : Q)
    (st : V2.State) (out : V2.Output) :
  V2.outputs w sat norad_id observer_lat observer_lon start_time_utc
             end_time_utc step_seconds observer_elev min_elevation st
  = Returns out ->
  V2.sum_durations 0 (V2.passes_data st)
  = Some (V2.visible_time_total (V2.statistics (V2.passes_output out))).
Proof.
  unfold V2.outputs.
  destruct (V2.sum_durations 0 (V2.passes_data st)); [| discriminate].
  intros [= <-]. reflexivity.
Qed.

(** X10.  The [visible_time_total] of the second program is the sum of
    the lengths (end minus start, in seconds) of the passes of its
    list; it is not negative and not more than the length of the
    window. *)
Theorem X10_visible_time_total :
  forall (w : World) (fuel : nat) (norad_id : Z)
         (observer_lat observer_lon : Q)
         (start_time_utc end_time_utc : Time) (step_seconds : Z)
         (observer_elev min_elevation : Q) (out : V2.Output),
  V2.calculate_and_save_data w fuel norad_id observer_lat
    observer_lon start_time_utc end_time_utc step_seconds observer_elev
    min_elevation = Returns out ->
  let total := V2.visible_time_total (V2.statistics (V2.passes_output out)) in
  let us := v2_visible_microseconds (V2.passes (V2.passes_output out)) in
  (total == Py.total_seconds us)%Q /\
  0 <= us <= Z.max 0 (end_time_utc - start_time_utc) /\
  (0 <= total)%Q /\
  (total <= Py.total_seconds (Z.max 0 (end_time_utc - start_time_utc)))%Q.
Proof.
  intros w fuel norad_id observer_lat observer_lon start_time_utc
         end_time_utc step_seconds observer_elev min_elevation out Hcall
         total us.
  apply v2_call_inversion in Hcall as [satellite [_ Hrun]].
  assert (Hsum : (total == Py.total_seconds us)%Q).
  { pose proof (v2_run_durations _ _ _ _ _ _ _ _ _ _ _ _ Hrun) as Hd.
    destruct (v2_run_inversion _ _ _ _ _ _ _ _ _ _ _ _ Hrun) as [_ Hout].
    pose proof (v2_outputs_total _ _ _ _ _ _ _ _ _ _ _ _ Hout) as Hs.
    apply v2_outputs_fields in Hout as [Hps _]. rewrite <- Hps in Hs.
    apply sum_durations_value in Hs.
    - unfold total, us. rewrite Hs. ring.
    - eapply Forall_impl; [| exact Hd]. simpl. intros p [H1 H2]. eauto. }
  assert (Hb : 0 <= us <= Z.max 0 (end_time_utc - start_time_utc)).
  { destruct (v2_run_separated _ _ _ _ _ _ _ _ _ _ _ _ Hrun) as [Hord Hle].
    pose proof (v2_run_endpoints _ _ _ _ _ _ _ _ _ _ _ _ Hrun) as He.
    apply visible_microseconds_bound; trivial.
    rewrite Forall_forall in Hle, He |- *. intros p Hp.
    destruct (He p Hp) as [Hs Hen].
    apply sweep_instants_within in Hs as [_ Hs];
      [| apply (v2_run_inversion _ _ _ _ _ _ _ _ _ _ _ _ Hrun)].
    apply sweep_instants_within in Hen as [_ Hen];
      [| apply (v2_run_inversion _ _ _ _ _ _ _ _ _ _ _ _ Hrun)].
    specialize (Hle p Hp). lia. }
  repeat split; trivial; try apply Hb; rewrite Hsum;
    unfold Py.total_seconds, Qle; cbn [Qnum Qden]; lia.
Qed.

Lemma X10_visible_time_total_witness :
  exists out,
    V2.calculate_and_save_data demo_world 20 25544 0 0 0 (seconds 6) 1 0 10
    = Returns out /\
    (V2.visible_time_total (V2.statistics (V2.passes_output out)) == 3)%Q.
Proof.
  eexists. split; [vm_compute; reflexivity |].
  destruct (X10_visible_time_total demo_world 20 25544 0 0 0 (seconds 6)
              1 0 10 _ ltac:(vm_compute; reflexivity)) as [H _].
  rewrite H. reflexivity.
Defined.
(** ** The maximum of a pass and the records of the pass *)

Lemma fold_max_round (n : nat) (l : list Q) :
  forall a,
  fold_left Py.max (map (fun x => Py.round x n) l) (Py.round a n)
  = Py.round (fold_left Py.max l a) n.
Proof.
  induction l as [| b l IH]; intros a; cbn [map fold_left]; trivial.
  rewrite max_round. apply IH.
Qed.

Lemma maximum_round (n : nat) (l : list Q) (m : Q) :
  maximum l = Some m ->
  maximum (map (fun x => Py.round x n) l) = Some (Py.round m n).
Proof.
  destruct l as [| a l]; cbn [map maximum]; [discriminate |].
  intros [= <-]. rewrite fold_max_round. reflexivity.
Qed.

(** X11.  In the first program the two reports agree on the peak of a
    pass to the precision of the records: the greatest [elevation]
    among the ephemeris records of a pass is less than a thousandth of
    a degree away from the [max_elevation] of the pass. *)
Theorem X11_peak_of_pass_matches_records :
  forall (w : World) (fuel : nat) (tle_line1 tle_line2 : string)
         (observer_lat observer_lon : Q)
         (start_time_utc end_time_utc : Time) (step_seconds : Z)
         (observer_elev min_elevation : Q) (out : V1.Output) (p : V1.Pass),
  V1.calculate_and_save_data w fuel tle_line1 tle_line2 observer_lat
    observer_lon start_time_utc end_time_utc step_seconds observer_elev
    min_elevation = Returns out ->
  In p (V1.passes (V1.passes_output out)) ->
  exists peak,
    maximum
      (map (fun e => V1.elevation (V1.relative e))
           (filter (fun e => V1.entry_pass_id e =? V1.pass_id p)
                   (V1.ephemeris (V1.ephemeris_output out))))
    = Some peak /\
    (V1.max_elevation p - (1 # 1000) < peak)%Q /\
    (peak < V1.max_elevation p + (1 # 1000))%Q.
Proof.
  intros w fuel tle_line1 tle_line2 observer_lat observer_lon
         start_time_utc end_time_utc step_seconds observer_elev
         min_elevation out p Hcall Hp.
  apply v1_call_inversion in Hcall as [satellite [_ Hrun]].
  pose proof (v1_run_maximum _ _ _ _ _ _ _ _ _ _ _ _ Hrun Hp) as Hm.
  apply (maximum_round 3) in Hm.
  exists (Py.round (V1.max_elevation p) 3).
  split; [| apply round3_near].
  rewrite <- Hm.
  unfold v1_raw_elevations. rewrite map_map. f_equal.
  apply map_ext_in. intros e He. apply filter_In in He as [He _].
  pose proof (v1_run_entries _ _ _ _ _ _ _ _ _ _ _ Hrun) as Hent.
  rewrite Forall_forall in Hent. destruct (Hent e He) as [g [Hg [_ Ee]]].
  rewrite Ee at 1. simpl. unfold raw_elevation. rewrite Hg. reflexivity.
Qed.

Lemma X11_peak_of_pass_matches_records_witness :
  exists out p peak,
    V1.calculate_and_save_data demo_world 20 "" "" 0 0 0 (seconds 6) 1 0 10
    = Returns out /\
    nth_error (V1.passes (V1.passes_output out)) 0 = Some p /\
    maximum
      (map (fun e => V1.elevation (V1.relative e))
           (filter (fun e => V1.entry_pass_id e =? V1.pass_id p)
                   (V1.ephemeris (V1.ephemeris_output out))))
    = Some peak /\
    (V1.max_elevation p - (1 # 1000) < peak)%Q /\
    (peak < V1.max_elevation p + (1 # 1000))%Q.
Proof.
  eexists _, _.
  destruct (X11_peak_of_pass_matches_records demo_world 20 "" "" 0 0 0
              (seconds 6) 1 0 10 _ _ ltac:(vm_compute; reflexivity)
              (or_introl eq_refl)) as [peak H].
  exists peak. split; [vm_compute; reflexivity |].
  split; [vm_compute; reflexivity |]. exact H.
Defined.
(** ** The two programs side by side *)

Lemma forget_transition (s : Spec.Segmenter) (x : Spec.Sample) :
  forget_segmenter (Spec.transition s x)
  = Spec.transition (forget_segmenter s) (forget_sample x).
Proof.
  unfold Spec.transition.
  assert (Hph : Spec.phase (forget_segmenter s)
                = match Spec.phase s with
                  | Spec.IDLE => Spec.IDLE
                  | Spec.ACTIVE o => Spec.ACTIVE (forget_open o)
                  end) by reflexivity.
  rewrite Hph. clear Hph.
  change (Spec.is_visible (forget_sample x)) with (Spec.is_visible x).
  destruct (Spec.phase s) as [| o] eqn:Ho; destruct (Spec.is_visible x);
    unfold forget_segmenter;
    cbn [Spec.phase Spec.counter Spec.emitted Spec.records];
    rewrite ?map_app; reflexivity.
Qed.

Lemma forget_fold (xs : list Spec.Sample) :
  forall s,
  forget_segmenter (fold_left Spec.transition xs s)
  = fold_left Spec.transition (map forget_sample xs) (forget_segmenter s).
Proof.
  induction xs as [| x xs IH]; intros s; cbn [fold_left map]; trivial.
  rewrite IH, forget_transition. reflexivity.
Qed.

Lemma forget_end_of_sweep (s : Spec.Segmenter) :
  forget_segmenter (Spec.end_of_sweep s)
  = Spec.end_of_sweep (forget_segmenter s).
Proof.
  unfold Spec.end_of_sweep.
  assert (Hph : Spec.phase (forget_segmenter s)
                = match Spec.phase s with
                  | Spec.IDLE => Spec.IDLE
                  | Spec.ACTIVE o => Spec.ACTIVE (forget_open o)
                  end) by reflexivity.
  rewrite Hph. clear Hph.
  destruct (Spec.phase s) as [| o]; [reflexivity |].
  unfold forget_segmenter.
  cbn [Spec.phase Spec.counter Spec.emitted Spec.records].
  rewrite map_app. reflexivity.
Qed.

Lemma forget_segment (xs : list Spec.Sample) :
  forget_segmenter (Spec.segment xs) = Spec.segment (map forget_sample xs).
Proof.
  unfold Spec.segment. rewrite forget_end_of_sweep, forget_fold.
  reflexivity.
Qed.

(** Two sweeps that compute the same instants and give the same
    verdicts have the same stream, the elevations apart. *)
Lemma stream_forget (g1 g2 : Time -> option Geometry) (min_elevation : Q)
    (h1 h2 : Q -> Q) (ts : list Time) :
  (forall t, In t ts ->
     computed_at g1 t = computed_at g2 t /\
     visible_at g1 min_elevation t = visible_at g2 min_elevation t) ->
  map forget_sample (stream g1 min_elevation h1 ts)
  = map forget_sample (stream g2 min_elevation h2 ts).
Proof.
  induction ts as [| t ts IH]; intros H; cbn [stream map]; trivial.
  destruct (H t (or_introl eq_refl)) as [Hc Hv].
  specialize (IH (fun t' Hin => H t' (or_intror Hin))).
  unfold computed_at, visible_at in Hc, Hv. unfold sample_at.
  destruct (g1 t) as [a |]; destruct (g2 t) as [b |]; try discriminate;
    trivial.
  cbn [map]. rewrite IH. unfold forget_sample.
  cbn [Spec.timestamp Spec.is_visible Spec.elevation_deg].
  rewrite Hv. reflexivity.
Qed.

(** X17.  When, at every instant of the sweep, the two programs compute
    a geometry together or fail together, and give the same verdict
    against the threshold, their reports show the same passes: the same
    identifiers, starts and ends, the same pass count, and ephemeris
    records at the same instants under the same pass identifiers.  The
    elevations themselves need not agree: the first program corrects
    for the light time and the second does not. *)
Theorem X17_programs_agree_on_passes :
  forall (w : World) (fuel1 fuel2 : nat) (tle_line1 tle_line2 : string)
         (norad_id : Z) (observer_lat observer_lon : Q)
         (start_time_utc end_time_utc : Time) (step_seconds : Z)
         (observer_elev min_elevation : Q)
         (sat1 sat2 : Satellite w) (out1 : V1.Output) (out2 : V2.Output),
  EarthSatellite w tle_line1 tle_line2 = Some sat1 ->
  V2.get_tle w norad_id = Some sat2 ->
  (forall t,
     In t (sweep_instants start_time_utc end_time_utc step_seconds) ->
     computed_at
       (V1.geometry w sat1 observer_lat observer_lon observer_elev) t
     = computed_at
         (V2.geometry w sat2 observer_lat observer_lon observer_elev) t /\
     visible_at
       (V1.geometry w sat1 observer_lat observer_lon observer_elev)
       min_elevation t
     = visible_at
         (V2.geometry w sat2 observer_lat observer_lon observer_elev)
         min_elevation t) ->
  V1.calculate_and_save_data w fuel1 tle_line1 tle_line2 observer_lat
    observer_lon start_time_utc end_time_utc step_seconds observer_elev
    min_elevation = Returns out1 ->
  V2.calculate_and_save_data w fuel2 norad_id observer_lat
    observer_lon start_time_utc end_time_utc step_seconds observer_elev
    min_elevation = Returns out2 ->
  map (fun p => (V1.pass_id p, V1.start p, V1.end_ p))
      (V1.passes (V1.passes_output out1))
  = map (fun p => (V2.pass_id p, V2.start p, V2.end_ p))
        (V2.passes (V2.passes_output out2)) /\
  V1.total_passes (V1.passes_output out1)
  = V2.total_passes (V2.statistics (V2.passes_output out2)) /\
  map (fun e => (V1.entry_pass_id e, V1.timestamp e))
      (V1.ephemeris (V1.ephemeris_output out1))
  = map (fun e => (V2.entry_pass_id e, V2.timestamp e))
        (V2.ephemeris (V2.ephemeris_output out2)).
Proof.
  intros w fuel1 fuel2 tle_line1 tle_line2 norad_id observer_lat
         observer_lon start_time_utc end_time_utc step_seconds
         observer_elev min_elevation sat1 sat2 out1 out2 Hs1 Hs2 Hagree
         H1 H2.
  unfold V1.calculate_and_save_data in H1. rewrite Hs1 in H1.
  unfold V2.calculate_and_save_data in H2. rewrite Hs2 in H2.
  destruct (v1_run_spec _ _ _ _ _ _ _ _ _ _ _ H1) as [Hp1 [Hc1 Hr1]].
  destruct (v2_run_spec _ _ _ _ _ _ _ _ _ _ _ _ H2) as [Hp2 [Hc2 Hr2]].
  pose proof (stream_forget _ _ min_elevation (fun x => x) round2 _ Hagree)
    as Hst.
  apply (f_equal Spec.segment) in Hst. rewrite <- !forget_segment in Hst.
  pose proof (f_equal Spec.emitted Hst) as He.
  pose proof (f_equal Spec.counter Hst) as Hc.
  pose proof (f_equal Spec.records Hst) as Hr.
  unfold forget_segmenter in He, Hc, Hr.
  cbn [Spec.emitted Spec.counter Spec.records] in He, Hc, Hr.
  rewrite <- Hp1, <- Hp2 in He. rewrite <- Hc1, <- Hc2 in Hc.
  rewrite <- Hr1, <- Hr2 in Hr.
  split; [| split].
  - apply (f_equal (map (fun q => (Spec.pass_id q, Spec.start_time q,
                                   Spec.end_time q)))) in He.
    rewrite !map_map in He. exact He.
  - exact Hc.
  - apply (f_equal (map (fun r : Z * Spec.Sample =>
                           (fst r, Spec.timestamp (snd r))))) in Hr.
    rewrite !map_map in Hr.
    cbn [fst snd forget_sample Spec.timestamp] in Hr.
    rewrite (map_ext _ (fun e => (V1.entry_pass_id e, V1.timestamp e)))
      in Hr by (intros e; rewrite sample_at_timestamp; reflexivity).
    rewrite (map_ext _ (fun e => (V2.entry_pass_id e, V2.timestamp e)))
      in Hr by (intros e; rewrite sample_at_timestamp; reflexivity).
    exact Hr.
Qed.

(** In [drift_world] the elevations of the two programs differ at
    every instant, by the light time, and the verdicts are the same. *)
Lemma X17_programs_agree_on_passes_witness :
  exists out1 out2,
    V1.calculate_and_save_data drift_world 20 "" "" 0 0 0 (seconds 6) 1 0 10
    = Returns out1 /\
    V2.calculate_and_save_data drift_world 30 25544 0 0 0 (seconds 6) 1 0 10
    = Returns out2 /\
    option_map alt_degrees (V1.geometry drift_world tt 0 0 0 (seconds 1))
    <> option_map alt_degrees
         (V2.geometry drift_world tt 0 0 0 (seconds 1)) /\
    map (fun p => (V1.pass_id p, V1.start p, V1.end_ p))
        (V1.passes (V1.passes_output out1))
    = map (fun p => (V2.pass_id p, V2.start p, V2.end_ p))
          (V2.passes (V2.passes_output out2)).
Proof.
  eexists _, _. split; [vm_compute; reflexivity |].
  split; [vm_compute; reflexivity |].
  split; [vm_compute; discriminate |].
  apply (X17_programs_agree_on_passes drift_world 20 30 "" "" 25544 0 0 0
           (seconds 6) 1 0 10 tt tt).
  - reflexivity.
  - reflexivity.
  - intros t Hin. vm_compute in Hin.
    repeat (destruct Hin as [<- | Hin]; [vm_compute; split; reflexivity |]).
    contradiction.
  - vm_compute. reflexivity.
  - vm_compute. reflexivity.
Defined.
